(** * snowflake-gorm: node-id allocation and watermark synchronisation

    A shallow embedding of the Go packages [nodeid] (hash and random node-id
    strategies) and [nodeid/gorm] (the database-backed [NodeIdAllocator] and
    the [TimeSynchronizer]), followed by the properties of the design
    document that concern them.

    Conventions.
    - [int64] values are [Z] with the two's-complement wrap-around of Go's
      arithmetic written out ([int64.add], [int64.sub]).
    - [time.Duration] is an [int64] count of nanoseconds, as in Go.
    - A [time.Time] instant is its Unix time in nanoseconds.
    - Go's [(value, error)] returns become [result].
    - Effects that leave the process (sleeping, logging) are recorded in a
      list of [Event]s; the database is an explicit state. *)

From Stdlib Require Import ZArith List String Ascii Bool Lia Permutation Sorted.
From Stdlib Require DecimalString DecimalZ DecimalPos.
Import ListNotations.
Local Open Scope Z_scope.

(* ------------------------------------------------------------------ *)
(** ** Machine integers and time *)

Module int64.
Definition min : Z := - 2 ^ 63.
Definition max : Z := 2 ^ 63 - 1.
Definition InRange (z : Z) : Prop := min <= z <= max.
(** Reduction of a mathematical integer to its int64 representative. *)
Definition wrap (z : Z) : Z := (z + 2 ^ 63) mod 2 ^ 64 - 2 ^ 63.
Definition add (a b : Z) : Z := wrap (a + b).
Definition sub (a b : Z) : Z := wrap (a - b).
End int64.

Module uint64.
Definition wrap (z : Z) : Z := z mod 2 ^ 64.
End uint64.

Module time.
(** [type Duration int64], in nanoseconds. *)
Definition Duration : Type := Z.
Definition Millisecond : Duration := 1000000.
Definition Second : Duration := 1000000000.
Definition Hour : Duration := 3600000000000.
(** [func (d Duration) Microseconds() int64 { return int64(d) / 1e3 }];
    Go's integer division truncates toward zero. *)
Definition Microseconds (d : Duration) : Z := Z.quot d 1000.
(** [func (d Duration) Milliseconds() int64 { return int64(d) / 1e6 }] *)
Definition Milliseconds (d : Duration) : Z := Z.quot d 1000000.
(** An instant, as nanoseconds since the Unix epoch. *)
Definition Time : Type := Z.
(** [t.UnixMilli()]: milliseconds since the epoch, rounded down. *)
Definition UnixMilli (t : Time) : Z := t / 1000000.
End time.

(* ------------------------------------------------------------------ *)
(** ** Errors and results *)

Inductive error : Type :=
| ErrRecordNotFound            (* gorm.ErrRecordNotFound *)
| ErrDuplicatedKey             (* a primary-key or unique-index violation *)
| ErrMissingWhereClause        (* gorm.ErrMissingWhereClause *)
| ErrBadConn                   (* the store cannot be reached *)
| ErrStrategy (msg : string).  (* an error of the node-id strategy *)

Definition is_ErrRecordNotFound (e : error) : bool :=
  match e with ErrRecordNotFound => true | _ => false end.

Inductive result (A : Type) : Type :=
| Ok (a : A)
| Err (e : error).
Arguments Ok {A} a.
Arguments Err {A} e.

(* ------------------------------------------------------------------ *)
(** ** The strategy interface of package snowflake *)

Module snowflake.
(** [type NodeIdAllocator interface {
       Alloc() (int64, error); Migration(int64) (int64, error) }] *)
Class NodeIdAllocator (A : Type) : Type := {
  Alloc : A -> result Z;
  Migration : A -> Z -> result Z
}.
End snowflake.

(* ------------------------------------------------------------------ *)
(** ** Package nodeid: the two strategies *)

Module nodeid.

Module HashNodeIdAllocator.
Section WithHash.
(** [xxhash.Digest.Sum64] of the bytes written so far; the hash
    function belongs to an external library and is a parameter. *)
Variable Sum64 : list Z -> Z.

Record t : Type := { nodeIdKey : string }.

Definition NewHashNodeIdAllocator (nodeIdKey : string) : t :=
  {| nodeIdKey := nodeIdKey |}.

(** The bytes of a Go string. *)
Definition bytes_of_string (s : string) : list Z :=
  map (fun b => Z.of_N (Byte.to_N b)) (list_byte_of_string s).

(** [binary.LittleEndian.PutUint64(b, v)] on a fresh 8-byte slice. *)
Definition PutUint64 (v : Z) : list Z :=
  map (fun i => Z.shiftr v (8 * Z.of_nat i) mod 256) (seq 0 8).

(** [int64(d.Sum64() % 1024)] *)
Definition Alloc (n : t) : result Z :=
  Ok (uint64.wrap (Sum64 (bytes_of_string (nodeIdKey n))) mod 1024).

Definition Migration (n : t) (nodeId : Z) : result Z :=
  let nodeIdBytes := PutUint64 (uint64.wrap nodeId) in
  Ok (uint64.wrap (Sum64 nodeIdBytes) mod 1024).

Definition strategy : snowflake.NodeIdAllocator t :=
  {| snowflake.Alloc := Alloc; snowflake.Migration := Migration |}.
End WithHash.

(** [binary.LittleEndian.Uint64(b)], the decoding that [PutUint64]
    inverts: the bytes of a slice, least significant first. *)
Definition Uint64 (b : list Z) : Z :=
  fold_right (fun x acc => x + 256 * acc) 0 b.
End HashNodeIdAllocator.

Module RandNodeIdAllocator.
(** The generator of math/rand/v2 is modelled by the sequence of 64-bit
    words its source produces; a computation consumes a prefix of it
    and returns the rest, [None] meaning that it needs more words than
    the sequence holds. *)
Definition Source : Type := list Z.

(** [bits.Mul64]: the 128-bit product as (hi, lo). *)
Definition Mul64 (x y : Z) : Z * Z :=
  ((x * y) / 2 ^ 64, (x * y) mod 2 ^ 64).

(** The rejection loop of [uint64n]:
    [for lo < thresh { hi, lo = bits.Mul64(r.Uint64(), n) }]. *)
Fixpoint reject (thresh n hi lo : Z) (src : Source) : option (Z * Source) :=
  if lo <? thresh then
    match src with
    | [] => None
    | x :: src' =>
        let '(hi', lo') := Mul64 (uint64.wrap x) n in
        reject thresh n hi' lo' src'
    end
  else Some (hi, src).

(** [func (r *Rand) uint64n(n uint64) uint64] on a 64-bit platform:
    a mask when [n] is a power of two, and otherwise the high word of the
    product with a word of the generator, redrawn while the low word is
    below [-n % n]. *)
Definition uint64n (n : Z) (src : Source) : option (Z * Source) :=
  if Z.land n (n - 1) =? 0 then
    match src with
    | [] => None
    | x :: src' => Some (Z.land (uint64.wrap x) (n - 1), src')
    end
  else
    match src with
    | [] => None
    | x :: src' =>
        let '(hi, lo) := Mul64 (uint64.wrap x) n in
        if lo <? n then
          let thresh := uint64.wrap (- n) mod n in
          reject thresh n hi lo src'
        else Some (hi, src')
    end.

(** [rand.Int64N(n)] for [n > 0] (it panics otherwise; both calls of
    this package pass the constant 1023). *)
Definition Int64N (n : Z) (src : Source) : option (Z * Source) :=
  uint64n (uint64.wrap n) src.

Record t : Type := mk {}.

Definition NewRandNodeIdAllocator : t := mk.

Definition Alloc (n : t) (src : Source) : option (result Z * Source) :=
  match Int64N 1023 src with
  | Some (v, src') => Some (Ok v, src')
  | None => None
  end.

Definition Migration (n : t) (_ : Z) (src : Source)
  : option (result Z * Source) :=
  match Int64N 1023 src with
  | Some (v, src') => Some (Ok v, src')
  | None => None
  end.

(** A word of the source is accepted by [uint64n 1023] when it ends the
    rejection loop, and then determines the value returned. *)
Definition accepted (x : Z) : bool :=
  negb (snd (Mul64 (uint64.wrap x) 1023) <? uint64.wrap (- 1023) mod 1023).
Definition value (x : Z) : Z := fst (Mul64 (uint64.wrap x) 1023).

(** The accepted words that yield [v] are the [slots] consecutive words
    from [first_word v] on. *)
Definition slots : Z := (2 ^ 64 - 16) / 1023.
Definition first_word (v : Z) : Z := (v * 2 ^ 64 + 16 + 1022) / 1023.
End RandNodeIdAllocator.

End nodeid.

(* ------------------------------------------------------------------ *)
(** ** The persisted record and the store *)

Module model.
(** Modelled from the spec: the struct [model.SnowflakeKv] is generated code
    that is not among the sources.  It is the spec's IdentityRecord, one row
    of table [snowflake_kv], with the fields that [Alloc] and [updateDB]
    set: [Key string], [NodeID int64], [Time int64] (the watermark, in
    milliseconds), [Created *time.Time], [Updated time.Time]. *)
Record SnowflakeKv : Type := {
  Key : string;
  NodeID : Z;
  Time : Z;
  Created : option time.Time;
  Updated : time.Time
}.
End model.

Module dao.
Import model.

(** Conditions built by [tab.Key.Eq(k)] and [tab.NodeID.Eq(n)]. *)
Inductive Cond : Type :=
| Key_Eq (k : string)
| NodeID_Eq (n : Z).

Definition holds (c : Cond) (r : SnowflakeKv) : bool :=
  match c with
  | Key_Eq k => String.eqb (Key r) k
  | NodeID_Eq n => NodeID r =? n
  end.

Definition matches (conds : list Cond) (r : SnowflakeKv) : bool :=
  forallb (fun c => holds c r) conds.

(** Write statements that reached the store. *)
Inductive Stmt : Type :=
| INSERT (r : SnowflakeKv)
| UPDATE (conds : list Cond) (v : SnowflakeKv).

(** The store: the rows of [snowflake_kv] in insertion order, whether the
    database can be reached, and the write statements executed so far. *)
Record DB : Type := {
  rows : list SnowflakeKv;
  reachable : bool;
  journal : list Stmt
}.

(** The constraints of the table definition ([snowflake_kv] in the SQL
    files): [key] is the primary key and [node_id] carries the unique
    index [snowflake_kv_UN_node_id]. *)
Definition violates (r : SnowflakeKv) (tbl : list SnowflakeKv) : bool :=
  existsb (fun x => String.eqb (Key x) (Key r)) tbl
  || existsb (fun x => NodeID x =? NodeID r) tbl.

(** Modelled from the spec: the generated query code of packages [dao] and
    [model] is not among the sources.  [First] is the spec's
    [find(key, nodeId) -> Record | NotFound]: the first row satisfying
    every condition, [ErrRecordNotFound] when there is none. *)
Definition First (conds : list Cond) (db : DB) : result SnowflakeKv :=
  if reachable db then
    match find (matches conds) (rows db) with
    | Some r => Ok r
    | None => Err ErrRecordNotFound
    end
  else Err ErrBadConn.

(** Modelled from the spec: [Create] is the spec's [insert(Record) ->
    error]; the row is appended unless the table's constraints reject
    it. *)
Definition Create (r : SnowflakeKv) (db : DB) : result DB :=
  if reachable db then
    if violates r (rows db) then Err ErrDuplicatedKey
    else Ok {| rows := rows db ++ [r];
               reachable := reachable db;
               journal := journal db ++ [INSERT r] |}
  else Err ErrBadConn.

(** Modelled from the spec: the [fields] of an update.  What an update with
    the struct [v] assigns to a row [r], by gorm's convention for struct
    updates: the non-zero fields of the struct, and never the primary
    key. *)
Definition assign (v r : SnowflakeKv) : SnowflakeKv :=
  {| Key := Key r;
     NodeID := if NodeID v =? 0 then NodeID r else NodeID v;
     model.Time := if model.Time v =? 0 then model.Time r else model.Time v;
     Created := match Created v with Some c => Some c | None => Created r end;
     Updated := Updated v |}.

(** Modelled from the spec: the [key] of [updateByKey].  It is the
    condition gorm adds from the primary key of the struct when that is
    set. *)
Definition pk_conds (v : SnowflakeKv) : list Cond :=
  if String.eqb (Key v) EmptyString then [] else [Key_Eq (Key v)].

(** Modelled from the spec: [Updates] is the spec's
    [update(key, nodeId, fields) -> error] when called with both
    conditions, and [updateByKey(key, fields) -> error] when called with
    none and a struct that carries the key.  Every row that satisfies the
    conditions is assigned; an update without any condition is refused. *)
Definition Updates (conds : list Cond) (v : SnowflakeKv) (db : DB) : result DB :=
  if reachable db then
    match conds ++ pk_conds v with
    | [] => Err ErrMissingWhereClause
    | all =>
        Ok {| rows := map (fun r => if matches all r then assign v r else r)
                          (rows db);
              reachable := reachable db;
              journal := journal db ++ [UPDATE conds v] |}
    end
  else Err ErrBadConn.
End dao.

(* ------------------------------------------------------------------ *)
(** ** Package gorm: the allocator and the time synchronizer *)

Module gorm.
Import model dao.

(** What the package does besides reading and writing the store. *)
Inductive Event : Type :=
| Sleep (d : time.Duration)                 (* time.Sleep(d) *)
| LogRollback (current : time.Time) (saved : Z)
    (* logger.Errorf("time is rollback, ...", current, saved) *)
| LogUpdateFailed (e : error)
    (* logger.Errorf("update time failed. error: %v", err) *)
| LogDone.                                  (* logger.Info("... is done") *)

Module NodeIdAllocator.
Section WithStrategy.
Context {A : Type} `{snowflake.NodeIdAllocator A}.

(** [type NodeIdAllocator struct]; [allocator] is the embedded
    [snowflake.NodeIdAllocator]. *)
Record t : Type := {
  nodeIdKey : string;
  acceptableClockDrift : time.Duration;
  nodeIdContentionInterval : time.Duration;
  allocator : A
}.

(** A finished call: the returned pair, the store afterwards and the
    events in order. *)
Definition Outcome : Type := (result Z * DB * list Event)%type.

Definition emit (e : Event) (r : option Outcome) : option Outcome :=
  match r with
  | Some (x, db, ev) => Some (x, db, e :: ev)
  | None => None
  end.

(** Step 3 of [Alloc]: the contention check
    [if nowMilli-m.nodeIdContentionInterval.Milliseconds() > saved.Time
       { saved.NodeID = nodeId }]. *)
Definition contend (m : t) (nowMilli nodeId : Z) (saved : SnowflakeKv)
  : SnowflakeKv :=
  if int64.sub nowMilli (time.Milliseconds (nodeIdContentionInterval m))
     >? model.Time saved
  then {| Key := Key saved; NodeID := nodeId;
          model.Time := model.Time saved;
          Created := Created saved; Updated := Updated saved |}
  else saved.

(** Step 4: [saved.Time = nowMilli; saved.Created = nil;
    saved.Updated = now]. *)
Definition renew (now : time.Time) (saved : SnowflakeKv) : SnowflakeKv :=
  {| Key := Key saved; NodeID := NodeID saved;
     model.Time := time.UnixMilli now;
     Created := None; Updated := now |}.

(** The [for] loop of [Alloc].  [fuel] bounds the number of
    iterations; [None] means that the loop has not returned within
    them. *)
Fixpoint loop (fuel : nat) (m : t) (now : time.Time) (nodeId : Z) (db : DB)
  : option Outcome :=
  match fuel with
  | O => None
  | S fuel' =>
      let nowMilli := time.UnixMilli now in
      match First [Key_Eq (nodeIdKey m); NodeID_Eq nodeId] db with
      | Err err =>
          if is_ErrRecordNotFound err then
            let saved := {| Key := nodeIdKey m; NodeID := nodeId;
                            model.Time := nowMilli;
                            Created := Some now; Updated := now |} in
            match Create saved db with
            | Err err' => Some (Err err', db, [])
            | Ok db' => Some (Ok (NodeID saved), db', [])
            end
          else Some (Err err, db, [])
      | Ok saved =>
          if model.Time saved >? nowMilli then
            if int64.sub nowMilli
                 (time.Microseconds (acceptableClockDrift m))
               <=? model.Time saved
            then Some (Ok (NodeID saved), db,
                       [Sleep (acceptableClockDrift m)])
            else
              emit (LogRollback now (model.Time saved))
                match snowflake.Migration (allocator m) nodeId with
                | Err err => Some (Err err, db, [])
                | Ok nodeId' => loop fuel' m now nodeId' db
                end
          else
            let saved := renew now (contend m nowMilli nodeId saved) in
            match Updates [Key_Eq (nodeIdKey m); NodeID_Eq nodeId]
                          saved db with
            | Err err => Some (Err err, db, [])
            | Ok db' => Some (Ok (NodeID saved), db', [])
            end
      end
  end.

(** [func (m NodeIdAllocator) Alloc() (int64, error)], called at the
    instant [now]. *)
Definition Alloc (fuel : nat) (m : t) (now : time.Time) (db : DB)
  : option Outcome :=
  match snowflake.Alloc (allocator m) with
  | Err err => Some (Err err, db, [])
  | Ok nodeId => loop fuel m now nodeId db
  end.

(** The candidates the strategy produces: [migrate m n nodeId] is the result
    of [n] successive migrations from [nodeId], and [candidate m n] the
    candidate after [n] migrations from the one [Alloc] of the strategy
    returns. *)
Fixpoint migrate (m : t) (n : nat) (nodeId : Z) : result Z :=
  match n with
  | O => Ok nodeId
  | S n' =>
      match snowflake.Migration (allocator m) nodeId with
      | Ok nodeId' => migrate m n' nodeId'
      | Err err => Err err
      end
  end.

Definition candidate (m : t) (n : nat) : result Z :=
  match snowflake.Alloc (allocator m) with
  | Ok nodeId => migrate m n nodeId
  | Err err => Err err
  end.

(** The number of migrations of a call: each one logs the rollback. *)
Definition migrations (ev : list Event) : nat :=
  List.length (filter (fun e => match e with LogRollback _ _ => true
                                   | _ => false end) ev).
End WithStrategy.
Arguments t A : clear implicits.
End NodeIdAllocator.

Module TimeSynchronizer.
(** [type TimeSynchronizer struct]: the key and the atomic [curr]. *)
Record t : Type := {
  nodeIdKey : string;
  curr : Z
}.

(** [NewTimeSynchronizer]: [curr] starts at its zero value. *)
Definition NewTimeSynchronizer (nodeIdKey : string) : t :=
  {| nodeIdKey := nodeIdKey; curr := 0 |}.

(** [func (m *TimeSynchronizer) Async(t int64)] *)
Definition Async (t' : Z) (m : t) : t :=
  let last := curr m in
  if t' >? int64.add last 10 then
    {| nodeIdKey := nodeIdKey m; curr := t' |}
  else m.

(** [func (m *TimeSynchronizer) updateDB()], run at the instant
    [now]. *)
Definition updateDB (m : t) (now : time.Time) (db : DB) : DB * list Event :=
  let currentTime := curr m in
  if currentTime =? 0 then (db, [])
  else
    let snowflakeKv := {| Key := nodeIdKey m; NodeID := 0;
                          model.Time := currentTime;
                          Created := None; Updated := now |} in
    match Updates [] snowflakeKv db with
    | Err err =>
        if negb (is_ErrRecordNotFound err)
        then (db, [LogUpdateFailed err])
        else (db, [])
    | Ok db' => (db', [])
    end.

(** What the goroutine of [Run] and the callers of [Async] do, in the
    order in which it happens. *)
Inductive Signal : Type :=
| Tick (now : time.Time)     (* <-m.ticker.C *)
| Push (t' : Z)              (* a call of Async by the generator *)
| Cancel.                    (* <-m.ctx.Done() *)

(** [func (m *TimeSynchronizer) Run()]: the loop of the background
    goroutine over a schedule; it ends at the first [Cancel]. *)
Fixpoint Run (sched : list Signal) (m : t) (db : DB) : t * DB * list Event :=
  match sched with
  | [] => (m, db, [])
  | Tick now :: sched' =>
      let '(db', ev) := updateDB m now db in
      let '(m', db'', ev') := Run sched' m db' in
      (m', db'', ev ++ ev')
  | Push t' :: sched' => Run sched' (Async t' m) db
  | Cancel :: _ => (m, db, [LogDone])
  end.
End TimeSynchronizer.

(** [NewNodeIdAllocator]: the allocator with the hash strategy on its own
    key.  The key is [GetNodeIdKey(name, port)], which depends on the
    host, and is taken as given. *)
Definition NewNodeIdAllocator (nodeIdKey : string)
    (acceptableClockDrift nodeIdContentionInterval : time.Duration)
  : NodeIdAllocator.t nodeid.HashNodeIdAllocator.t :=
  {| NodeIdAllocator.nodeIdKey := nodeIdKey;
     NodeIdAllocator.acceptableClockDrift := acceptableClockDrift;
     NodeIdAllocator.nodeIdContentionInterval := nodeIdContentionInterval;
     NodeIdAllocator.allocator :=
       nodeid.HashNodeIdAllocator.NewHashNodeIdAllocator nodeIdKey |}.
End gorm.

(* ------------------------------------------------------------------ *)
(** ** The host: packages fmt, net and os as far as utils.go uses them *)

Module fmt.
(** The verb [%d] of [fmt.Sprintf] on an integer: its decimal digits,
    after a minus sign when it is negative. *)
Definition d (z : Z) : string :=
  DecimalString.NilZero.string_of_int (Z.to_int z).
End fmt.

Module net.
(** [net.FlagUp] and [net.FlagLoopback]: [1 << iota]. *)
Definition FlagUp : Z := 1.
Definition FlagLoopback : Z := 4.

Module IP.
(** [type IP []byte]; the nil slice is the empty list. *)
Definition t : Type := list Z.

Definition is_nil (ip : t) : bool :=
  match ip with [] => true | _ => false end.

(** [p[lo:hi]] *)
Definition slice (lo hi : nat) (p : t) : t := firstn (hi - lo) (skipn lo p).

Definition bytes_eqb (a b : t) : bool :=
  if list_eq_dec Z.eq_dec a b then true else false.

Definition isZeros (p : t) : bool := forallb (fun b => b =? 0) p.

Definition v4InV6Prefix : t := [0; 0; 0; 0; 0; 0; 0; 0; 0; 0; 255; 255].
Definition IPv6loopback : t := [0; 0; 0; 0; 0; 0; 0; 0; 0; 0; 0; 0; 0; 0; 0; 1].

(** [func (ip IP) To4() IP] *)
Definition To4 (ip : t) : t :=
  if (List.length ip =? 4)%nat then ip
  else if (List.length ip =? 16)%nat && isZeros (slice 0 10 ip)
          && (nth 10 ip 0 =? 255) && (nth 11 ip 0 =? 255)
  then slice 12 16 ip
  else [].

(** [func (ip IP) Equal(x IP) bool] *)
Definition Equal (ip x : t) : bool :=
  if (List.length ip =? List.length x)%nat then bytes_eqb ip x
  else if (List.length ip =? 4)%nat && (List.length x =? 16)%nat then
    bytes_eqb (slice 0 12 x) v4InV6Prefix && bytes_eqb ip (skipn 12 x)
  else if (List.length ip =? 16)%nat && (List.length x =? 4)%nat then
    bytes_eqb (slice 0 12 ip) v4InV6Prefix && bytes_eqb (skipn 12 ip) x
  else false.

(** [func (ip IP) IsLoopback() bool] *)
Definition IsLoopback (ip : t) : bool :=
  let ip4 := To4 ip in
  if negb (is_nil ip4) then nth 0 ip4 0 =? 127
  else Equal ip IPv6loopback.

(** [func (ip IP) IsPrivate() bool] *)
Definition IsPrivate (ip : t) : bool :=
  let ip4 := To4 ip in
  if negb (is_nil ip4) then
    (nth 0 ip4 0 =? 10)
    || ((nth 0 ip4 0 =? 172) && (Z.land (nth 1 ip4 0) 240 =? 16))
    || ((nth 0 ip4 0 =? 192) && (nth 1 ip4 0 =? 168))
  else (List.length ip =? 16)%nat && (Z.land (nth 0 ip 0) 254 =? 252).

(** The dotted decimal form of four bytes. *)
Definition dotted (p4 : t) : string :=
  String.append (fmt.d (nth 0 p4 0))
    (String "." (String.append (fmt.d (nth 1 p4 0))
      (String "." (String.append (fmt.d (nth 2 p4 0))
        (String "." (fmt.d (nth 3 p4 0))))))).

Section WithText.
(** The text of an address that is not an IPv4 address ([<nil>], the
    hexadecimal form of a slice of another length, or the IPv6 form); it is
    not computed here. *)
Variable String6 : t -> string.

(** [func (ip IP) String() string]: dotted decimal when [To4] gives four
    bytes. *)
Definition String (ip : t) : string :=
  let p4 := To4 ip in
  if (List.length p4 =? 4)%nat then dotted p4 else String6 ip.
End WithText.
End IP.

(** [net.Addr] with the two implementations [GetIP] looks at. *)
Inductive Addr : Type :=
| IPNet (ip : IP.t)
| IPAddr (ip : IP.t)
| OtherAddr.

(** [net.Interface]: its flags, and what [Addrs()] returns ([None] for an
    error). *)
Record Interface : Type := {
  Flags : Z;
  Addrs : option (list Addr)
}.
End net.

Module os.
(** What the functions of utils.go read from the host: the environment,
    whether [os.Stat] finds the file /.dockerenv, and what [net.Interfaces()]
    returns ([None] for an error). *)
Record Host : Type := {
  LookupEnv : string -> option string;
  dockerenv : bool;
  Interfaces : option (list net.Interface)
}.

(** [os.Getenv]: the empty string when the variable is not set. *)
Definition Getenv (h : Host) (key : string) : string :=
  match LookupEnv h key with Some v => v | None => EmptyString end.
End os.

(* ------------------------------------------------------------------ *)
(** ** utils.go of package gorm *)

Module utils.
Import net os.

(** [type DeployType string] and its three constants. *)
Definition DeployType : Type := string.
Definition K8s : DeployType := "k8s"%string.
Definition Docker : DeployType := "docker"%string.
Definition Physical : DeployType := "physical"%string.

(** [func (d DeployType) Is(typ DeployType) bool] *)
Definition Is (d typ : DeployType) : bool := String.eqb d typ.

(** [func GetDeployType() DeployType] *)
Definition GetDeployType (h : Host) : DeployType :=
  match LookupEnv h "KUBERNETES_SERVICE_HOST" with
  | Some _ => K8s
  | None => if dockerenv h then Docker else Physical
  end.

(** The address of the type switch of [GetIP]: [v.IP] for [*net.IPNet] and
    [*net.IPAddr], nil otherwise. *)
Definition addr_ip (a : Addr) : IP.t :=
  match a with
  | IPNet ip => ip
  | IPAddr ip => ip
  | OtherAddr => []
  end.

(** The test on interfaces that both loops of [GetIP] start with: the
    interface is skipped when it is down or a loopback interface. *)
Definition skipped (iface : Interface) : bool :=
  (Z.land (Flags iface) FlagUp =? 0)
  || negb (Z.land (Flags iface) FlagLoopback =? 0).

(** The tests on addresses of the first and of the second loop. *)
Definition public (ip : IP.t) : bool :=
  negb (IP.is_nil ip) && negb (IP.is_nil (IP.To4 ip))
  && negb (IP.IsPrivate ip) && negb (IP.IsLoopback ip).

Definition ipv4 (ip : IP.t) : bool :=
  negb (IP.is_nil ip) && negb (IP.is_nil (IP.To4 ip))
  && negb (IP.IsLoopback ip).

Section WithNet.
(** [net.ParseIP] ([None] for nil) and the text of addresses that are not
    IPv4 are not computed here. *)
Variable ParseIP : string -> option IP.t.
Variable String6 : IP.t -> string.

(** [for _, addr := range addrs { ... return ip.String() }]: the text of
    the first address that passes the test. *)
Fixpoint scan_addrs (ok : IP.t -> bool) (addrs : list Addr) : option string :=
  match addrs with
  | [] => None
  | addr :: addrs' =>
      let ip := addr_ip addr in
      if ok ip then Some (IP.String String6 ip) else scan_addrs ok addrs'
  end.

(** [for _, iface := range interfaces { ... }] *)
Fixpoint scan (ok : IP.t -> bool) (interfaces : list Interface)
  : option string :=
  match interfaces with
  | [] => None
  | iface :: interfaces' =>
      if skipped iface then scan ok interfaces'
      else
        match Addrs iface with
        | None => scan ok interfaces'
        | Some addrs =>
            match scan_addrs ok addrs with
            | Some s => Some s
            | None => scan ok interfaces'
            end
        end
  end.

(** [func GetIP() string].  The line printed when the interfaces cannot be
    listed is left out; the interfaces answer both loops alike. *)
Definition GetIP (h : Host) : string :=
  let podIP := Getenv h "POD_IP" in
  if negb (String.eqb podIP EmptyString)
     && match ParseIP podIP with Some _ => true | None => false end
  then podIP
  else
    match Interfaces h with
    | None => EmptyString
    | Some interfaces =>
        match scan public interfaces with
        | Some s => s
        | None =>
            match scan ipv4 interfaces with
            | Some s => s
            | None => EmptyString
            end
        end
    end.

(** [func GetNodeIdKey(name string, port int) string]:
    [fmt.Sprintf("%s_%s_%d_%s", name, GetIP(), port, GetDeployType())]. *)
Definition GetNodeIdKey (h : Host) (name : string) (port : Z) : string :=
  String.append name
    (String "_" (String.append (GetIP h)
      (String "_" (String.append (fmt.d port)
        (String "_" (GetDeployType h)))))).
End WithNet.
End utils.

(* ------------------------------------------------------------------ *)
(** ** The constructors of package gorm on a host *)

Module service.
Section WithNet.
Variable ParseIP : string -> option net.IP.t.
Variable String6 : net.IP.t -> string.

(** [NewNodeIdAllocator(ctx, db, name, port, acceptableClockDrift,
    nodeIdContentionInterval, logger)]: the key is
    [GetNodeIdKey(name, port)]. *)
Definition NewNodeIdAllocator (h : os.Host) (name : string) (port : Z)
    (acceptableClockDrift nodeIdContentionInterval : time.Duration)
  : gorm.NodeIdAllocator.t nodeid.HashNodeIdAllocator.t :=
  let nodeIdKey := utils.GetNodeIdKey ParseIP String6 h name port in
  gorm.NewNodeIdAllocator nodeIdKey acceptableClockDrift
    nodeIdContentionInterval.

(** [NewTimeSynchronizer(ctx, db, name, port, interval, logger)]; the
    ticker of the interval is the source of the ticks of a schedule. *)
Definition NewTimeSynchronizer (h : os.Host) (name : string) (port : Z)
  : gorm.TimeSynchronizer.t :=
  let nodeIdKey := utils.GetNodeIdKey ParseIP String6 h name port in
  gorm.TimeSynchronizer.NewTimeSynchronizer nodeIdKey.
End WithNet.
End service.

(* ------------------------------------------------------------------ *)
(** ** Notions used in the statements *)

Module notions.
Import model dao gorm.

Section Flush.
Import TimeSynchronizer.
(** Pushing a sequence of timestamps, one [Async] after the other. *)
Definition pushes (ts : list Z) (m : t) : t :=
  fold_left (fun m t' => Async t' m) ts m.

(** The largest of a start value and the values of a list. *)
Definition observed_max (w : Z) (ts : list Z) : Z := fold_left Z.max ts w.

(** The row a successful flush leaves in place of a row under its key. *)
Definition flushed (m : t) (now : time.Time) (r : SnowflakeKv) : SnowflakeKv :=
  {| Key := Key r; NodeID := NodeID r; model.Time := curr m;
     Created := Created r; Updated := now |}.

(** A signal that cannot raise a watermark that is still zero. *)
Definition quiet (s : Signal) : Prop :=
  match s with Push t' => t' <= 10 | _ => True end.

(** A signal whose pushed value leaves room for [last+10]. *)
Definition in_range (s : Signal) : Prop :=
  match s with
  | Push t' => int64.min <= t' <= int64.max - 10
  | _ => True
  end.

(** The timestamps pushed in a schedule before its first [Cancel]. *)
Fixpoint pushed (sched : list Signal) : list Z :=
  match sched with
  | [] => []
  | Push t' :: sched' => t' :: pushed sched'
  | Tick _ :: sched' => pushed sched'
  | Cancel :: _ => []
  end.

(** The watermarks of the update statements of a journal, in order. *)
Definition written (j : list Stmt) : list Z :=
  flat_map (fun s => match s with
                     | UPDATE _ v => [model.Time v]
                     | INSERT _ => []
                     end) j.
End Flush.

Section Insert.
Import NodeIdAllocator.
Context {A : Type} `{snowflake.NodeIdAllocator A}.
(** The record [Alloc] inserts for a candidate. *)
Definition fresh (m : t A) (now : time.Time) (nodeId : Z) : SnowflakeKv :=
  {| Key := nodeIdKey m; NodeID := nodeId; model.Time := time.UnixMilli now;
     Created := Some now; Updated := now |}.
End Insert.

(** The row the update of [Alloc] leaves in place of a record it found: the
    watermark and the update time are set (a zero watermark is not
    written), the creation time is kept. *)
Definition renewed (now : time.Time) (r : SnowflakeKv) : SnowflakeKv :=
  {| Key := Key r; NodeID := NodeID r;
     model.Time := if time.UnixMilli now =? 0 then model.Time r
                   else time.UnixMilli now;
     Created := Created r; Updated := now |}.
End notions.

(* ------------------------------------------------------------------ *)
(** ** Histories of the store *)

Module history.
Import model dao gorm.
Section WithStrategy.
Context {A : Type} `{snowflake.NodeIdAllocator A}.

(** What happens to the store: a call of [Alloc] by some allocator, a flush
    by some synchronizer, or the store becoming (un)reachable. *)
Inductive Op : Type :=
| DoAlloc (fuel : nat) (m : NodeIdAllocator.t A) (now : time.Time)
| DoFlush (s : TimeSynchronizer.t) (now : time.Time)
| Outage (up : bool).

Definition apply (op : Op) (db : DB) : DB :=
  match op with
  | DoAlloc fuel m now =>
      match NodeIdAllocator.Alloc fuel m now db with
      | Some (_, db', _) => db'
      | None => db
      end
  | DoFlush s now => fst (TimeSynchronizer.updateDB s now db)
  | Outage up => {| rows := rows db; reachable := up; journal := journal db |}
  end.

Definition run (ops : list Op) (db : DB) : DB :=
  fold_left (fun db op => apply op db) ops db.
End WithStrategy.

(** The (key, node id) pairs of the records created, in order. *)
Definition inserted (j : list Stmt) : list (string * Z) :=
  flat_map (fun s => match s with
                     | INSERT r => [(Key r, NodeID r)]
                     | UPDATE _ _ => []
                     end) j.

(** The table before anything was allocated. *)
Definition empty : DB := {| rows := []; reachable := true; journal := [] |}.

(** The store as the history of its statements accounts for it: the keys
    of the rows are the keys of the records created, each once. *)
Definition accounted (db : DB) : Prop :=
  map Key (rows db) = map fst (inserted (journal db))
  /\ NoDup (map Key (rows db)).
End history.

(* ------------------------------------------------------------------ *)
(** ** Data of the examples *)

Module examples.
Import model dao gorm.

Definition key1 : string := "svc_10.0.0.1_8080_physical".
Definition key2 : string := "svc_10.0.0.2_8080_physical".

Definition row (k : string) (n w : Z) : SnowflakeKv :=
  {| Key := k; NodeID := n; model.Time := w; Created := Some 0; Updated := 0 |}.

Definition store (tbl : list SnowflakeKv) : DB :=
  {| rows := tbl; reachable := true; journal := [] |}.

(** An implementation of the strategy interface that answers one fixed node
    id, for allocation and for migration alike. *)
Record Pinned : Type := { pinned : Z }.

#[export] Instance Pinned_strategy : snowflake.NodeIdAllocator Pinned :=
  {| snowflake.Alloc := fun p => Ok (pinned p);
     snowflake.Migration := fun p _ => Ok (pinned p) |}.

(** An allocator over the pinned strategy. *)
Definition pinned_allocator (k : string) (nodeId : Z)
    (drift contention : time.Duration) : NodeIdAllocator.t Pinned :=
  {| NodeIdAllocator.nodeIdKey := k;
     NodeIdAllocator.acceptableClockDrift := drift;
     NodeIdAllocator.nodeIdContentionInterval := contention;
     NodeIdAllocator.allocator := {| pinned := nodeId |} |}.

(** 2023-11-14T22:13:20Z, in nanoseconds and in milliseconds. *)
Definition noon : time.Time := 1700000000000 * 1000000.
Definition noonMilli : Z := 1700000000000.
End examples.

(* ------------------------------------------------------------------ *)
(** ** Data of the further examples *)

Module samples.
Import model dao gorm net os.

(** An implementation of the strategy interface that always fails. *)
Record Broken : Type := { reason : string }.

#[export] Instance Broken_strategy : snowflake.NodeIdAllocator Broken :=
  {| snowflake.Alloc := fun b => Err (ErrStrategy (reason b));
     snowflake.Migration := fun b _ => Err (ErrStrategy (reason b)) |}.

Definition broken_allocator (k : string) : NodeIdAllocator.t Broken :=
  {| NodeIdAllocator.nodeIdKey := k;
     NodeIdAllocator.acceptableClockDrift := time.Second;
     NodeIdAllocator.nodeIdContentionInterval := time.Second;
     NodeIdAllocator.allocator := {| reason := "no strategy" |} |}.

(** A store that cannot be reached. *)
Definition offline (tbl : list SnowflakeKv) : DB :=
  {| rows := tbl; reachable := false; journal := [] |}.

(** A host with a loopback interface and one network card that has a
    private and a public address; no variable is set. *)
Definition lo : Interface :=
  {| Flags := 5; Addrs := Some [IPNet [127; 0; 0; 1]] |}.
Definition eth0 : Interface :=
  {| Flags := 3; Addrs := Some [IPNet [192; 168; 1; 5]; IPNet [8; 8; 8; 8]] |}.
Definition lan_host : Host :=
  {| LookupEnv := fun _ => None; dockerenv := false;
     Interfaces := Some [lo; eth0] |}.

(** Stand-ins for the functions that are not computed. *)
Definition no_parse : string -> option IP.t := fun _ => None.
Definition no_text : IP.t -> string := fun _ => "?"%string.
Definition five : list Z -> Z := fun _ => 5.

(** A hash stand-in without a fixed point: the first byte plus one. *)
Definition next : list Z -> Z :=
  fun b => match b with x :: _ => x + 1 | [] => 0 end.
End samples.

(* ------------------------------------------------------------------ *)
(** * Properties *)

(** ** Arithmetic of the machine integers *)

Lemma int64_wrap_small (z : Z) : int64.InRange z -> int64.wrap z = z.
Proof.
  unfold int64.InRange, int64.min, int64.max, int64.wrap. intros Hz.
  rewrite Z.mod_small; lia.
Qed.

(** ** The time synchronizer *)

Section TimeSynchronizerFacts.
Import model dao gorm gorm.TimeSynchronizer notions.

Lemma Async_key (t' : Z) (m : t) : nodeIdKey (Async t' m) = nodeIdKey m.
Proof. unfold Async. destruct (_ >? _); reflexivity. Qed.

Lemma Async_cases (t' : Z) (m : t) :
  curr m <= int64.max - 10 -> int64.min <= curr m ->
  (curr m + 10 < t' /\ curr (Async t' m) = t')
  \/ (t' <= curr m + 10 /\ Async t' m = m).
Proof.
  intros Hhi Hlo. unfold Async, int64.add.
  rewrite int64_wrap_small
    by (unfold int64.InRange, int64.min, int64.max in *; lia).
  destruct (Z.gtb_spec t' (curr m + 10)); [left | right]; simpl; split;
    auto; lia.
Qed.

Lemma observed_max_max (l : list Z) :
  forall x a, observed_max (Z.max x a) l = Z.max a (observed_max x l).
Proof.
  unfold observed_max.
  induction l as [|b l IH]; intros x a; simpl; [lia|].
  replace (Z.max (Z.max x a) b) with (Z.max (Z.max x b) a) by lia.
  apply IH.
Qed.

Lemma observed_max_cons (a : Z) (l : list Z) (x : Z) :
  observed_max x (a :: l) = Z.max a (observed_max x l).
Proof. unfold observed_max at 1. simpl. apply observed_max_max. Qed.

(** Pushes within the range where [last+10] does not overflow never lower
    the watermark, keep it at the start value or a pushed value, and leave
    it at most 10 below the largest value seen. *)
Lemma pushes_bounds (ts : list Z) :
  Forall (fun a => int64.min <= a <= int64.max - 10) ts ->
  forall m, int64.min <= curr m <= int64.max - 10 ->
    curr m <= curr (pushes ts m)
    /\ (curr (pushes ts m) = curr m \/ In (curr (pushes ts m)) ts)
    /\ observed_max (curr m) ts - 10 <= curr (pushes ts m)
       <= observed_max (curr m) ts.
Proof.
  induction 1 as [|a ts Ha Hts IH]; intros m Hm.
  - unfold observed_max; simpl. lia.
  - rewrite observed_max_cons.
    change (pushes (a :: ts) m) with (pushes ts (Async a m)).
    destruct (Async_cases a m) as [[Hgt Hc] | [Hle Hc]]; try lia.
    + specialize (IH (Async a m)). rewrite Hc in IH.
      destruct (IH ltac:(lia)) as (H1 & H2 & H3).
      pose proof (observed_max_max ts (curr m) a) as Hmx.
      replace (Z.max (curr m) a) with a in Hmx by lia.
      rewrite Hmx in H3.
      repeat split; try lia. simpl. destruct H2 as [-> | H2]; auto.
    + rewrite Hc. destruct (IH m Hm) as (H1 & H2 & H3).
      repeat split; try lia. simpl. destruct H2; auto.
Qed.

(** Whatever is pushed, the watermark is the start value or a pushed
    value. *)
Lemma pushes_stored (ts : list Z) :
  forall m, curr (pushes ts m) = curr m \/ In (curr (pushes ts m)) ts.
Proof.
  induction ts as [|a ts IH]; intros m; [left; reflexivity|].
  change (pushes (a :: ts) m) with (pushes ts (Async a m)).
  destruct (IH (Async a m)) as [E | Hin]; [|right; right; exact Hin].
  rewrite E. unfold Async. destruct (a >? int64.add (curr m) 10).
  - right. left. reflexivity.
  - left. reflexivity.
Qed.

(** A pushed value that exceeds the start and every other pushed value by
    more than 10 is the watermark afterwards. *)
Lemma pushes_dominant (M : Z) (ts : list Z) :
  Forall (fun a => int64.min <= a <= int64.max - 10) ts ->
  Forall (fun a => a = M \/ a + 10 < M) ts ->
  In M ts ->
  forall m, int64.min <= curr m <= int64.max - 10 ->
    curr m + 10 < M -> curr (pushes ts m) = M.
Proof.
  intros Hr Hd Hin m Hm Hlt.
  destruct (pushes_bounds ts Hr m Hm) as (H1 & H2 & H3).
  assert (Hmax : observed_max (curr m) ts = M).
  { clear - Hd Hin Hlt. revert Hin. induction Hd as [|a ts Ha Hts IH]; intros Hin.
    - destruct Hin.
    - rewrite observed_max_cons. destruct Hin as [-> | Hin].
      + assert (observed_max (curr m) ts <= M); [|lia].
        clear - Hts Hlt. induction Hts as [|b l Hb Hl IHl].
        * unfold observed_max; simpl; lia.
        * rewrite observed_max_cons. lia.
      + specialize (IH Hin). lia. }
  rewrite Hmax in H3.
  destruct H2 as [H2 | H2]; [lia|].
  rewrite Forall_forall in Hd. destruct (Hd _ H2); lia.
Qed.
End TimeSynchronizerFacts.

Section TimeSynchronizerClaims.
Import model dao gorm gorm.TimeSynchronizer notions examples.

(** C8, as stated, fails near the top of int64: on the watermark
    [MaxInt64 - 3] the sum [last+10] wraps around, and [Async 5] stores 5
    although 5 does not exceed the watermark by more than 10. *)
Lemma Async_hysteresis_wraps :
  let m := {| nodeIdKey := key1; curr := int64.max - 3 |} in
  int64.min <= curr m <= int64.max
  /\ ~ 5 > curr m + 10
  /\ curr (Async 5 m) = 5
  /\ curr (Async 5 m) <> curr m.
Proof.
  intros m. split; [vm_compute; split; discriminate|].
  split; [vm_compute; discriminate|].
  split; [reflexivity | vm_compute; discriminate].
Qed.

(** C8, amended.  A single call [Async t'] on a watermark [w] of at most
    [MaxInt64 - 10] leaves the watermark at [t'] when [t' > w + 10], and at
    exactly [w] otherwise.  On a larger watermark [w + 10] wraps around to
    [w + 10 - 2^64], and the watermark becomes [t'] exactly when [t']
    exceeds that.  Nothing else of the synchronizer changes. *)
Theorem Async_hysteresis (m : t) (t' : Z) :
  int64.min <= curr m <= int64.max ->
  (curr m <= int64.max - 10 ->
     (t' > curr m + 10 -> curr (Async t' m) = t')
     /\ (~ t' > curr m + 10 -> curr (Async t' m) = curr m))
  /\ (int64.max - 10 < curr m ->
     (t' > curr m + 10 - 2 ^ 64 -> curr (Async t' m) = t')
     /\ (~ t' > curr m + 10 - 2 ^ 64 -> curr (Async t' m) = curr m))
  /\ nodeIdKey (Async t' m) = nodeIdKey m.
Proof.
  intros [Hlo Hhi]. split; [|split; [|apply Async_key]].
  - intros Hw.
    destruct (Async_cases t' m Hw Hlo) as [[Hgt Hc] | [Hle Hc]].
    + split; [auto | lia].
    + rewrite Hc. split; intros; lia.
  - intros Hw.
    assert (Hadd : int64.add (curr m) 10 = curr m + 10 - 2 ^ 64).
    { unfold int64.add, int64.wrap, int64.max in *.
      change (2 ^ 63) with 9223372036854775808 in *.
      change (2 ^ 64) with 18446744073709551616.
      Z.div_mod_to_equations. lia. }
    unfold Async. rewrite Hadd.
    destruct (Z.gtb_spec t' (curr m + 10 - 2 ^ 64)); cbn [curr];
      split; intros; lia.
Qed.

Lemma Async_hysteresis_witness :
  let m := {| nodeIdKey := key1; curr := 1000 |} in
  (int64.min <= curr m <= int64.max)
  /\ curr (Async 1011 m) = 1011 /\ curr (Async 1010 m) = 1000.
Proof.
  intros m.
  assert (Hr : int64.min <= curr m <= int64.max)
    by (vm_compute; split; discriminate).
  assert (Hw : curr m <= int64.max - 10) by (vm_compute; discriminate).
  split; [exact Hr|].
  split.
  - apply (proj1 (proj1 (Async_hysteresis m 1011 Hr) Hw)). simpl. lia.
  - apply (proj2 (proj1 (Async_hysteresis m 1010 Hr) Hw)). simpl. lia.
Defined.

(** C5, as stated, fails: after pushing 100 and then 105 the watermark is
    100, not the largest value pushed. *)
Lemma pushes_not_maximum :
  curr (pushes [100; 105] (NewTimeSynchronizer key1)) = 100
  /\ observed_max 0 [100; 105] = 105
  /\ curr (pushes [100; 105] (NewTimeSynchronizer key1))
     <> observed_max 0 [100; 105].
Proof. repeat split; try reflexivity. discriminate. Qed.

(** C5, amended.  Starting from the initial watermark 0, after any finite
    sequence of pushes the watermark is 0 or one of the pushed values.  When
    every pushed value is an int64 of at most [MaxInt64 - 10] (as every
    timestamp in milliseconds is), the watermark is never above the largest
    value observed and never more than 10 below it; it is that largest
    value whenever it exceeds 10 and every other pushed value by more than
    10, as for 100, 50, 300, 200 pushed in any order; and one more push is
    dropped when it exceeds the watermark by at most 10, and stored when it
    exceeds it by more.  Above that range [last+10] wraps around: after
    [MaxInt64] and then 5 the watermark is 5. *)
Theorem pushes_within_threshold_of_max (k : string) (ts : list Z) :
  let w := curr (pushes ts (NewTimeSynchronizer k)) in
  (w = 0 \/ In w ts)
  /\ (Forall (fun a => int64.min <= a <= int64.max - 10) ts ->
      observed_max 0 ts - 10 <= w <= observed_max 0 ts
      /\ (forall M, In M ts -> 10 < M ->
            Forall (fun a => a = M \/ a + 10 < M) ts -> w = M)
      /\ (forall t', t' <= w + 10 ->
            pushes (ts ++ [t']) (NewTimeSynchronizer k)
            = pushes ts (NewTimeSynchronizer k))
      /\ (forall t', w + 10 < t' ->
            curr (pushes (ts ++ [t']) (NewTimeSynchronizer k)) = t'))
  /\ (forall order, Permutation.Permutation order [100; 50; 300; 200] ->
        curr (pushes order (NewTimeSynchronizer k)) = 300)
  /\ curr (pushes [int64.max; 5] (NewTimeSynchronizer k)) = 5.
Proof.
  intros w.
  assert (H0 : int64.min <= curr (NewTimeSynchronizer k) <= int64.max - 10)
    by (vm_compute; split; discriminate).
  split; [|split; [|split; [|reflexivity]]].
  - exact (pushes_stored ts (NewTimeSynchronizer k)).
  - intros Hr.
    destruct (pushes_bounds ts Hr _ H0) as (H1 & H2 & H3).
    assert (Hw : int64.min <= w <= int64.max - 10).
    { destruct H2 as [H2 | H2]; [fold w in H2; rewrite H2; exact H0|].
      rewrite Forall_forall in Hr. exact (Hr _ H2). }
    split; [exact H3|]. split; [|split].
    + intros M Hin HM Hd.
      apply (pushes_dominant M ts Hr Hd Hin _ H0). simpl. lia.
    + intros t' Ht. unfold pushes. rewrite fold_left_app. cbn [fold_left].
      fold (pushes ts (NewTimeSynchronizer k)).
      destruct (Async_cases t' (pushes ts (NewTimeSynchronizer k)))
        as [[Hgt _] | [_ Hc]]; [apply Hw | apply Hw | |exact Hc].
      fold w in Hgt. lia.
    + intros t' Ht. unfold pushes. rewrite fold_left_app. cbn [fold_left].
      fold (pushes ts (NewTimeSynchronizer k)).
      destruct (Async_cases t' (pushes ts (NewTimeSynchronizer k)))
        as [[_ Hc] | [Hle _]]; [apply Hw | apply Hw | exact Hc|].
      fold w in Hle. lia.
  - intros order Hp.
    apply (pushes_dominant 300 order).
    + apply (Permutation.Permutation_Forall (Permutation.Permutation_sym Hp)).
      repeat constructor; vm_compute; discriminate.
    + apply (Permutation.Permutation_Forall (Permutation.Permutation_sym Hp)).
      repeat constructor; lia.
    + apply (Permutation.Permutation_in _ (Permutation.Permutation_sym Hp)).
      simpl; auto.
    + exact H0.
    + simpl. lia.
Qed.

Lemma pushes_within_threshold_of_max_witness :
  Forall (fun a => int64.min <= a <= int64.max - 10) [200; 300; 50; 100]
  /\ curr (pushes [200; 300; 50; 100] (NewTimeSynchronizer key1)) = 300
  /\ pushes ([200; 300; 50; 100] ++ [310]) (NewTimeSynchronizer key1)
     = pushes [200; 300; 50; 100] (NewTimeSynchronizer key1).
Proof.
  assert (Hr : Forall (fun a => int64.min <= a <= int64.max - 10)
                      [200; 300; 50; 100])
    by (repeat constructor; vm_compute; discriminate).
  split; [exact Hr|].
  destruct (proj1 (proj2 (pushes_within_threshold_of_max key1 _)) Hr)
    as (_ & Hmax & Hdrop & _).
  split.
  - apply Hmax.
    + simpl; auto.
    + lia.
    + repeat constructor; lia.
  - apply Hdrop. vm_compute. discriminate.
Defined.
End TimeSynchronizerClaims.

Section FlushFacts.
Import model dao gorm gorm.TimeSynchronizer examples notions.

(** The three ways in which [updateDB] ends. *)
Lemma updateDB_cases (m : t) (now : time.Time) (db : DB) :
  (curr m = 0 /\ updateDB m now db = (db, []))
  \/ (curr m <> 0 /\ exists e, updateDB m now db = (db, [LogUpdateFailed e]))
  \/ (curr m <> 0 /\
      exists v, model.Time v = curr m /\
      updateDB m now db =
        ({| rows := map (fun r => if String.eqb (Key r) (nodeIdKey m)
                                  then flushed m now r else r) (rows db);
            reachable := reachable db;
            journal := journal db ++ [UPDATE [] v] |}, [])).
Proof.
  unfold updateDB. destruct (Z.eqb_spec (curr m) 0) as [Hz | Hnz]; [left; auto|].
  right. unfold Updates. destruct (reachable db) eqn:Hre.
  - unfold pk_conds; cbn [Key app].
    destruct (String.eqb (nodeIdKey m) EmptyString); cbn [app].
    + left. split; [exact Hnz|]. eexists. reflexivity.
    + right. split; [exact Hnz|]. eexists. split; [|f_equal; f_equal].
      * reflexivity.
      * apply map_ext. intros r. unfold matches; cbn [forallb holds].
        rewrite andb_true_r. destruct (String.eqb (Key r) (nodeIdKey m)); [|reflexivity].
        unfold assign, flushed; cbn.
        destruct (Z.eqb_spec (curr m) 0); [contradiction | reflexivity].
  - left. split; [exact Hnz|]. eexists. reflexivity.
Qed.

Lemma updateDB_row (m : t) (now : time.Time) (db : DB) (i : nat) (r : SnowflakeKv) :
  nth_error (rows db) i = Some r ->
  nth_error (rows (fst (updateDB m now db))) i = Some r
  \/ (Key r = nodeIdKey m /\ curr m <> 0
      /\ nth_error (rows (fst (updateDB m now db))) i = Some (flushed m now r)).
Proof.
  intros Hi.
  destruct (updateDB_cases m now db) as [[_ ->] | [[_ [e ->]] | [Hnz [v [_ ->]]]]];
    cbn [fst rows]; auto.
  rewrite nth_error_map, Hi; cbn [option_map].
  destruct (String.eqb_spec (Key r) (nodeIdKey m)); auto.
Qed.

(** What a flush leaves: the store as it was when the watermark is zero,
    the store cannot be reached or the key is empty (gorm refuses an update
    without a condition); otherwise every row under the key carries the
    watermark and the time of the flush, and one update was executed. *)
Lemma updateDB_store (m : t) (now : time.Time) (db : DB) :
  fst (updateDB m now db)
  = if (curr m =? 0) || negb (reachable db)
       || String.eqb (nodeIdKey m) EmptyString
    then db
    else {| rows := map (fun r => if String.eqb (Key r) (nodeIdKey m)
                                  then flushed m now r else r) (rows db);
            reachable := reachable db;
            journal := journal db
                       ++ [UPDATE [] {| Key := nodeIdKey m; NodeID := 0;
                                        model.Time := curr m;
                                        Created := None;
                                        Updated := now |}] |}.
Proof.
  unfold updateDB. destruct (Z.eqb_spec (curr m) 0) as [Hz|Hnz]; [reflexivity|].
  unfold Updates, pk_conds. cbn [Key app orb].
  destruct (reachable db) eqn:Hre; cbn [negb orb]; [|reflexivity].
  destruct (String.eqb (nodeIdKey m) EmptyString); cbn [app fst];
    [reflexivity|].
  f_equal. apply map_ext. intros r.
  unfold matches; cbn [forallb holds]. rewrite andb_true_r.
  destruct (String.eqb (Key r) (nodeIdKey m)); [|reflexivity].
  unfold assign, flushed; cbn.
  destruct (Z.eqb_spec (curr m) 0); [contradiction | reflexivity].
Qed.

(** A run of the background task rewrites rows under the key of the
    synchronizer, keeping their key, node id and creation time, and
    nothing else; it executes updates under that key only, each with a
    non-zero watermark. *)
Lemma Run_store (sched : list Signal) :
  forall (m : t) (db : DB),
  exists (g : SnowflakeKv -> SnowflakeKv) (stmts : list Stmt),
    rows (snd (fst (Run sched m db)))
    = map (fun r => if String.eqb (Key r) (nodeIdKey m) then g r else r)
          (rows db)
    /\ (forall r, Key (g r) = Key r /\ NodeID (g r) = NodeID r
                  /\ Created (g r) = Created r)
    /\ reachable (snd (fst (Run sched m db))) = reachable db
    /\ journal (snd (fst (Run sched m db))) = journal db ++ stmts
    /\ Forall (fun s => exists v, s = UPDATE [] v /\ Key v = nodeIdKey m
                                  /\ model.Time v <> 0) stmts.
Proof.
  assert (Hid : forall (k : string) (l : list SnowflakeKv),
             l = map (fun r => if String.eqb (Key r) k then r else r) l).
  { intros k l. rewrite <- (map_id l) at 1. apply map_ext.
    intros r. destruct (String.eqb (Key r) k); reflexivity. }
  induction sched as [|sg sched IH]; intros m db.
  - exists (fun r => r), []. cbn [Run fst snd]. rewrite app_nil_r.
    repeat split; auto.
  - destruct sg as [now | t' |]; cbn [Run].
    + pose proof (updateDB_store m now db) as Hst.
      destruct (updateDB m now db) as [db1 ev1]. cbn [fst] in Hst.
      destruct (IH m db1) as (g & stmts & Hrows & Hg & Hre & Hj & Hall).
      destruct (Run sched m db1) as [[m2 db2] ev2]. cbn [fst snd] in *.
      destruct ((curr m =? 0) || negb (reachable db)
                || String.eqb (nodeIdKey m) EmptyString) eqn:Hskip.
      * subst db1. exists g, stmts. auto.
      * apply orb_false_iff in Hskip. destruct Hskip as [Hskip _].
        apply orb_false_iff in Hskip. destruct Hskip as [Hnz _].
        apply Z.eqb_neq in Hnz. subst db1. cbn [rows reachable journal] in *.
        exists (fun r => g (flushed m now r)),
               (UPDATE [] {| Key := nodeIdKey m; NodeID := 0;
                             model.Time := curr m; Created := None;
                             Updated := now |} :: stmts).
        split; [|split; [|split; [|split]]].
        -- rewrite Hrows, map_map. apply map_ext. intros r.
           destruct (String.eqb (Key r) (nodeIdKey m)) eqn:Hk.
           ++ cbn [flushed Key]. rewrite Hk. reflexivity.
           ++ rewrite Hk. reflexivity.
        -- intros r. destruct (Hg (flushed m now r)) as (H1 & H2 & H3).
           rewrite H1, H2, H3. cbn. auto.
        -- exact Hre.
        -- rewrite Hj, <- app_assoc. reflexivity.
        -- constructor; [|exact Hall]. eexists. split; [reflexivity|].
           cbn. auto.
    + destruct (IH (Async t' m) db) as (g & stmts & Hrows & Hg & Hre & Hj & Hall).
      rewrite Async_key in Hrows, Hall. exists g, stmts. auto.
    + exists (fun r => r), []. cbn [fst snd]. rewrite app_nil_r.
      repeat split; auto.
Qed.

Lemma Async_quiet (t' : Z) (m : t) : curr m = 0 -> t' <= 10 -> Async t' m = m.
Proof.
  intros Hz Hle. unfold Async. rewrite Hz.
  change (int64.add 0 10) with 10.
  destruct (Z.gtb_spec t' 10); [lia | reflexivity].
Qed.
End FlushFacts.

Section FlushClaims.
Import model dao gorm gorm.TimeSynchronizer examples notions.

(** C2. What a flush writes.  A flush is skipped when the watermark is
    zero, and fails when the store cannot be reached or the key is empty;
    the store is then as it was.  Otherwise the store after it is the store
    before it in which every row under the synchronizer's own [nodeIdKey]
    carries the current watermark and the time of the flush, all other
    rows being the same rows in the same places, and one update for that key
    was executed: no row is added, removed or moved.  Over any run of the
    background task the table is the table of the start in which only rows
    under that key are rewritten (keeping key, node id and creation time),
    and the statements executed are updates for that key with a non-zero
    watermark. *)
Theorem flush_writes_only_own_key
    (m : t) (sched : list Signal) (db : DB) :
  (forall now,
      fst (updateDB m now db)
      = if (curr m =? 0) || negb (reachable db)
           || String.eqb (nodeIdKey m) EmptyString
        then db
        else {| rows := map (fun r => if String.eqb (Key r) (nodeIdKey m)
                                      then flushed m now r else r) (rows db);
                reachable := reachable db;
                journal := journal db
                           ++ [UPDATE [] {| Key := nodeIdKey m; NodeID := 0;
                                            model.Time := curr m;
                                            Created := None;
                                            Updated := now |}] |})
  /\ (exists (g : SnowflakeKv -> SnowflakeKv) (stmts : list Stmt),
        rows (snd (fst (Run sched m db)))
        = map (fun r => if String.eqb (Key r) (nodeIdKey m) then g r else r)
              (rows db)
        /\ (forall r, Key (g r) = Key r /\ NodeID (g r) = NodeID r
                      /\ Created (g r) = Created r)
        /\ journal (snd (fst (Run sched m db))) = journal db ++ stmts
        /\ Forall (fun s => exists v, s = UPDATE [] v /\ Key v = nodeIdKey m
                                      /\ model.Time v <> 0) stmts)
  /\ (forall i r, nth_error (rows db) i = Some r -> Key r <> nodeIdKey m ->
        nth_error (rows (snd (fst (Run sched m db)))) i = Some r)
  /\ List.length (rows (snd (fst (Run sched m db)))) = List.length (rows db).
Proof.
  split; [intros now; apply updateDB_store|].
  destruct (Run_store sched m db) as (g & stmts & Hrows & Hg & _ & Hj & Hall).
  split; [exists g, stmts; auto|]. split.
  - intros i r Hi Hk. rewrite Hrows, nth_error_map, Hi. cbn [option_map].
    destruct (String.eqb_spec (Key r) (nodeIdKey m)); [contradiction|reflexivity].
  - rewrite Hrows. apply length_map.
Qed.

Lemma flush_writes_only_own_key_witness :
  let m := {| nodeIdKey := key1; curr := 1700000000123 |} in
  let db := store [row key1 5 1700000000000; row key2 9 1700000000050] in
  rows (fst (updateDB m 7 db))
  = [{| Key := key1; NodeID := 5; model.Time := 1700000000123;
        Created := Some 0; Updated := 7 |};
     row key2 9 1700000000050]
  /\ nth_error (rows (snd (fst (Run [Tick 7; Push 1700000000999; Tick 8] m db)))) 1
     = Some (row key2 9 1700000000050).
Proof.
  intros m db. split.
  - rewrite (proj1 (flush_writes_only_own_key m [] db) 7). reflexivity.
  - apply (proj1 (proj2 (proj2 (flush_writes_only_own_key m _ db))) 1%nat).
    + reflexivity.
    + vm_compute. discriminate.
Defined.

(** C9. While the watermark is zero a flush does nothing: [updateDB] returns
    at once, the store (rows and executed statements) is the same and nothing
    is logged; so a run of the background task in which no push raises the
    watermark leaves the store as it was.  Whatever a flush does write is a
    non-zero watermark: a row with a zero watermark after a flush was
    already there before it. *)
Theorem zero_watermark_is_never_flushed
    (m : t) (now : time.Time) (db : DB) (sched : list Signal) :
  (curr m = 0 -> updateDB m now db = (db, []))
  /\ (curr m = 0 -> Forall quiet sched -> snd (fst (Run sched m db)) = db)
  /\ (forall conds v, In (UPDATE conds v) (journal (fst (updateDB m now db))) ->
        In (UPDATE conds v) (journal db)
        \/ (model.Time v = curr m /\ model.Time v <> 0))
  /\ (forall i r', nth_error (rows (fst (updateDB m now db))) i = Some r' ->
        model.Time r' = 0 -> nth_error (rows db) i = Some r').
Proof.
  split; [|split; [|split]].
  - intros Hz. unfold updateDB. rewrite Hz. reflexivity.
  - intros Hz Hq. revert m db Hz. clear now.
    induction Hq as [|s sched Hs Hq IH]; intros m db Hz; [reflexivity|].
    destruct s as [now | t' |]; cbn [Run].
    + unfold updateDB. rewrite Hz. cbn.
      specialize (IH m db Hz). destruct (Run sched m db) as [[m' db''] ev'].
      exact IH.
    + rewrite (Async_quiet t' m Hz Hs). apply IH. exact Hz.
    + reflexivity.
  - intros conds v Hin.
    destruct (updateDB_cases m now db)
      as [[_ Hu] | [[_ [e Hu]] | [Hnz [v' [Hv Hu]]]]];
      rewrite Hu in Hin; cbn [fst journal] in Hin; auto.
    apply in_app_or in Hin. destruct Hin as [Hin | [Hin | []]]; auto.
    injection Hin as _ <-. right. rewrite Hv. auto.
  - intros i r' Hi Hzero.
    destruct (nth_error (rows db) i) as [r|] eqn:Hr.
    + destruct (updateDB_row m now db i r Hr) as [H | (_ & Hnz & H)];
        rewrite H in Hi; injection Hi as <-; [reflexivity|].
      cbn in Hzero. contradiction.
    + exfalso. apply nth_error_None in Hr.
      assert (Hlen : List.length (rows (fst (updateDB m now db)))
                     = List.length (rows db)).
      { destruct (updateDB_cases m now db)
          as [[_ ->] | [[_ [e ->]] | [_ [v' [_ ->]]]]]; cbn [fst rows]; auto.
        apply length_map. }
      assert (nth_error (rows (fst (updateDB m now db))) i = None)
        by (apply nth_error_None; lia).
      congruence.
Qed.

Lemma zero_watermark_is_never_flushed_witness :
  let m := NewTimeSynchronizer key1 in
  let db := store [row key1 5 1700000000000] in
  curr m = 0 /\ Forall quiet [Tick 7; Push 0; Tick 8; Cancel]
  /\ updateDB m 7 db = (db, [])
  /\ snd (fst (Run [Tick 7; Push 0; Tick 8; Cancel] m db)) = db.
Proof.
  intros m db.
  assert (Hz : curr m = 0) by reflexivity.
  assert (Hq : Forall quiet [Tick 7; Push 0; Tick 8; Cancel])
    by (repeat constructor; simpl; lia).
  split; [exact Hz|]. split; [exact Hq|]. split.
  - apply (proj1 (zero_watermark_is_never_flushed m 7 db []) Hz).
  - apply (proj1 (proj2 (zero_watermark_is_never_flushed m 7 db _)) Hz Hq).
Defined.
End FlushClaims.

(** ** The allocator *)

Section AllocFacts.
Import model dao gorm gorm.NodeIdAllocator.
Context {A : Type} `{snowflake.NodeIdAllocator A}.

Lemma First_Ok (conds : list Cond) (db : DB) (r : SnowflakeKv) :
  First conds db = Ok r ->
  reachable db = true /\ In r (rows db) /\ matches conds r = true.
Proof.
  unfold First. destruct (reachable db); [|discriminate].
  destruct (find (matches conds) (rows db)) as [r0|] eqn:Hf; [|discriminate].
  intros [= <-]. apply find_some in Hf. tauto.
Qed.

(** The lookup of [Alloc] filters on the key and on the candidate, so the
    record it returns carries both. *)
Lemma First_key_node (k : string) (n : Z) (db : DB) (r : SnowflakeKv) :
  First [Key_Eq k; NodeID_Eq n] db = Ok r -> Key r = k /\ NodeID r = n.
Proof.
  intros Hf. apply First_Ok in Hf. destruct Hf as (_ & _ & Hm).
  unfold matches in Hm; cbn [forallb holds] in Hm.
  apply andb_prop in Hm. destruct Hm as [Hk Hn].
  apply andb_prop in Hn. destruct Hn as [Hn _].
  split; [apply String.eqb_eq; exact Hk | apply Z.eqb_eq; exact Hn].
Qed.

Lemma contend_found (m : t A) (nowMilli nodeId : Z) (db : DB) (saved : SnowflakeKv) :
  First [Key_Eq (nodeIdKey m); NodeID_Eq nodeId] db = Ok saved ->
  contend m nowMilli nodeId saved = saved.
Proof.
  intros Hf. apply First_key_node in Hf. destruct Hf as [_ Hn].
  unfold contend. destruct (_ >? _); [|reflexivity].
  destruct saved; cbn in *. subst. reflexivity.
Qed.

(** One iteration of the loop, by the branch it takes. *)
Lemma loop_wait (fuel : nat) (m : t A) (now : time.Time) (nodeId : Z) (db : DB)
    (saved : SnowflakeKv) :
  First [Key_Eq (nodeIdKey m); NodeID_Eq nodeId] db = Ok saved ->
  model.Time saved > time.UnixMilli now ->
  int64.sub (time.UnixMilli now) (time.Microseconds (acceptableClockDrift m))
    <= model.Time saved ->
  loop (S fuel) m now nodeId db
  = Some (Ok nodeId, db, [Sleep (acceptableClockDrift m)]).
Proof.
  intros Hf Hgt Hle. cbn [loop]. rewrite Hf.
  destruct (Z.gtb_spec (model.Time saved) (time.UnixMilli now)); [|lia].
  destruct (Z.leb_spec
              (int64.sub (time.UnixMilli now)
                         (time.Microseconds (acceptableClockDrift m)))
              (model.Time saved)); [|lia].
  apply First_key_node in Hf. destruct Hf as [_ ->]. reflexivity.
Qed.

Lemma loop_migrate (fuel : nat) (m : t A) (now : time.Time) (nodeId : Z) (db : DB)
    (saved : SnowflakeKv) :
  First [Key_Eq (nodeIdKey m); NodeID_Eq nodeId] db = Ok saved ->
  model.Time saved > time.UnixMilli now ->
  model.Time saved
    < int64.sub (time.UnixMilli now) (time.Microseconds (acceptableClockDrift m)) ->
  loop (S fuel) m now nodeId db
  = emit (LogRollback now (model.Time saved))
      match snowflake.Migration (allocator m) nodeId with
      | Err err => Some (Err err, db, [])
      | Ok nodeId' => loop fuel m now nodeId' db
      end.
Proof.
  intros Hf Hgt Hlt. cbn [loop]. rewrite Hf.
  destruct (Z.gtb_spec (model.Time saved) (time.UnixMilli now)); [|lia].
  destruct (Z.leb_spec
              (int64.sub (time.UnixMilli now)
                         (time.Microseconds (acceptableClockDrift m)))
              (model.Time saved)); [lia|].
  reflexivity.
Qed.

Lemma loop_update (fuel : nat) (m : t A) (now : time.Time) (nodeId : Z) (db : DB)
    (saved : SnowflakeKv) :
  First [Key_Eq (nodeIdKey m); NodeID_Eq nodeId] db = Ok saved ->
  model.Time saved <= time.UnixMilli now ->
  loop (S fuel) m now nodeId db
  = match Updates [Key_Eq (nodeIdKey m); NodeID_Eq nodeId] (renew now saved) db with
    | Err err => Some (Err err, db, [])
    | Ok db' => Some (Ok nodeId, db', [])
    end.
Proof.
  intros Hf Hle. cbn [loop]. rewrite Hf.
  destruct (Z.gtb_spec (model.Time saved) (time.UnixMilli now)); [lia|].
  rewrite (contend_found m _ nodeId db saved Hf).
  apply First_key_node in Hf. destruct Hf as [_ Hn].
  cbn [renew NodeID]. rewrite Hn. reflexivity.
Qed.

(** With a drift that is not negative and a time that is not before the
    epoch, the test [nowMilli - drift.Microseconds() <= saved.Time] holds
    for every watermark that is ahead of [nowMilli]. *)
Lemma drift_test_ahead (drift : time.Duration) (nowMilli saved : Z) :
  0 <= drift <= int64.max -> 0 <= nowMilli <= int64.max ->
  saved > nowMilli ->
  int64.sub nowMilli (time.Microseconds drift) <= saved.
Proof.
  intros Hd Hn Hs. unfold int64.sub, time.Microseconds.
  assert (0 <= Z.quot drift 1000 <= drift).
  { rewrite Z.quot_div_nonneg by lia.
    split; [apply Z.div_pos; lia|].
    apply Z.div_le_upper_bound; lia. }
  rewrite int64_wrap_small; [lia|].
  unfold int64.InRange, int64.min, int64.max in *. lia.
Qed.

(** The rows of an update of [Alloc] keep their keys and node ids. *)
Lemma Updates_found_keeps_ids (k : string) (nodeId : Z) (v : SnowflakeKv)
    (db db' : DB) :
  NodeID v = nodeId ->
  Updates [Key_Eq k; NodeID_Eq nodeId] v db = Ok db' ->
  map Key (rows db') = map Key (rows db)
  /\ map NodeID (rows db') = map NodeID (rows db)
  /\ journal db' = journal db ++ [UPDATE [Key_Eq k; NodeID_Eq nodeId] v].
Proof.
  intros Hv. unfold Updates. destruct (reachable db); [|discriminate].
  cbn [app]. intros [= <-]. cbn [rows journal].
  rewrite !map_map. repeat split; apply map_ext; intros r;
    match goal with |- context [if ?c then _ else _] => destruct c eqn:Hm end;
    try reflexivity.
  cbn [matches forallb holds app] in Hm.
  apply andb_prop in Hm. destruct Hm as [_ Hm].
  apply andb_prop in Hm. destruct Hm as [Hm _]. apply Z.eqb_eq in Hm.
  unfold assign; cbn [NodeID]. destruct (NodeID v =? 0); congruence.
Qed.
End AllocFacts.

Section AllocLoop.
Import model dao gorm gorm.NodeIdAllocator.
Context {A : Type} `{snowflake.NodeIdAllocator A}.

Lemma migrations_cons_rollback (now : time.Time) (saved : Z) (ev : list Event) :
  migrations (LogRollback now saved :: ev) = S (migrations ev).
Proof. reflexivity. Qed.

(** What a successful run of the loop returns and writes. *)
Lemma loop_returns_candidate (m : t A) (now : time.Time) (db : DB) (fuel : nat) :
  forall nodeId ret db' ev,
    loop fuel m now nodeId db = Some (Ok ret, db', ev) ->
    migrate m (migrations ev) nodeId = Ok ret
    /\ (forall saved,
          First [Key_Eq (nodeIdKey m); NodeID_Eq ret] db = Ok saved ->
          map Key (rows db') = map Key (rows db)
          /\ map NodeID (rows db') = map NodeID (rows db)
          /\ (db' = db
              \/ exists v, NodeID v = ret /\
                   journal db' = journal db
                                 ++ [UPDATE [Key_Eq (nodeIdKey m); NodeID_Eq ret] v])).
Proof.
  induction fuel as [|fuel IH]; intros nodeId ret db' ev Hrun; [discriminate|].
  destruct (First [Key_Eq (nodeIdKey m); NodeID_Eq nodeId] db) as [saved|e] eqn:Hf.
  - destruct (Z.le_gt_cases (model.Time saved) (time.UnixMilli now)) as [Hle|Hgt].
    + rewrite (loop_update fuel m now nodeId db saved Hf Hle) in Hrun.
      destruct (Updates _ _ db) as [db1|e] eqn:Hu; [|discriminate].
      injection Hrun as E1 E2 E3; subst ret db' ev.
      split; [reflexivity|]. intros saved0 _.
      apply First_key_node in Hf. destruct Hf as [_ Hn].
      assert (Hv : NodeID (renew now saved) = nodeId) by exact Hn.
      destruct (Updates_found_keeps_ids _ _ _ _ _ Hv Hu) as (Hk & Hi & Hj).
      repeat split; auto. right. eexists. split; [|exact Hj]. exact Hv.
    + apply Z.lt_gt in Hgt.
      destruct (Z.le_gt_cases
                  (int64.sub (time.UnixMilli now)
                             (time.Microseconds (acceptableClockDrift m)))
                  (model.Time saved)) as [Hin|Hout].
      * rewrite (loop_wait fuel m now nodeId db saved Hf Hgt Hin) in Hrun.
        injection Hrun as E1 E2 E3; subst ret db' ev. split; [reflexivity|]. auto.
      * rewrite (loop_migrate fuel m now nodeId db saved Hf Hgt Hout) in Hrun.
        destruct (snowflake.Migration (allocator m) nodeId) as [nodeId'|e] eqn:Hm;
          [|discriminate].
        destruct (loop fuel m now nodeId' db) as [[[x d] ev0]|] eqn:Hl;
          [|discriminate].
        cbn [emit] in Hrun. injection Hrun as E1 E2 E3; subst x d ev.
        rewrite migrations_cons_rollback. cbn [migrate]. rewrite Hm.
        apply IH. exact Hl.
  - cbn [loop] in Hrun. rewrite Hf in Hrun.
    destruct (is_ErrRecordNotFound e); [|discriminate].
    destruct (Create _ db) as [db1|e1]; [|discriminate].
    cbn [NodeID] in Hrun. injection Hrun as E1 E2 E3; subst ret db' ev.
    split; [reflexivity|]. intros saved Hf'. congruence.
Qed.
End AllocLoop.

Section AllocClaims.
Import model dao gorm gorm.NodeIdAllocator examples.

(** C1, at a failing input.  An allocator built by [NewNodeIdAllocator]
    with an acceptable drift of 100 ms finds the record of its candidate with
    a watermark 24 hours ahead of now.  The gap exceeds the acceptable
    drift, yet [Alloc] sleeps and returns the same node id: it performs no
    migration and leaves the store as it is. *)
Theorem Alloc_waits_beyond_acceptable_drift (Sum64 : list Z -> Z) (fuel : nat) :
  let m := NewNodeIdAllocator key1 (100 * time.Millisecond) (5 * time.Second) in
  let c := uint64.wrap (Sum64 (nodeid.HashNodeIdAllocator.bytes_of_string key1))
           mod 1024 in
  let db := store [row key1 c (time.UnixMilli noon + 86400000)] in
  time.UnixMilli noon + 86400000 - time.UnixMilli noon
    > time.Milliseconds (acceptableClockDrift m)
  /\ @Alloc _ (nodeid.HashNodeIdAllocator.strategy Sum64) (S fuel) m noon db
     = Some (Ok c, db, [Sleep (100 * time.Millisecond)])
  /\ migrations [Sleep (100 * time.Millisecond)] = 0%nat.
Proof.
  intros m c db. split; [vm_compute; reflexivity|]. split; [|reflexivity].
  unfold Alloc. cbn [snowflake.Alloc nodeid.HashNodeIdAllocator.strategy].
  unfold nodeid.HashNodeIdAllocator.Alloc.
  cbn [allocator m NewNodeIdAllocator nodeid.HashNodeIdAllocator.nodeIdKey
       nodeid.HashNodeIdAllocator.NewHashNodeIdAllocator].
  fold c.
  assert (Hf : First [Key_Eq (nodeIdKey m); NodeID_Eq c] db
               = Ok (row key1 c (time.UnixMilli noon + 86400000))).
  { unfold First, db, store.
    cbn [reachable rows find matches forallb holds row Key NodeID].
    rewrite Z.eqb_refl. reflexivity. }
  apply (@loop_wait _ (nodeid.HashNodeIdAllocator.strategy Sum64) fuel m noon c db _ Hf).
  - cbn. lia.
  - vm_compute. discriminate.
Qed.
End AllocClaims.

Section AllocWait.
Import model dao gorm gorm.NodeIdAllocator examples.

Lemma Milliseconds_pos (d : time.Duration) : 0 < time.Milliseconds d -> 0 < d.
Proof.
  unfold time.Milliseconds. intros Hq.
  destruct (Z.lt_ge_cases 0 d) as [Hpos|Hneg]; [exact Hpos|exfalso].
  assert (Hopp : 0 <= Z.quot (- d) 1000000) by (apply Z.quot_pos; lia).
  rewrite Z.quot_opp_l in Hopp by lia. lia.
Qed.

(** C6, as stated, fails.  With an acceptable drift of one hour and a stored
    watermark 1 ms ahead of now, [Alloc] sleeps the whole hour, not about
    1 ms; and with a stored watermark equal to now (a drift amount of 0) it
    does not wait at all but updates the record. *)
Lemma Alloc_sleeps_configured_drift :
  let m := pinned_allocator key1 7 time.Hour (5 * time.Second) in
  Alloc 1 m noon (store [row key1 7 (noonMilli + 1)])
  = Some (Ok 7, store [row key1 7 (noonMilli + 1)], [Sleep time.Hour])
  /\ time.Milliseconds time.Hour = 3600000
  /\ exists v,
       Alloc 1 m noon (store [row key1 7 noonMilli])
       = Some (Ok 7,
               {| rows := [{| Key := key1; NodeID := 7; model.Time := noonMilli;
                              Created := Some 0; Updated := noon |}];
                  reachable := true;
                  journal := [UPDATE [Key_Eq key1; NodeID_Eq 7] v] |}, []).
Proof.
  intros m. split; [vm_compute; reflexivity|]. split; [reflexivity|].
  eexists. vm_compute. reflexivity.
Qed.

(** C6, amended.  If the record of the candidate carries the watermark
    [now + driftAmount] with [0 < driftAmount] at most the acceptable drift,
    then [Alloc] sleeps once, for the configured acceptable drift, returns
    the candidate, and leaves the store as it is: no row changes and no
    statement is executed. *)
Theorem Alloc_bounded_wait {A : Type} `{snowflake.NodeIdAllocator A}
    (m : t A) (now : time.Time) (db : DB) (nodeId driftAmount : Z)
    (saved : SnowflakeKv) (fuel : nat) :
  snowflake.Alloc (allocator m) = Ok nodeId ->
  First [Key_Eq (nodeIdKey m); NodeID_Eq nodeId] db = Ok saved ->
  model.Time saved = time.UnixMilli now + driftAmount ->
  0 < driftAmount <= time.Milliseconds (acceptableClockDrift m) ->
  0 <= time.UnixMilli now <= int64.max ->
  acceptableClockDrift m <= int64.max ->
  Alloc (S fuel) m now db = Some (Ok nodeId, db, [Sleep (acceptableClockDrift m)]).
Proof.
  intros Hc Hf Ht Hd Hn Hmax. unfold Alloc. rewrite Hc.
  assert (Hpos : 0 < acceptableClockDrift m) by (apply Milliseconds_pos; lia).
  apply (loop_wait fuel m now nodeId db saved Hf); [lia|].
  apply drift_test_ahead; lia.
Qed.

Lemma Alloc_bounded_wait_witness :
  let m := pinned_allocator key1 7 (500 * time.Millisecond) (5 * time.Second) in
  let db := store [row key1 7 (noonMilli + 200)] in
  Alloc 1 m noon db = Some (Ok 7, db, [Sleep (500 * time.Millisecond)]).
Proof.
  intros m db.
  apply (Alloc_bounded_wait m noon db 7 200 (row key1 7 (noonMilli + 200)) 0).
  - reflexivity.
  - reflexivity.
  - reflexivity.
  - vm_compute. split; [reflexivity | discriminate].
  - vm_compute. split; discriminate.
  - vm_compute. discriminate.
Defined.
End AllocWait.

Section AllocContention.
Import model dao gorm gorm.NodeIdAllocator examples.

(** C10. The record the lookup returns already carries the candidate as its
    node id, so the assignment of the contention branch gives back the same
    record.  Hence a call of [Alloc] that succeeds returns the candidate the
    strategy produced last; and when it did not insert (the record of that
    candidate was in the store), every row keeps its key and node id, and the
    store is either untouched or has received one update that writes that
    same node id. *)
Theorem contention_assignment_changes_nothing {A : Type} `{snowflake.NodeIdAllocator A}
    (m : t A) (now : time.Time) (db : DB) :
  (forall nodeId saved,
      First [Key_Eq (nodeIdKey m); NodeID_Eq nodeId] db = Ok saved ->
      NodeID saved = nodeId
      /\ contend m (time.UnixMilli now) nodeId saved = saved)
  /\ (forall fuel ret db' ev,
        Alloc fuel m now db = Some (Ok ret, db', ev) ->
        candidate m (migrations ev) = Ok ret
        /\ (forall saved,
              First [Key_Eq (nodeIdKey m); NodeID_Eq ret] db = Ok saved ->
              map Key (rows db') = map Key (rows db)
              /\ map NodeID (rows db') = map NodeID (rows db)
              /\ (db' = db
                  \/ exists v, NodeID v = ret /\
                       journal db' = journal db
                         ++ [UPDATE [Key_Eq (nodeIdKey m); NodeID_Eq ret] v]))).
Proof.
  split.
  - intros nodeId saved Hf. split.
    + apply (First_key_node _ _ _ _ Hf).
    + apply (contend_found m _ nodeId db saved Hf).
  - intros fuel ret db' ev Hrun. unfold Alloc in Hrun. unfold candidate.
    destruct (snowflake.Alloc (allocator m)) as [nodeId|e]; [|discriminate].
    apply (loop_returns_candidate m now db fuel nodeId ret db' ev Hrun).
Qed.

Lemma contention_assignment_changes_nothing_witness :
  let m := pinned_allocator key1 7 time.Second (5 * time.Second) in
  let db := store [row key1 7 (noonMilli - 60000)] in
  First [Key_Eq (nodeIdKey m); NodeID_Eq 7] db = Ok (row key1 7 (noonMilli - 60000))
  /\ contend m (time.UnixMilli noon) 7 (row key1 7 (noonMilli - 60000))
     = row key1 7 (noonMilli - 60000)
  /\ exists db', Alloc 1 m noon db = Some (Ok 7, db', [])
                 /\ candidate m (migrations []) = Ok 7.
Proof.
  intros m db.
  assert (Hf : First [Key_Eq (nodeIdKey m); NodeID_Eq 7] db
               = Ok (row key1 7 (noonMilli - 60000))) by reflexivity.
  split; [exact Hf|]. split.
  - apply (proj1 (contention_assignment_changes_nothing m noon db) 7 _ Hf).
  - assert (Hshape : exists db', Alloc 1 m noon db = Some (Ok 7, db', []))
      by (eexists; vm_compute; reflexivity).
    destruct Hshape as [db' Hrun]. exists db'. split; [exact Hrun|].
    apply (proj1 (proj2 (contention_assignment_changes_nothing m noon db)
                        1%nat 7 db' [] Hrun)).
Defined.
End AllocContention.

Section AllocOutcomes.
Import model dao gorm gorm.NodeIdAllocator notions.
Context {A : Type} `{snowflake.NodeIdAllocator A}.

(** How a finished run of the loop has changed the store: not at all, by
    the insertion of the record of a candidate that was not found, or by the
    update of the record of a candidate that was found. *)
Lemma loop_store_change (m : t A) (now : time.Time) (db : DB) (fuel : nat) :
  forall nodeId r db' ev,
    loop fuel m now nodeId db = Some (r, db', ev) ->
    (db' = db
     /\ forall n, r = Ok n ->
          exists saved,
            First [Key_Eq (nodeIdKey m); NodeID_Eq n] db = Ok saved
            /\ model.Time saved > time.UnixMilli now)
    \/ (exists n, r = Ok n
          /\ First [Key_Eq (nodeIdKey m); NodeID_Eq n] db = Err ErrRecordNotFound
          /\ Create (fresh m now n) db = Ok db')
    \/ (exists n saved, r = Ok n
          /\ First [Key_Eq (nodeIdKey m); NodeID_Eq n] db = Ok saved
          /\ model.Time saved <= time.UnixMilli now
          /\ Updates [Key_Eq (nodeIdKey m); NodeID_Eq n] (renew now saved) db
             = Ok db').
Proof.
  induction fuel as [|fuel IH]; intros nodeId r db' ev Hrun; [discriminate|].
  destruct (First [Key_Eq (nodeIdKey m); NodeID_Eq nodeId] db) as [saved|e] eqn:Hf.
  - destruct (Z.le_gt_cases (model.Time saved) (time.UnixMilli now)) as [Hle|Hgt].
    + rewrite (loop_update fuel m now nodeId db saved Hf Hle) in Hrun.
      destruct (Updates _ _ db) as [db1|e] eqn:Hu;
        injection Hrun as E1 E2 E3; subst r db' ev;
        [|left; split; [reflexivity | discriminate]].
      right; right. exists nodeId, saved. auto.
    + apply Z.lt_gt in Hgt.
      destruct (Z.le_gt_cases
                  (int64.sub (time.UnixMilli now)
                             (time.Microseconds (acceptableClockDrift m)))
                  (model.Time saved)) as [Hin|Hout].
      * rewrite (loop_wait fuel m now nodeId db saved Hf Hgt Hin) in Hrun.
        injection Hrun as E1 E2 E3; subst r db' ev. left. split; [reflexivity|].
        intros n [= <-]. exists saved. auto.
      * rewrite (loop_migrate fuel m now nodeId db saved Hf Hgt Hout) in Hrun.
        destruct (snowflake.Migration (allocator m) nodeId) as [nodeId'|e] eqn:Hm.
        -- destruct (loop fuel m now nodeId' db) as [[[x d] ev0]|] eqn:Hl;
             [|discriminate].
           cbn [emit] in Hrun. injection Hrun as E1 E2 E3; subst x d ev.
           apply (IH _ _ _ _ Hl).
        -- cbn [emit] in Hrun. injection Hrun as E1 E2 E3; subst r db' ev.
           left. split; [reflexivity | discriminate].
  - cbn [loop] in Hrun. rewrite Hf in Hrun.
    destruct e; cbn [is_ErrRecordNotFound] in Hrun;
      try (injection Hrun as E1 E2 E3; subst r db' ev; left;
           split; [reflexivity | discriminate]).
    fold (fresh m now nodeId) in Hrun.
    destruct (Create (fresh m now nodeId) db) as [db1|e1] eqn:Hc;
      injection Hrun as E1 E2 E3; subst r db' ev;
      [|left; split; [reflexivity | discriminate]].
    right; left. exists nodeId. auto.
Qed.

(** Where an error of the loop comes from: the strategy or a store call. *)
Lemma loop_error_origin (m : t A) (now : time.Time) (db : DB) (fuel : nat) :
  forall nodeId e db' ev,
    loop fuel m now nodeId db = Some (Err e, db', ev) ->
    (exists n, migrate m n nodeId = Err e)
    \/ (exists conds, First conds db = Err e)
    \/ (exists r, Create r db = Err e)
    \/ (exists conds v, Updates conds v db = Err e).
Proof.
  induction fuel as [|fuel IH]; intros nodeId e db' ev Hrun; [discriminate|].
  destruct (First [Key_Eq (nodeIdKey m); NodeID_Eq nodeId] db) as [saved|e0] eqn:Hf.
  - destruct (Z.le_gt_cases (model.Time saved) (time.UnixMilli now)) as [Hle|Hgt].
    + rewrite (loop_update fuel m now nodeId db saved Hf Hle) in Hrun.
      destruct (Updates _ _ db) as [db1|e1] eqn:Hu; [discriminate|].
      injection Hrun as E1 E2 E3; subst e1. right; right; right. eauto.
    + apply Z.lt_gt in Hgt.
      destruct (Z.le_gt_cases
                  (int64.sub (time.UnixMilli now)
                             (time.Microseconds (acceptableClockDrift m)))
                  (model.Time saved)) as [Hin|Hout].
      * rewrite (loop_wait fuel m now nodeId db saved Hf Hgt Hin) in Hrun.
        discriminate.
      * rewrite (loop_migrate fuel m now nodeId db saved Hf Hgt Hout) in Hrun.
        destruct (snowflake.Migration (allocator m) nodeId) as [nodeId'|e1] eqn:Hm.
        -- destruct (loop fuel m now nodeId' db) as [[[x d] ev0]|] eqn:Hl;
             [|discriminate].
           cbn [emit] in Hrun. injection Hrun as E1 E2 E3; subst x d ev.
           destruct (IH _ _ _ _ Hl) as [[n Hn] | Hstore]; [left | right; exact Hstore].
           exists (S n). cbn [migrate]. rewrite Hm. exact Hn.
        -- cbn [emit] in Hrun. injection Hrun as E1 E2 E3; subst e1.
           left. exists 1%nat. cbn [migrate]. rewrite Hm. reflexivity.
  - cbn [loop] in Hrun. rewrite Hf in Hrun.
    destruct (is_ErrRecordNotFound e0).
    + destruct (Create _ db) as [db1|e1] eqn:Hc; [discriminate|].
      injection Hrun as E1 E2 E3; subst e1. right; right; left. eauto.
    + injection Hrun as E1 E2 E3; subst e0. right; left. eauto.
Qed.

(** A candidate whose record is rejected and which the strategy migrates to
    itself keeps the loop running: no amount of fuel makes it return. *)
Lemma loop_fixed_point_diverges (m : t A) (now : time.Time) (db : DB)
    (nodeId : Z) (saved : SnowflakeKv) :
  First [Key_Eq (nodeIdKey m); NodeID_Eq nodeId] db = Ok saved ->
  model.Time saved > time.UnixMilli now ->
  model.Time saved
    < int64.sub (time.UnixMilli now) (time.Microseconds (acceptableClockDrift m)) ->
  snowflake.Migration (allocator m) nodeId = Ok nodeId ->
  forall fuel, loop fuel m now nodeId db = None.
Proof.
  intros Hf Hgt Hout Hm. induction fuel as [|fuel IH]; [reflexivity|].
  rewrite (loop_migrate fuel m now nodeId db saved Hf Hgt Hout), Hm, IH.
  reflexivity.
Qed.

(** An error of the loop is the error of the strategy that ended the
    migrations, or of the store call made for the last candidate. *)
Lemma loop_error_source (m : t A) (now : time.Time) (db : DB) (fuel : nat) :
  forall nodeId e db' ev,
    loop fuel m now nodeId db = Some (Err e, db', ev) ->
    migrate m (migrations ev) nodeId = Err e
    \/ exists c,
         migrate m (migrations ev) nodeId = Ok c
         /\ ((First [Key_Eq (nodeIdKey m); NodeID_Eq c] db = Err e
              /\ e <> ErrRecordNotFound)
             \/ (First [Key_Eq (nodeIdKey m); NodeID_Eq c] db
                 = Err ErrRecordNotFound
                 /\ Create (fresh m now c) db = Err e)
             \/ (exists saved,
                   First [Key_Eq (nodeIdKey m); NodeID_Eq c] db = Ok saved
                   /\ model.Time saved <= time.UnixMilli now
                   /\ Updates [Key_Eq (nodeIdKey m); NodeID_Eq c]
                              (renew now saved) db = Err e)).
Proof.
  induction fuel as [|fuel IH]; intros nodeId e db' ev Hrun; [discriminate|].
  destruct (First [Key_Eq (nodeIdKey m); NodeID_Eq nodeId] db) as [saved|e0] eqn:Hf.
  - destruct (Z.le_gt_cases (model.Time saved) (time.UnixMilli now)) as [Hle|Hgt].
    + rewrite (loop_update fuel m now nodeId db saved Hf Hle) in Hrun.
      destruct (Updates _ _ db) as [db1|e1] eqn:Hu; [discriminate|].
      injection Hrun as E1 E2 E3; subst e1 db' ev.
      right. exists nodeId. split; [reflexivity|]. right; right.
      exists saved. auto.
    + apply Z.lt_gt in Hgt.
      destruct (Z.le_gt_cases
                  (int64.sub (time.UnixMilli now)
                             (time.Microseconds (acceptableClockDrift m)))
                  (model.Time saved)) as [Hin|Hout].
      * rewrite (loop_wait fuel m now nodeId db saved Hf Hgt Hin) in Hrun.
        discriminate.
      * rewrite (loop_migrate fuel m now nodeId db saved Hf Hgt Hout) in Hrun.
        destruct (snowflake.Migration (allocator m) nodeId) as [nodeId'|e1] eqn:Hm.
        -- destruct (loop fuel m now nodeId' db) as [[[x d] ev0]|] eqn:Hl;
             [|discriminate].
           cbn [emit] in Hrun. injection Hrun as E1 E2 E3; subst x d ev.
           rewrite migrations_cons_rollback. cbn [migrate]. rewrite Hm.
           apply (IH _ _ _ _ Hl).
        -- cbn [emit] in Hrun. injection Hrun as E1 E2 E3; subst e1 db' ev.
           left. rewrite migrations_cons_rollback. cbn [migrate migrations].
           rewrite Hm. reflexivity.
  - cbn [loop] in Hrun. rewrite Hf in Hrun.
    destruct e0; cbn [is_ErrRecordNotFound] in Hrun.
    + fold (fresh m now nodeId) in Hrun.
      destruct (Create (fresh m now nodeId) db) as [db1|e1] eqn:Hc;
        [discriminate|].
      injection Hrun as E1 E2 E3; subst e1 db' ev.
      right. exists nodeId. split; [reflexivity|]. right; left. auto.
    + injection Hrun as E1 E2 E3; subst e db' ev.
      right. exists nodeId. split; [reflexivity|]. left.
      split; [exact Hf | discriminate].
    + injection Hrun as E1 E2 E3; subst e db' ev.
      right. exists nodeId. split; [reflexivity|]. left.
      split; [exact Hf | discriminate].
    + injection Hrun as E1 E2 E3; subst e db' ev.
      right. exists nodeId. split; [reflexivity|]. left.
      split; [exact Hf | discriminate].
    + injection Hrun as E1 E2 E3; subst e db' ev.
      right. exists nodeId. split; [reflexivity|]. left.
      split; [exact Hf | discriminate].
Qed.

(** With a drift that is not negative, one iteration ends the loop, and
    without a migration. *)
Lemma loop_single_iteration (m : t A) (now : time.Time) (db : DB)
    (nodeId : Z) (fuel : nat) :
  0 <= acceptableClockDrift m <= int64.max ->
  0 <= time.UnixMilli now <= int64.max ->
  exists r db' ev,
    loop (S fuel) m now nodeId db = Some (r, db', ev)
    /\ migrations ev = 0%nat.
Proof.
  intros Hd Hn.
  destruct (First [Key_Eq (nodeIdKey m); NodeID_Eq nodeId] db) as [saved|e0] eqn:Hf.
  - destruct (Z.le_gt_cases (model.Time saved) (time.UnixMilli now)) as [Hle|Hgt].
    + rewrite (loop_update fuel m now nodeId db saved Hf Hle).
      destruct (Updates _ _ db) as [db1|e1]; do 3 eexists; split; reflexivity.
    + apply Z.lt_gt in Hgt.
      rewrite (loop_wait fuel m now nodeId db saved Hf Hgt).
      * do 3 eexists; split; reflexivity.
      * apply drift_test_ahead; [exact Hd | exact Hn | exact Hgt].
  - cbn [loop]. rewrite Hf. destruct (is_ErrRecordNotFound e0).
    + destruct (Create _ db) as [db1|e1]; do 3 eexists; split; reflexivity.
    + do 3 eexists; split; reflexivity.
Qed.

(** On a table whose keys are all different, the record of a candidate
    that has been migrated to another node id is not found, and its insert
    is refused by the primary key. *)
Lemma loop_after_migration (m : t A) (now : time.Time) (db : DB)
    (c0 c1 : Z) (saved : SnowflakeKv) (fuel : nat) :
  NoDup (map Key (rows db)) ->
  First [Key_Eq (nodeIdKey m); NodeID_Eq c0] db = Ok saved ->
  c1 <> c0 ->
  loop (S fuel) m now c1 db = Some (Err ErrDuplicatedKey, db, []).
Proof.
  intros Hnd Hf Hne.
  destruct (First_key_node _ _ _ _ Hf) as [Hk Hn].
  apply First_Ok in Hf. destruct Hf as (Hre & Hin & _).
  assert (Hone : forall r, In r (rows db) -> Key r = nodeIdKey m -> r = saved).
  { clear - Hnd Hin Hk. revert Hnd Hin. generalize (rows db) as l.
    induction l as [|x l IH]; intros Hnd Hin r Hr Hkr; [destruct Hin|].
    cbn [map] in Hnd. inversion Hnd as [|y ys Hnin Hnd']; subst.
    destruct Hin as [-> | Hin]; destruct Hr as [-> | Hr]; auto.
    - exfalso. apply Hnin. rewrite Hk, <- Hkr. apply in_map. exact Hr.
    - exfalso. apply Hnin. rewrite Hkr, <- Hk. apply in_map. exact Hin. }
  assert (Hnone : find (matches [Key_Eq (nodeIdKey m); NodeID_Eq c1]) (rows db)
                  = None).
  { destruct (find _ (rows db)) as [r|] eqn:Hfind; [|reflexivity].
    exfalso. apply find_some in Hfind. destruct Hfind as [Hr Hm].
    unfold matches in Hm; cbn [forallb holds] in Hm.
    apply andb_prop in Hm. destruct Hm as [Hkr Hnr].
    apply andb_prop in Hnr. destruct Hnr as [Hnr _].
    apply String.eqb_eq in Hkr. apply Z.eqb_eq in Hnr.
    rewrite (Hone r Hr Hkr) in Hnr. congruence. }
  cbn [loop]. unfold First. rewrite Hre, Hnone. cbn [is_ErrRecordNotFound].
  unfold Create. rewrite Hre.
  replace (violates _ (rows db)) with true; [reflexivity|].
  symmetry. unfold violates. apply orb_true_iff. left.
  apply existsb_exists. exists saved. split; [exact Hin|].
  cbn [Key]. apply String.eqb_eq. exact Hk.
Qed.

(** On such a table a run of the loop that returns has migrated at most
    once, and after a migration it returns an error, the store being as it
    was. *)
Lemma loop_one_migration (m : t A) (now : time.Time) (db : DB) (fuel : nat)
    (c0 : Z) (r : result Z) (db' : DB) (ev : list Event) :
  NoDup (map Key (rows db)) ->
  loop fuel m now c0 db = Some (r, db', ev) ->
  migrations ev = 0%nat
  \/ (migrations ev = 1%nat /\ db' = db
      /\ exists e, r = Err e
           /\ (snowflake.Migration (allocator m) c0 = Err e
               \/ exists c1, snowflake.Migration (allocator m) c0 = Ok c1
                             /\ c1 <> c0 /\ e = ErrDuplicatedKey)).
Proof.
  intros Hnd Hrun. destruct fuel as [|fuel]; [discriminate|].
  destruct (First [Key_Eq (nodeIdKey m); NodeID_Eq c0] db) as [saved|e0] eqn:Hf.
  - destruct (Z.le_gt_cases (model.Time saved) (time.UnixMilli now)) as [Hle|Hgt].
    + rewrite (loop_update fuel m now c0 db saved Hf Hle) in Hrun.
      destruct (Updates _ _ db) as [db1|e1];
        injection Hrun as E1 E2 E3; subst ev; left; reflexivity.
    + apply Z.lt_gt in Hgt.
      destruct (Z.le_gt_cases
                  (int64.sub (time.UnixMilli now)
                             (time.Microseconds (acceptableClockDrift m)))
                  (model.Time saved)) as [Hin|Hout].
      * rewrite (loop_wait fuel m now c0 db saved Hf Hgt Hin) in Hrun.
        injection Hrun as E1 E2 E3; subst ev. left. reflexivity.
      * rewrite (loop_migrate fuel m now c0 db saved Hf Hgt Hout) in Hrun.
        right.
        destruct (snowflake.Migration (allocator m) c0) as [c1|e1] eqn:Hm.
        -- destruct (Z.eq_dec c1 c0) as [-> | Hne].
           ++ rewrite (loop_fixed_point_diverges m now db c0 saved
                         Hf Hgt Hout Hm fuel) in Hrun. discriminate.
           ++ destruct fuel as [|fuel]; [discriminate|].
              rewrite (loop_after_migration m now db c0 c1 saved fuel
                         Hnd Hf Hne) in Hrun.
              cbn [emit] in Hrun. injection Hrun as E1 E2 E3; subst r db' ev.
              split; [reflexivity|]. split; [reflexivity|].
              exists ErrDuplicatedKey. split; [reflexivity|]. right.
              exists c1. auto.
        -- cbn [emit] in Hrun. injection Hrun as E1 E2 E3; subst r db' ev.
           split; [reflexivity|]. split; [reflexivity|].
           exists e1. auto.
  - cbn [loop] in Hrun. rewrite Hf in Hrun.
    destruct (is_ErrRecordNotFound e0).
    + destruct (Create _ db) as [db1|e1];
        injection Hrun as E1 E2 E3; subst ev; left; reflexivity.
    + injection Hrun as E1 E2 E3; subst ev. left. reflexivity.
Qed.

(** And two iterations are enough for the loop to return, unless the
    strategy migrates the candidate to itself. *)
Lemma loop_returns (m : t A) (now : time.Time) (db : DB) (fuel : nat)
    (c0 : Z) :
  NoDup (map Key (rows db)) ->
  snowflake.Migration (allocator m) c0 <> Ok c0 ->
  exists out, loop (S (S fuel)) m now c0 db = Some out.
Proof.
  intros Hnd Hfix.
  destruct (First [Key_Eq (nodeIdKey m); NodeID_Eq c0] db) as [saved|e0] eqn:Hf.
  - destruct (Z.le_gt_cases (model.Time saved) (time.UnixMilli now)) as [Hle|Hgt].
    + rewrite (loop_update (S fuel) m now c0 db saved Hf Hle).
      destruct (Updates _ _ db) as [db1|e1]; eexists; reflexivity.
    + apply Z.lt_gt in Hgt.
      destruct (Z.le_gt_cases
                  (int64.sub (time.UnixMilli now)
                             (time.Microseconds (acceptableClockDrift m)))
                  (model.Time saved)) as [Hin|Hout].
      * rewrite (loop_wait (S fuel) m now c0 db saved Hf Hgt Hin).
        eexists; reflexivity.
      * rewrite (loop_migrate (S fuel) m now c0 db saved Hf Hgt Hout).
        destruct (snowflake.Migration (allocator m) c0) as [c1|e1] eqn:Hm.
        -- assert (Hne : c1 <> c0) by (intros ->; apply Hfix; reflexivity).
           rewrite (loop_after_migration m now db c0 c1 saved fuel Hnd Hf Hne).
           eexists; reflexivity.
        -- eexists; reflexivity.
  - cbn [loop]. rewrite Hf. destruct (is_ErrRecordNotFound e0).
    + destruct (Create _ db) as [db1|e1]; eexists; reflexivity.
    + eexists; reflexivity.
Qed.
End AllocOutcomes.

Section AllocLoopClaims.
Import model dao gorm gorm.NodeIdAllocator examples.



End AllocLoopClaims.

(** ** The random strategy *)

Section RandFacts.
Import nodeid.RandNodeIdAllocator.

(** A word of the generator, reduced to 64 bits. *)
Lemma wrap_bounds (x : Z) : 0 <= uint64.wrap x < 2 ^ 64.
Proof. unfold uint64.wrap. apply Z.mod_pos_bound. lia. Qed.

Lemma value_range (x : Z) : 0 <= value x <= 1022.
Proof.
  unfold value, Mul64; cbn [fst]. pose proof (wrap_bounds x) as Hx.
  split.
  - apply Z.div_pos; lia.
  - assert (uint64.wrap x * 1023 / 2 ^ 64 < 1023); [|lia].
    apply Z.div_lt_upper_bound; lia.
Qed.

(** [uint64n 1023] returns the value of the first accepted word. *)
Lemma reject_1023 (hi lo : Z) (src : Source) :
  lo < 16 -> reject 16 1023 hi lo src = uint64n 1023 src.
Proof.
  intros Hlo. unfold uint64n.
  change (Z.land 1023 (1023 - 1) =? 0) with false. cbv iota.
  destruct src as [|x src]; cbn [reject].
  - destruct (Z.ltb_spec lo 16); [reflexivity | lia].
  - destruct (Z.ltb_spec lo 16); [|lia].
    change (uint64.wrap (Z.opp 1023) mod 1023) with 16.
    destruct (Mul64 (uint64.wrap x) 1023) as [hi' lo'].
    destruct (Z.ltb_spec lo' 1023) as [Hs|Hb]; [reflexivity|].
    destruct src; cbn [reject]; destruct (Z.ltb_spec lo' 16); try lia; reflexivity.
Qed.

Lemma uint64n_1023_cons (x : Z) (src : Source) :
  uint64n 1023 (x :: src)
  = if accepted x then Some (value x, src) else uint64n 1023 src.
Proof.
  unfold accepted, value. unfold uint64n at 1.
  change (Z.land 1023 (1023 - 1) =? 0) with false. cbv iota.
  change (uint64.wrap (Z.opp 1023) mod 1023) with 16.
  change (uint64.wrap (- 1023) mod 1023) with 16.
  destruct (Mul64 (uint64.wrap x) 1023) as [hi lo]. cbn [fst snd].
  destruct (Z.ltb_spec lo 16) as [Hr|Ha]; cbn [negb].
  - destruct (Z.ltb_spec lo 1023); [|lia]. apply reject_1023. exact Hr.
  - destruct (Z.ltb_spec lo 1023); [|reflexivity].
    destruct src; cbn [reject]; destruct (Z.ltb_spec lo 16); try lia; reflexivity.
Qed.

Lemma Int64N_1023_range (src : Source) :
  forall v rest, Int64N 1023 src = Some (v, rest) -> 0 <= v <= 1022.
Proof.
  change (Int64N 1023 src) with (uint64n 1023 src).
  induction src as [|x src IH]; intros v rest Hr; [discriminate|].
  rewrite uint64n_1023_cons in Hr. destruct (accepted x).
  - injection Hr as <- _. apply value_range.
  - apply (IH _ _ Hr).
Qed.

Lemma accepted_value_interval (v x : Z) :
  0 <= x < 2 ^ 64 ->
  (accepted x = true /\ value x = v)
  <-> first_word v <= x < first_word v + slots.
Proof.
  intros Hx. unfold accepted, value, Mul64, first_word, slots; cbn [fst snd].
  unfold uint64.wrap. rewrite (Z.mod_small x) by lia.
  change ((- 1023) mod 2 ^ 64 mod 1023) with 16.
  change ((2 ^ 64 - 16) / 1023) with 18032007892189200.
  rewrite negb_true_iff, Z.ltb_ge.
  pose proof (Z.div_mod (x * 1023) (2 ^ 64) ltac:(lia)) as Hdm.
  pose proof (Z.mod_pos_bound (x * 1023) (2 ^ 64) ltac:(lia)) as Hmb.
  pose proof (Z.div_mod (v * 2 ^ 64 + 16 + 1022) 1023 ltac:(lia)) as Hdv.
  pose proof (Z.mod_pos_bound (v * 2 ^ 64 + 16 + 1022) 1023 ltac:(lia)) as Hvb.
  change (2 ^ 64) with 18446744073709551616 in *.
  split.
  - intros [Hacc Hval]. subst v. lia.
  - intros Hint.
    assert (Hq : x * 1023 / 18446744073709551616 = v).
    { symmetry.
      apply (Z.div_unique _ _ v (x * 1023 - v * 18446744073709551616)); lia. }
    split; [|exact Hq]. rewrite Hq in Hdm. lia.
Qed.
End RandFacts.

Section RandClaims.
Import nodeid.RandNodeIdAllocator.

Lemma Alloc_cons (n : t) (x : Z) (src : Source) :
  Alloc n (x :: src)
  = if accepted x then Some (Ok (value x), src) else Alloc n src.
Proof.
  unfold Alloc. change (Int64N 1023) with (uint64n 1023).
  rewrite uint64n_1023_cons. destruct (accepted x); reflexivity.
Qed.

Lemma Alloc_range (n : t) (src : Source) (v : Z) (rest : Source) :
  Alloc n src = Some (Ok v, rest) -> 0 <= v <= 1022.
Proof.
  unfold Alloc. destruct (Int64N 1023 src) as [[v' rest']|] eqn:Hi; [|discriminate].
  intros [= <- _]. apply (Int64N_1023_range src _ _ Hi).
Qed.

(** C7, as stated, fails: neither function of the random strategy can
    return 1023, whatever the generator produces. *)
Lemma rand_never_returns_1023 :
  (~ exists src rest, Alloc NewRandNodeIdAllocator src = Some (Ok 1023, rest))
  /\ (~ exists old src rest,
        Migration NewRandNodeIdAllocator old src = Some (Ok 1023, rest)).
Proof.
  split.
  - intros (src & rest & Hr). apply Alloc_range in Hr. lia.
  - intros (old & src & rest & Hr).
    change (Migration NewRandNodeIdAllocator old src)
      with (Alloc NewRandNodeIdAllocator src) in Hr.
    apply Alloc_range in Hr. lia.
Qed.

(** C7, amended.  [Migration] ignores its input and computes what [Alloc]
    computes.  The value returned lies in the inclusive range 0 to 1022; it
    is the value of the first accepted word of the generator, and every
    value of the range is the value of the same number ([slots]) of accepted
    64-bit words, so that a uniform generator gives a uniform value.  Every
    integer of [0, 1022] is a possible output, and no other is. *)
Theorem rand_uniform_up_to_1022 (n : t) (old : Z) (src : Source) :
  Migration n old src = Alloc n src
  /\ (forall v rest, Alloc n src = Some (Ok v, rest) -> 0 <= v <= 1022)
  /\ (forall x, Alloc n (x :: src)
                = if accepted x then Some (Ok (value x), src) else Alloc n src)
  /\ (forall v x, 0 <= v <= 1022 -> 0 <= x < 2 ^ 64 ->
        (accepted x = true /\ value x = v)
        <-> first_word v <= x < first_word v + slots)
  /\ (forall v, 0 <= v <= 1022 -> Alloc n (first_word v :: src) = Some (Ok v, src)).
Proof.
  split; [reflexivity|]. split; [exact (Alloc_range n src)|].
  split; [intros x; apply Alloc_cons|].
  split; [intros v x _ Hx; apply accepted_value_interval; exact Hx|].
  intros v Hv. rewrite Alloc_cons.
  assert (Hfw : 0 <= first_word v < 2 ^ 64).
  { unfold first_word. change (2 ^ 64) with 18446744073709551616. split.
    - apply Z.div_pos; lia.
    - apply Z.div_lt_upper_bound; lia. }
  assert (Hs : 0 < slots) by reflexivity.
  destruct (proj2 (accepted_value_interval v (first_word v) Hfw)) as [-> ->];
    [lia | reflexivity].
Qed.

Lemma rand_uniform_up_to_1022_witness :
  0 <= 1022 <= 1022
  /\ Alloc NewRandNodeIdAllocator [first_word 1022] = Some (Ok 1022, [])
  /\ (forall v rest, Alloc NewRandNodeIdAllocator [first_word 1022]
                     = Some (Ok v, rest) -> 0 <= v <= 1022).
Proof.
  assert (Hv : 0 <= 1022 <= 1022) by lia.
  split; [exact Hv|]. split.
  - apply (proj2 (proj2 (proj2 (proj2
             (rand_uniform_up_to_1022 NewRandNodeIdAllocator 0 [])))) 1022 Hv).
  - apply (proj1 (proj2
             (rand_uniform_up_to_1022 NewRandNodeIdAllocator 0 [first_word 1022]))).
Defined.
End RandClaims.

(** ** One record per key *)

Section HistoryFacts.
Import model dao gorm gorm.NodeIdAllocator history notions.
Context {A : Type} `{snowflake.NodeIdAllocator A}.

Lemma Create_Ok (r : SnowflakeKv) (db db' : DB) :
  Create r db = Ok db' ->
  violates r (rows db) = false
  /\ rows db' = rows db ++ [r]
  /\ journal db' = journal db ++ [INSERT r].
Proof.
  unfold Create. destruct (reachable db); [|discriminate].
  destruct (violates r (rows db)); [discriminate|].
  intros [= <-]. auto.
Qed.

Lemma violates_key (r : SnowflakeKv) (tbl : list SnowflakeKv) :
  In (Key r) (map Key tbl) -> violates r tbl = true.
Proof.
  intros Hin. unfold violates. apply orb_true_iff. left.
  apply existsb_exists. apply in_map_iff in Hin.
  destruct Hin as (x & Hx & Hin). exists x. split; [exact Hin|].
  apply String.eqb_eq. exact Hx.
Qed.

Lemma inserted_app (j1 j2 : list Stmt) :
  inserted (j1 ++ j2) = inserted j1 ++ inserted j2.
Proof. apply flat_map_app. Qed.

Lemma accounted_NoDup_inserted (db : DB) :
  accounted db -> NoDup (inserted (journal db)).
Proof.
  intros [Hk Hn]. rewrite Hk in Hn. apply (NoDup_map_inv fst). exact Hn.
Qed.

Lemma Alloc_changes (fuel : nat) (m : t A) (now : time.Time) (db : DB)
    (r : result Z) (db' : DB) (ev : list Event) :
  Alloc fuel m now db = Some (r, db', ev) ->
  (db' = db
   /\ forall n, r = Ok n ->
        exists saved,
          First [Key_Eq (nodeIdKey m); NodeID_Eq n] db = Ok saved
          /\ model.Time saved > time.UnixMilli now)
  \/ (exists n, r = Ok n
        /\ First [Key_Eq (nodeIdKey m); NodeID_Eq n] db = Err ErrRecordNotFound
        /\ Create (fresh m now n) db = Ok db')
  \/ (exists n saved, r = Ok n
        /\ First [Key_Eq (nodeIdKey m); NodeID_Eq n] db = Ok saved
        /\ model.Time saved <= time.UnixMilli now
        /\ Updates [Key_Eq (nodeIdKey m); NodeID_Eq n] (renew now saved) db
           = Ok db').
Proof.
  unfold Alloc. destruct (snowflake.Alloc (allocator m)) as [nodeId|e].
  - apply loop_store_change.
  - intros [= <- <- <-]. left. split; [reflexivity | discriminate].
Qed.

Lemma Updates_found (m : t A) (now : time.Time) (n : Z) (saved : SnowflakeKv)
    (db db' : DB) :
  First [Key_Eq (nodeIdKey m); NodeID_Eq n] db = Ok saved ->
  Updates [Key_Eq (nodeIdKey m); NodeID_Eq n] (renew now saved) db = Ok db' ->
  map Key (rows db') = map Key (rows db)
  /\ map NodeID (rows db') = map NodeID (rows db)
  /\ journal db' = journal db
       ++ [UPDATE [Key_Eq (nodeIdKey m); NodeID_Eq n] (renew now saved)].
Proof.
  intros Hf Hu. apply First_key_node in Hf. destruct Hf as [_ Hn].
  assert (Hv : NodeID (renew now saved) = n) by exact Hn.
  apply (Updates_found_keeps_ids _ _ _ _ _ Hv Hu).
Qed.

Lemma updateDB_keeps (s : TimeSynchronizer.t) (now : time.Time) (db : DB) :
  map Key (rows (fst (TimeSynchronizer.updateDB s now db))) = map Key (rows db)
  /\ inserted (journal (fst (TimeSynchronizer.updateDB s now db)))
     = inserted (journal db).
Proof.
  destruct (updateDB_cases s now db)
    as [[_ ->] | [[_ [e ->]] | [_ [v [_ ->]]]]]; cbn [fst rows journal]; auto.
  split.
  - rewrite map_map. apply map_ext. intros r.
    destruct (String.eqb _ _); reflexivity.
  - rewrite inserted_app. cbn. apply app_nil_r.
Qed.

Lemma Alloc_accounted (fuel : nat) (m : t A) (now : time.Time) (db : DB)
    (r : result Z) (db' : DB) (ev : list Event) :
  Alloc fuel m now db = Some (r, db', ev) ->
  accounted db -> accounted db'.
Proof.
  intros Hrun [Hk Hn].
  destruct (Alloc_changes _ _ _ _ _ _ _ Hrun)
    as [[-> _] | [(n & _ & _ & Hc) | (n & saved & _ & Hf & _ & Hu)]].
  - split; assumption.
  - apply Create_Ok in Hc. destruct Hc as (Hv & Hr & Hj).
    unfold accounted. rewrite Hr, Hj, inserted_app, !map_app, Hk. cbn.
    split; [reflexivity|].
    rewrite <- Hk. apply NoDup_app; [exact Hn | repeat constructor; auto |].
    intros x Hx [<- | []].
    rewrite (violates_key (fresh m now n) (rows db) Hx) in Hv. discriminate.
  - destruct (Updates_found m now n saved db db' Hf Hu) as (Hk' & _ & Hj).
    unfold accounted. rewrite Hk', Hj, inserted_app. cbn. rewrite app_nil_r.
    split; assumption.
Qed.

Lemma apply_accounted (op : Op) (db : DB) : accounted db -> accounted (apply op db).
Proof.
  intros Hacc. destruct op as [fuel m now | s now | up]; cbn [apply].
  - destruct (Alloc fuel m now db) as [[[r db'] ev]|] eqn:Hrun; [|exact Hacc].
    apply (Alloc_accounted _ _ _ _ _ _ _ Hrun Hacc).
  - destruct (updateDB_keeps s now db) as [Hk Hi].
    destruct Hacc as [Hk0 Hn]. unfold accounted. rewrite Hk, Hi. auto.
  - exact Hacc.
Qed.

Lemma run_accounted (ops : list Op) :
  forall db, accounted db -> accounted (run ops db).
Proof.
  induction ops as [|op ops IH]; intros db Hacc; [exact Hacc|].
  apply IH. apply apply_accounted. exact Hacc.
Qed.

Lemma empty_accounted : accounted empty.
Proof. split; [reflexivity | constructor]. Qed.

(** Rows are never removed and never change their key. *)
Lemma apply_keeps_key (op : Op) (db : DB) (k : string) :
  In k (map Key (rows db)) -> In k (map Key (rows (apply op db))).
Proof.
  intros Hin. destruct op as [fuel m now | s now | up]; cbn [apply rows].
  - destruct (Alloc fuel m now db) as [[[r db'] ev]|] eqn:Hrun; [|exact Hin].
    destruct (Alloc_changes _ _ _ _ _ _ _ Hrun)
      as [[-> _] | [(n & _ & _ & Hc) | (n & saved & _ & Hf & _ & Hu)]].
    + exact Hin.
    + apply Create_Ok in Hc. destruct Hc as (_ & -> & _).
      rewrite map_app. apply in_or_app. left. exact Hin.
    + destruct (Updates_found m now n saved db db' Hf Hu) as (-> & _). exact Hin.
  - rewrite (proj1 (updateDB_keeps s now db)). exact Hin.
  - exact Hin.
Qed.

Lemma run_keeps_key (ops : list Op) (k : string) :
  forall db, In k (map Key (rows db)) -> In k (map Key (rows (run ops db))).
Proof.
  induction ops as [|op ops IH]; intros db Hin; [exact Hin|].
  apply IH. apply apply_keeps_key. exact Hin.
Qed.

(** A successful allocation leaves a row under the key of the allocator. *)
Lemma Alloc_success_has_key (fuel : nat) (m : t A) (now : time.Time) (db : DB)
    (n : Z) (db' : DB) (ev : list Event) :
  Alloc fuel m now db = Some (Ok n, db', ev) ->
  In (nodeIdKey m) (map Key (rows db')).
Proof.
  intros Hrun.
  destruct (Alloc_changes _ _ _ _ _ _ _ Hrun)
    as [[-> Hw] | [(n' & _ & _ & Hc) | (n' & saved & _ & Hf & _ & Hu)]].
  - destruct (Hw n eq_refl) as (saved & Hf & _).
    destruct (First_key_node _ _ _ _ Hf) as [Hk _].
    apply First_Ok in Hf. destruct Hf as (_ & Hin & _).
    rewrite <- Hk. apply in_map. exact Hin.
  - apply Create_Ok in Hc. destruct Hc as (_ & -> & _).
    rewrite map_app. apply in_or_app. right. left. reflexivity.
  - destruct (Updates_found m now n' saved db db' Hf Hu) as (-> & _).
    destruct (First_key_node _ _ _ _ Hf) as [Hk _].
    apply First_Ok in Hf. destruct Hf as (_ & Hin & _).
    rewrite <- Hk. apply in_map. exact Hin.
Qed.
End HistoryFacts.

Section HistoryClaims.
Import model dao gorm gorm.NodeIdAllocator history examples notions.

(** C4, as stated, fails.  The first [Alloc] for the key creates the record;
    a second [Alloc], run when the clock reads 50 ms less, finds the stored
    watermark ahead of now, sleeps and returns the same node id: it neither
    inserts nor updates, the store is exactly what it was. *)
Lemma Alloc_after_rollback_writes_nothing :
  let m := pinned_allocator key1 7 time.Second (5 * time.Second) in
  let db1 := {| rows := [{| Key := key1; NodeID := 7; model.Time := noonMilli;
                            Created := Some noon; Updated := noon |}];
                reachable := true;
                journal := [INSERT {| Key := key1; NodeID := 7;
                                      model.Time := noonMilli;
                                      Created := Some noon; Updated := noon |}] |} in
  Alloc 1 m noon empty = Some (Ok 7, db1, [])
  /\ Alloc 1 m (noon - 50 * time.Millisecond) db1
     = Some (Ok 7, db1, [Sleep time.Second]).
Proof. split; vm_compute; reflexivity. Qed.

(** C4, amended.  In every history of the store from the empty table, no
    (key, node id) pair is created twice.  After a successful allocation for
    a key, and whatever happens to the store in between, a later [Alloc] for
    that key creates no record and leaves the keys and node ids of all rows
    as they are; when it succeeds, the record of the node id it returns was
    found, and the call has either updated that record or, its watermark
    being ahead of now, left the store untouched. *)
Theorem later_Alloc_creates_no_record {A : Type} `{snowflake.NodeIdAllocator A}
    (ops1 ops2 : list Op) (fuel fuel2 : nat) (m m2 : t A) (now now2 : time.Time)
    (n : Z) (db1 db3 : DB) (ev ev3 : list Event) (r : result Z) :
  Alloc fuel m now (run ops1 empty) = Some (Ok n, db1, ev) ->
  nodeIdKey m2 = nodeIdKey m ->
  Alloc fuel2 m2 now2 (run ops2 db1) = Some (r, db3, ev3) ->
  (forall ops : list (@Op A), NoDup (inserted (journal (run ops empty))))
  /\ inserted (journal db3) = inserted (journal (run ops2 db1))
  /\ map Key (rows db3) = map Key (rows (run ops2 db1))
  /\ map NodeID (rows db3) = map NodeID (rows (run ops2 db1))
  /\ (forall n2, r = Ok n2 ->
        exists saved,
          First [Key_Eq (nodeIdKey m2); NodeID_Eq n2] (run ops2 db1) = Ok saved
          /\ ((model.Time saved > time.UnixMilli now2 /\ db3 = run ops2 db1)
              \/ (model.Time saved <= time.UnixMilli now2
                  /\ Updates [Key_Eq (nodeIdKey m2); NodeID_Eq n2]
                             (renew now2 saved) (run ops2 db1) = Ok db3))).
Proof.
  intros Hfirst Hkey Hlater. split.
  { intros ops. apply accounted_NoDup_inserted, run_accounted, empty_accounted. }
  assert (Hin : In (nodeIdKey m2) (map Key (rows (run ops2 db1)))).
  { rewrite Hkey. apply run_keeps_key.
    apply (Alloc_success_has_key _ _ _ _ _ _ _ Hfirst). }
  destruct (Alloc_changes _ _ _ _ _ _ _ Hlater)
    as [[-> Hw] | [(n' & _ & _ & Hc) | (n' & saved & -> & Hf & Hle & Hu)]].
  - repeat split; auto. intros n2 Hr. destruct (Hw n2 Hr) as (saved & Hf & Hgt).
    exists saved. auto.
  - exfalso. apply Create_Ok in Hc. destruct Hc as (Hv & _).
    rewrite (violates_key (fresh m2 now2 n') _ Hin) in Hv. discriminate.
  - destruct (Updates_found m2 now2 n' saved _ db3 Hf Hu) as (Hk & Hi & Hj).
    rewrite Hj, inserted_app. cbn. rewrite app_nil_r.
    repeat split; auto. intros n2 [= <-]. exists saved. auto.
Qed.

Lemma later_Alloc_creates_no_record_witness :
  let m := pinned_allocator key1 7 time.Second (5 * time.Second) in
  let s := {| TimeSynchronizer.nodeIdKey := key1;
              TimeSynchronizer.curr := noonMilli + 40 |} in
  exists db1 db3,
    Alloc 1 m noon (run [] empty) = Some (Ok 7, db1, [])
    /\ Alloc 1 m (noon + time.Second)
             (run [DoFlush s (noon + 50 * time.Millisecond)] db1)
       = Some (Ok 7, db3, [])
    /\ inserted (journal db3) = [(key1, 7)]
    /\ map Key (rows db3) = [key1].
Proof.
  intros m s.
  assert (Hfirst : exists db1, Alloc 1 m noon (run [] empty) = Some (Ok 7, db1, []))
    by (eexists; vm_compute; reflexivity).
  destruct Hfirst as [db1 Hfirst].
  assert (Hlater : exists db3,
             Alloc 1 m (noon + time.Second)
                   (run [DoFlush s (noon + 50 * time.Millisecond)] db1)
             = Some (Ok 7, db3, [])).
  { injection Hfirst as <-. eexists. vm_compute. reflexivity. }
  destruct Hlater as [db3 Hlater].
  exists db1, db3. split; [exact Hfirst|]. split; [exact Hlater|].
  destruct (later_Alloc_creates_no_record [] [DoFlush s (noon + 50 * time.Millisecond)]
              1 1 m m noon (noon + time.Second) 7 db1 db3 [] [] (Ok 7)
              Hfirst eq_refl Hlater) as (_ & Hi & Hk & _).
  rewrite Hi, Hk. injection Hfirst as <-. split; reflexivity.
Defined.
End HistoryClaims.

(** ** The tests of the repository, replayed *)

Section Replay.
Import model dao gorm examples notions history.

(** [TestTimeSynchronizer_Async]: one push is recorded. *)
Example replay_Async :
  TimeSynchronizer.curr
    (TimeSynchronizer.Async 1234567890 (TimeSynchronizer.NewTimeSynchronizer key1))
  = 1234567890.
Proof. reflexivity. Qed.

(** [TestTimeSynchronizer_Async_Multiple]: the last of 1000, ..., 5000. *)
Example replay_Async_Multiple :
  TimeSynchronizer.curr
    (pushes [1000; 2000; 3000; 4000; 5000]
            (TimeSynchronizer.NewTimeSynchronizer key1))
  = 5000.
Proof. reflexivity. Qed.

(** [TestTimeSynchronizer_Async_Zero]: pushing 0 leaves 0. *)
Example replay_Async_Zero :
  TimeSynchronizer.curr
    (TimeSynchronizer.Async 0 (TimeSynchronizer.NewTimeSynchronizer key1)) = 0.
Proof. reflexivity. Qed.

(** [TestTimeSynchronizer_Run]: a pushed timestamp reaches the record of the
    key at the next tick. *)
Example replay_Run :
  rows (snd (fst (TimeSynchronizer.Run
                    [TimeSynchronizer.Push 1700000000123; TimeSynchronizer.Tick 9]
                    (TimeSynchronizer.NewTimeSynchronizer key1)
                    (store [row key1 5 1700000000000; row key2 9 1700000000050]))))
  = [ {| Key := key1; NodeID := 5; model.Time := 1700000000123;
         Created := Some 0; Updated := 9 |};
      row key2 9 1700000000050 ].
Proof. reflexivity. Qed.

(** [TestHashNodeIdAllocator_Alloc_Range] and the migration counterpart:
    both functions of the hash strategy answer in [0, 1024), whatever the
    hash function. *)
Lemma hash_strategy_range (Sum64 : list Z -> Z)
    (n : nodeid.HashNodeIdAllocator.t) (old : Z) :
  (exists v, nodeid.HashNodeIdAllocator.Alloc Sum64 n = Ok v /\ 0 <= v < 1024)
  /\ (exists v, nodeid.HashNodeIdAllocator.Migration Sum64 n old = Ok v
                /\ 0 <= v < 1024).
Proof.
  split; eexists; (split; [reflexivity|]); apply Z.mod_pos_bound; lia.
Qed.

(** [TestNodeIdAllocator_Alloc_FirstTime]: on the empty table [Alloc]
    creates the record of the hashed candidate with the watermark now. *)
Lemma replay_Alloc_FirstTime (Sum64 : list Z -> Z) :
  let m := NewNodeIdAllocator key1 time.Second (5 * time.Second) in
  let c := uint64.wrap (Sum64 (nodeid.HashNodeIdAllocator.bytes_of_string key1))
           mod 1024 in
  @NodeIdAllocator.Alloc _ (nodeid.HashNodeIdAllocator.strategy Sum64) 1 m noon empty
  = Some (Ok c,
          {| rows := [fresh m noon c];
             reachable := true;
             journal := [INSERT (fresh m noon c)] |},
          []).
Proof. reflexivity. Qed.

(** [TestNodeIdAllocator_Alloc_Existing]: 100 ms later [Alloc] returns the
    same node id and moves the watermark of the record forward. *)
Lemma replay_Alloc_Existing (Sum64 : list Z -> Z) :
  let strategy := nodeid.HashNodeIdAllocator.strategy Sum64 in
  let m := NewNodeIdAllocator key1 time.Second (5 * time.Second) in
  let c := uint64.wrap (Sum64 (nodeid.HashNodeIdAllocator.bytes_of_string key1))
           mod 1024 in
  let later := noon + 100 * time.Millisecond in
  let db1 := {| rows := [fresh m noon c]; reachable := true;
                journal := [INSERT (fresh m noon c)] |} in
  @NodeIdAllocator.Alloc _ strategy 1 m noon empty = Some (Ok c, db1, [])
  /\ exists db2,
       @NodeIdAllocator.Alloc _ strategy 1 m later db1 = Some (Ok c, db2, [])
       /\ map model.Time (rows db2) = [noonMilli + 100]
       /\ map NodeID (rows db2) = [c].
Proof.
  intros strategy m c later db1. split; [reflexivity|].
  assert (Hf : First [Key_Eq (NodeIdAllocator.nodeIdKey m); NodeID_Eq c] db1
               = Ok (fresh m noon c)).
  { unfold First, db1; cbn [reachable rows find matches forallb holds fresh Key NodeID].
    rewrite Z.eqb_refl. reflexivity. }
  assert (Hle : model.Time (fresh m noon c) <= time.UnixMilli later)
    by (vm_compute; discriminate).
  pose proof (@loop_update _ strategy 0 m later c db1 _ Hf Hle) as Hstep.
  destruct (Updates [Key_Eq (NodeIdAllocator.nodeIdKey m); NodeID_Eq c]
                    (NodeIdAllocator.renew later (fresh m noon c)) db1)
    as [db2|e] eqn:Hu; [|discriminate Hu].
  exists db2. split; [exact Hstep|].
  destruct (Updates_found m later c _ db1 db2 Hf Hu) as (_ & Hn & _).
  split; [|exact Hn].
  unfold Updates in Hu. cbn [reachable db1] in Hu. injection Hu as <-.
  cbn [rows map db1 app pk_conds matches forallb holds fresh Key NodeID
       NodeIdAllocator.renew NodeIdAllocator.nodeIdKey m NewNodeIdAllocator].
  rewrite Z.eqb_refl. reflexivity.
Qed.
End Replay.

(** * Further properties of the code *)

(** ** Alloc: first allocation, errors, renewal *)

Section AllocMore.
Import model dao gorm gorm.NodeIdAllocator notions.
Context {A : Type} `{snowflake.NodeIdAllocator A}.

Lemma find_none_iff {B : Type} (p : B -> bool) (l : list B) :
  find p l = None <-> forall x, In x l -> p x = false.
Proof.
  split.
  - intros Hf x Hin. apply (find_none p l Hf x Hin).
  - induction l as [|a l IH]; intros Hall; [reflexivity|].
    cbn [find]. rewrite (Hall a (or_introl eq_refl)).
    apply IH. intros x Hin. apply Hall. right. exact Hin.
Qed.

Lemma matches_key_node (k : string) (n : Z) (r : SnowflakeKv) :
  matches [Key_Eq k; NodeID_Eq n] r = true <-> Key r = k /\ NodeID r = n.
Proof.
  unfold matches; cbn [forallb holds]. rewrite andb_true_r, andb_true_iff.
  rewrite String.eqb_eq, Z.eqb_eq. tauto.
Qed.

(** The extra condition from the primary key of the struct repeats the key
    condition of [Alloc]. *)
Lemma matches_with_pk (k : string) (n : Z) (v r : SnowflakeKv) :
  Key v = k ->
  matches ([Key_Eq k; NodeID_Eq n] ++ pk_conds v) r
  = matches [Key_Eq k; NodeID_Eq n] r.
Proof.
  intros Hk. unfold pk_conds. rewrite Hk.
  destruct (String.eqb k EmptyString); [reflexivity|].
  unfold matches; cbn [app forallb holds].
  destruct (String.eqb (Key r) k); [|reflexivity].
  destruct (NodeID r =? n); reflexivity.
Qed.

Lemma Updates_Ok (conds : list Cond) (v : SnowflakeKv) (db db' : DB) :
  Updates conds v db = Ok db' ->
  rows db' = map (fun r => if matches (conds ++ pk_conds v) r
                           then assign v r else r) (rows db)
  /\ reachable db = true /\ reachable db' = true
  /\ journal db' = journal db ++ [UPDATE conds v].
Proof.
  unfold Updates. destruct (reachable db) eqn:Hre; [|discriminate].
  destruct (conds ++ pk_conds v) as [|c l] eqn:Hall; [discriminate|].
  intros [= <-]. cbn [rows reachable journal]. auto.
Qed.

Lemma Updates_found_rows (m : t A) (now : time.Time) (n : Z)
    (saved : SnowflakeKv) (db db' : DB) :
  First [Key_Eq (nodeIdKey m); NodeID_Eq n] db = Ok saved ->
  Updates [Key_Eq (nodeIdKey m); NodeID_Eq n] (renew now saved) db = Ok db' ->
  rows db'
  = map (fun r => if matches [Key_Eq (nodeIdKey m); NodeID_Eq n] r
                  then renewed now r else r) (rows db).
Proof.
  intros Hf Hu. destruct (First_key_node _ _ _ _ Hf) as [Hk Hn].
  apply Updates_Ok in Hu. destruct Hu as (-> & _).
  apply map_ext. intros r.
  rewrite (matches_with_pk (nodeIdKey m) n (renew now saved) r Hk).
  destruct (matches [Key_Eq (nodeIdKey m); NodeID_Eq n] r) eqn:Hm; [|reflexivity].
  apply matches_key_node in Hm. destruct Hm as [_ Hrn].
  unfold assign, renewed, renew; cbn [NodeID model.Time Created Updated Key].
  rewrite Hn, <- Hrn. destruct (NodeID r =? 0); reflexivity.
Qed.
End AllocMore.

Section AllocPaths.
Import model dao gorm gorm.NodeIdAllocator notions.
Context {A : Type} `{snowflake.NodeIdAllocator A}.

Lemma First_not_found (k : string) (n : Z) (db : DB) :
  reachable db = true ->
  (forall r, In r (rows db) -> ~ (Key r = k /\ NodeID r = n)) ->
  First [Key_Eq k; NodeID_Eq n] db = Err ErrRecordNotFound.
Proof.
  intros Hre Hno. unfold First. rewrite Hre.
  replace (find (matches [Key_Eq k; NodeID_Eq n]) (rows db)) with (@None SnowflakeKv);
    [reflexivity|].
  symmetry. apply find_none_iff. intros r Hin.
  destruct (matches [Key_Eq k; NodeID_Eq n] r) eqn:Hm; [|reflexivity].
  apply matches_key_node in Hm. destruct (Hno r Hin Hm).
Qed.

Lemma violates_iff (r : SnowflakeKv) (tbl : list SnowflakeKv) :
  violates r tbl = true
  <-> exists x, In x tbl /\ (Key x = Key r \/ NodeID x = NodeID r).
Proof.
  unfold violates. rewrite orb_true_iff, !existsb_exists. split.
  - intros [(x & Hin & Hk) | (x & Hin & Hn)]; exists x; split; auto.
    + left. apply String.eqb_eq. exact Hk.
    + right. apply Z.eqb_eq. exact Hn.
  - intros (x & Hin & [Hk | Hn]); [left | right]; exists x; split; auto.
    + apply String.eqb_eq. exact Hk.
    + apply Z.eqb_eq. exact Hn.
Qed.

(** X1. First allocation.  When the store can be reached and no row carries
    the key of the allocator or the candidate of the strategy, [Alloc]
    returns the candidate after one lookup and one insert: the table gains
    exactly the record (key, candidate) with the watermark [now] in
    milliseconds and both timestamps [now]; nothing is slept or logged. *)
Theorem Alloc_first_allocation (m : t A) (now : time.Time) (db : DB)
    (nodeId : Z) (fuel : nat) :
  snowflake.Alloc (allocator m) = Ok nodeId ->
  reachable db = true ->
  (forall r, In r (rows db) -> Key r <> nodeIdKey m /\ NodeID r <> nodeId) ->
  Alloc (S fuel) m now db
  = Some (Ok nodeId,
          {| rows := rows db ++ [fresh m now nodeId];
             reachable := true;
             journal := journal db ++ [INSERT (fresh m now nodeId)] |},
          []).
Proof.
  intros Hc Hre Hno. unfold Alloc. rewrite Hc. cbn [loop].
  rewrite First_not_found; [|exact Hre|].
  2:{ intros r Hin [Hk _]. destruct (Hno r Hin) as [Hk' _]. contradiction. }
  cbn [is_ErrRecordNotFound]. fold (fresh m now nodeId).
  unfold Create. rewrite Hre.
  destruct (violates (fresh m now nodeId) (rows db)) eqn:Hv; [|reflexivity].
  apply violates_iff in Hv. destruct Hv as (x & Hin & Hx).
  destruct (Hno x Hin) as [Hk Hn]. cbn [fresh Key NodeID] in Hx. tauto.
Qed.

(** X2. A refused insert.  When the record of the candidate is not in the
    table but some row already carries the key (with another node id) or
    the candidate node id (under another key), the insert is refused by the
    table's constraints; [Alloc] returns that error and the store is
    unchanged. *)
Theorem Alloc_refused_insert (m : t A) (now : time.Time) (db : DB)
    (nodeId : Z) (fuel : nat) (x : SnowflakeKv) :
  snowflake.Alloc (allocator m) = Ok nodeId ->
  reachable db = true ->
  (forall r, In r (rows db) -> ~ (Key r = nodeIdKey m /\ NodeID r = nodeId)) ->
  In x (rows db) -> Key x = nodeIdKey m \/ NodeID x = nodeId ->
  Alloc (S fuel) m now db = Some (Err ErrDuplicatedKey, db, []).
Proof.
  intros Hc Hre Hno Hin Hx. unfold Alloc. rewrite Hc. cbn [loop].
  rewrite (First_not_found _ _ _ Hre Hno). cbn [is_ErrRecordNotFound].
  fold (fresh m now nodeId). unfold Create. rewrite Hre.
  replace (violates (fresh m now nodeId) (rows db)) with true; [reflexivity|].
  symmetry. apply violates_iff. exists x. split; [exact Hin | exact Hx].
Qed.

(** X3. Errors come first.  An error of the strategy is returned before the
    store is looked at, whatever the store and the fuel; and while the store
    cannot be reached, [Alloc] returns the connection error of its first
    lookup.  In both cases the store is unchanged and nothing is slept or
    logged. *)
Theorem Alloc_fails_fast (m : t A) (now : time.Time) (db : DB) :
  (forall e fuel, snowflake.Alloc (allocator m) = Err e ->
     Alloc fuel m now db = Some (Err e, db, []))
  /\ (forall nodeId fuel, snowflake.Alloc (allocator m) = Ok nodeId ->
        reachable db = false ->
        Alloc (S fuel) m now db = Some (Err ErrBadConn, db, [])).
Proof.
  split.
  - intros e fuel He. unfold Alloc. rewrite He. reflexivity.
  - intros nodeId fuel Hc Hre. unfold Alloc. rewrite Hc. cbn [loop].
    unfold First. rewrite Hre. reflexivity.
Qed.

(** X4. Renewal.  When the record of the candidate is found with a watermark
    that is not ahead of now, [Alloc] returns the candidate after one update
    and nothing else: every row with that key and node id gets the watermark
    now (unless that is 0) and the update time now, keeps its key, node id
    and creation time, and all other rows are untouched.  The contention
    interval plays no part in the result. *)
Theorem Alloc_renews (m : t A) (now : time.Time) (db : DB) (nodeId : Z)
    (saved : SnowflakeKv) (fuel : nat) :
  snowflake.Alloc (allocator m) = Ok nodeId ->
  First [Key_Eq (nodeIdKey m); NodeID_Eq nodeId] db = Ok saved ->
  model.Time saved <= time.UnixMilli now ->
  Alloc (S fuel) m now db
  = Some (Ok nodeId,
          {| rows := map (fun r =>
                            if matches [Key_Eq (nodeIdKey m); NodeID_Eq nodeId] r
                            then renewed now r else r) (rows db);
             reachable := true;
             journal := journal db
                        ++ [UPDATE [Key_Eq (nodeIdKey m); NodeID_Eq nodeId]
                                   (renew now saved)] |},
          []).
Proof.
  intros Hc Hf Hle. unfold Alloc. rewrite Hc.
  rewrite (loop_update fuel m now nodeId db saved Hf Hle).
  destruct (Updates [Key_Eq (nodeIdKey m); NodeID_Eq nodeId] (renew now saved) db)
    as [db'|e] eqn:Hu.
  - rewrite <- (Updates_found_rows m now nodeId saved db db' Hf Hu).
    apply Updates_Ok in Hu. destruct Hu as (_ & _ & Hre' & Hj).
    rewrite <- Hj, <- Hre'. destruct db'; reflexivity.
  - exfalso. apply First_Ok in Hf. destruct Hf as (Hre & _).
    unfold Updates in Hu. rewrite Hre in Hu. cbn [app] in Hu. discriminate.
Qed.
End AllocPaths.

Section AllocFrame.
Import model dao gorm gorm.NodeIdAllocator notions.
Context {A : Type} `{snowflake.NodeIdAllocator A}.

Lemma NoDup_map_In_eq {B C : Type} (g : B -> C) (l : list B) (a b : B) :
  NoDup (map g l) -> In a l -> In b l -> g a = g b -> a = b.
Proof.
  induction l as [|x l IH]; intros Hnd Ha Hb Hg; [destruct Ha|].
  cbn [map] in Hnd. inversion Hnd as [|y ys Hnin Hnd']; subst.
  destruct Ha as [-> | Ha]; destruct Hb as [-> | Hb]; auto.
  - exfalso. apply Hnin. rewrite Hg. apply in_map. exact Hb.
  - exfalso. apply Hnin. rewrite <- Hg. apply in_map. exact Ha.
Qed.

(** What a finished call has done to the row at a given place. *)
Lemma Alloc_row (fuel : nat) (m : t A) (now : time.Time) (db : DB)
    (r : result Z) (db' : DB) (ev : list Event) (i : nat) (row : SnowflakeKv) :
  Alloc fuel m now db = Some (r, db', ev) ->
  nth_error (rows db) i = Some row ->
  nth_error (rows db') i = Some row
  \/ (nth_error (rows db') i = Some (renewed now row)
      /\ r = Ok (NodeID row) /\ Key row = nodeIdKey m
      /\ exists saved,
           First [Key_Eq (nodeIdKey m); NodeID_Eq (NodeID row)] db = Ok saved
           /\ model.Time saved <= time.UnixMilli now).
Proof.
  intros Hrun Hi.
  destruct (Alloc_changes _ _ _ _ _ _ _ Hrun)
    as [[-> _] | [(n & _ & _ & Hc) | (n & saved & -> & Hf & Hle & Hu)]].
  - left. exact Hi.
  - left. apply Create_Ok in Hc. destruct Hc as (_ & -> & _).
    rewrite nth_error_app1; [exact Hi|].
    apply nth_error_Some. congruence.
  - rewrite (Updates_found_rows m now n saved db db' Hf Hu).
    rewrite nth_error_map, Hi. cbn [option_map].
    destruct (matches [Key_Eq (nodeIdKey m); NodeID_Eq n] row) eqn:Hm;
      [right | left; reflexivity].
    apply matches_key_node in Hm. destruct Hm as [Hk Hn]. subst n.
    split; [reflexivity|]. split; [reflexivity|]. split; [exact Hk|].
    exists saved. auto.
Qed.

(** X5. What [Alloc] leaves alone.  Whatever its outcome, a call of [Alloc]
    removes no row and moves none, changes no row under another key, and
    changes a row under its own key only by renewing it (watermark and
    update time), in which case it returns that row's node id; it executes
    at most one write statement and leaves the reachability of the store as
    it is. *)
Theorem Alloc_frame (fuel : nat) (m : t A) (now : time.Time) (db : DB)
    (r : result Z) (db' : DB) (ev : list Event) :
  Alloc fuel m now db = Some (r, db', ev) ->
  reachable db' = reachable db
  /\ (journal db' = journal db \/ exists s, journal db' = journal db ++ [s])
  /\ (forall i row, nth_error (rows db) i = Some row ->
        exists row',
          nth_error (rows db') i = Some row'
          /\ Key row' = Key row /\ NodeID row' = NodeID row
          /\ Created row' = Created row
          /\ (row' = row
              \/ (Key row = nodeIdKey m /\ r = Ok (NodeID row)
                  /\ row' = renewed now row))).
Proof.
  intros Hrun. split; [|split].
  - destruct (Alloc_changes _ _ _ _ _ _ _ Hrun)
      as [[-> _] | [(n & _ & _ & Hc) | (n & saved & _ & _ & _ & Hu)]].
    + reflexivity.
    + unfold Create in Hc. destruct (reachable db); [|discriminate].
      destruct (violates _ _); [discriminate|]. injection Hc as <-. reflexivity.
    + apply Updates_Ok in Hu. destruct Hu as (_ & -> & -> & _). reflexivity.
  - destruct (Alloc_changes _ _ _ _ _ _ _ Hrun)
      as [[-> _] | [(n & _ & _ & Hc) | (n & saved & _ & _ & _ & Hu)]].
    + left. reflexivity.
    + right. apply Create_Ok in Hc. destruct Hc as (_ & _ & ->). eauto.
    + right. apply Updates_Ok in Hu. destruct Hu as (_ & _ & _ & ->). eauto.
  - intros i row Hi.
    destruct (Alloc_row fuel m now db r db' ev i row Hrun Hi)
      as [Hsame | (Hnew & Hr & Hk & _)].
    + exists row. auto 6.
    + exists (renewed now row). repeat split; auto.
Qed.

(** X6. Watermarks do not go back.  On a table in which no (key, node id)
    pair occurs twice, no call of [Alloc] lowers the watermark of any row:
    the only rows it rewrites are found with a watermark that is not ahead
    of now, and receive now. *)
Theorem Alloc_keeps_watermarks (fuel : nat) (m : t A) (now : time.Time)
    (db : DB) (r : result Z) (db' : DB) (ev : list Event)
    (i : nat) (row row' : SnowflakeKv) :
  NoDup (map (fun x => (Key x, NodeID x)) (rows db)) ->
  Alloc fuel m now db = Some (r, db', ev) ->
  nth_error (rows db) i = Some row ->
  nth_error (rows db') i = Some row' ->
  model.Time row <= model.Time row'.
Proof.
  intros Hnd Hrun Hi Hi'.
  destruct (Alloc_row fuel m now db r db' ev i row Hrun Hi)
    as [Hsame | (Hnew & _ & Hk & saved & Hf & Hle)].
  - rewrite Hsame in Hi'. injection Hi' as <-. lia.
  - rewrite Hnew in Hi'. injection Hi' as <-.
    assert (Heq : saved = row).
    { destruct (First_key_node _ _ _ _ Hf) as [Hsk Hsn].
      apply First_Ok in Hf. destruct Hf as (_ & Hin & _).
      apply (NoDup_map_In_eq (fun x => (Key x, NodeID x)) (rows db)); auto.
      - apply (nth_error_In _ _ Hi).
      - cbn. congruence. }
    subst saved. unfold renewed; cbn [model.Time].
    destruct (time.UnixMilli now =? 0); lia.
Qed.
End AllocFrame.

Section AllocTwice.
Import model dao gorm gorm.NodeIdAllocator notions.
Context {A : Type} `{snowflake.NodeIdAllocator A}.

Lemma find_map_same {B : Type} (p : B -> bool) (f : B -> B) (l : list B) :
  (forall x, p (f x) = p x) ->
  find p (map f l) = option_map f (find p l).
Proof.
  intros Hp. induction l as [|a l IH]; [reflexivity|].
  cbn [map find]. rewrite Hp. destruct (p a); [reflexivity | exact IH].
Qed.

Lemma find_app_none {B : Type} (p : B -> bool) (l l' : list B) :
  find p l = None -> find p (l ++ l') = find p l'.
Proof.
  induction l as [|a l IH]; [reflexivity|]. cbn [find app].
  destruct (p a); [discriminate | exact IH].
Qed.

Lemma renewed_matches (conds : list Cond) (now : time.Time) (r : SnowflakeKv) :
  matches conds (renewed now r) = matches conds r.
Proof.
  unfold matches. induction conds as [|c conds IH]; [reflexivity|].
  cbn [forallb]. rewrite IH. destruct c; reflexivity.
Qed.

Lemma First_find (conds : list Cond) (db : DB) (r : SnowflakeKv) :
  First conds db = Ok r <->
  reachable db = true /\ find (matches conds) (rows db) = Some r.
Proof.
  unfold First. destruct (reachable db).
  - destruct (find (matches conds) (rows db)) as [r0|]; split.
    + intros [= ->]. auto.
    + intros [_ [= ->]]. reflexivity.
    + discriminate.
    + intros [_ [=]].
  - split; [discriminate | intros [[=] _]].
Qed.

Lemma First_missing (conds : list Cond) (db : DB) :
  First conds db = Err ErrRecordNotFound <->
  reachable db = true /\ find (matches conds) (rows db) = None.
Proof.
  unfold First. destruct (reachable db).
  - destruct (find (matches conds) (rows db)) as [r0|]; split.
    + discriminate.
    + intros [_ [=]].
    + auto.
    + reflexivity.
  - split; [discriminate | intros [[=] _]].
Qed.

(** After a call that succeeded without sleeping and without migrating, the
    record of the returned node id is in the table, with a watermark that
    is not ahead of now; and the node id is the candidate of the strategy. *)
Lemma Alloc_settled (fuel : nat) (m : t A) (now : time.Time) (db db1 : DB)
    (n : Z) :
  Alloc fuel m now db = Some (Ok n, db1, []) ->
  snowflake.Alloc (allocator m) = Ok n
  /\ exists r1, First [Key_Eq (nodeIdKey m); NodeID_Eq n] db1 = Ok r1
                /\ model.Time r1 <= time.UnixMilli now.
Proof.
  unfold Alloc. destruct (snowflake.Alloc (allocator m)) as [nodeId|e];
    [|discriminate].
  destruct fuel as [|fuel]; [discriminate|]. intros Hrun.
  destruct (First [Key_Eq (nodeIdKey m); NodeID_Eq nodeId] db) as [saved|e] eqn:Hf.
  - destruct (Z.le_gt_cases (model.Time saved) (time.UnixMilli now)) as [Hle|Hgt].
    + rewrite (loop_update fuel m now nodeId db saved Hf Hle) in Hrun.
      destruct (Updates _ _ db) as [db'|e] eqn:Hu; [|discriminate].
      injection Hrun as E1 E2; subst n db'. split; [reflexivity|].
      pose proof (Updates_found_rows m now nodeId saved db db1 Hf Hu) as Hrows.
      apply Updates_Ok in Hu. destruct Hu as (_ & _ & Hre1 & _).
      exists (renewed now saved). split.
      * apply First_find. split; [exact Hre1|]. rewrite Hrows.
        rewrite find_map_same.
        -- apply First_find in Hf as [_ Hfind]. rewrite Hfind. cbn [option_map].
           apply find_some in Hfind. destruct Hfind as [_ Hm]. rewrite Hm.
           reflexivity.
        -- intros x.
           destruct (matches [Key_Eq (nodeIdKey m); NodeID_Eq nodeId] x) eqn:Hm.
           ++ rewrite renewed_matches. exact Hm.
           ++ exact Hm.
      * unfold renewed; cbn [model.Time].
        destruct (time.UnixMilli now =? 0); lia.
    + apply Z.lt_gt in Hgt. exfalso.
      destruct (Z.le_gt_cases
                  (int64.sub (time.UnixMilli now)
                             (time.Microseconds (acceptableClockDrift m)))
                  (model.Time saved)) as [Hin|Hout].
      * rewrite (loop_wait fuel m now nodeId db saved Hf Hgt Hin) in Hrun.
        discriminate.
      * rewrite (loop_migrate fuel m now nodeId db saved Hf Hgt Hout) in Hrun.
        destruct (snowflake.Migration (allocator m) nodeId) as [nodeId'|e];
          [destruct (loop fuel m now nodeId' db) as [[[x d] ev0]|]|];
          discriminate.
  - cbn [loop] in Hrun. rewrite Hf in Hrun.
    destruct e; cbn [is_ErrRecordNotFound] in Hrun; try discriminate.
    fold (fresh m now nodeId) in Hrun.
    destruct (Create (fresh m now nodeId) db) as [db'|e1] eqn:Hc; [|discriminate].
    injection Hrun as E1 E2; subst n db'. split; [reflexivity|].
    apply First_missing in Hf. destruct Hf as [Hre Hnone].
    exists (fresh m now nodeId). split; [|cbn; lia].
    apply First_find.
    unfold Create in Hc. rewrite Hre in Hc.
    destruct (violates _ _); [discriminate|]. injection Hc as <-.
    cbn [reachable rows]. split; [reflexivity|].
    rewrite (find_app_none _ _ _ Hnone). cbn [find].
    replace (matches [Key_Eq (nodeIdKey m); NodeID_Eq nodeId] (fresh m now nodeId))
      with true; [reflexivity|].
    symmetry. apply matches_key_node. split; reflexivity.
Qed.

(** X7. Two allocations in a row.  After a call of [Alloc] that returned a
    node id without sleeping or migrating, a second call on the resulting
    store, at a time whose milliseconds are not smaller, returns the same
    node id by renewing the record: one update, no insert, no sleep, no
    log. *)
Theorem Alloc_twice_same_node_id (fuel fuel2 : nat) (m : t A)
    (now now2 : time.Time) (db db1 : DB) (n : Z) :
  Alloc fuel m now db = Some (Ok n, db1, []) ->
  time.UnixMilli now <= time.UnixMilli now2 ->
  exists saved,
    First [Key_Eq (nodeIdKey m); NodeID_Eq n] db1 = Ok saved
    /\ Alloc (S fuel2) m now2 db1
       = Some (Ok n,
               {| rows := map (fun r =>
                                 if matches [Key_Eq (nodeIdKey m); NodeID_Eq n] r
                                 then renewed now2 r else r) (rows db1);
                  reachable := true;
                  journal := journal db1
                             ++ [UPDATE [Key_Eq (nodeIdKey m); NodeID_Eq n]
                                        (renew now2 saved)] |},
               []).
Proof.
  intros Hrun Hle.
  destruct (Alloc_settled fuel m now db db1 n Hrun) as (Hc & r1 & Hf & Ht).
  exists r1. split; [exact Hf|].
  assert (Hle2 : model.Time r1 <= time.UnixMilli now2) by lia.
  unfold Alloc. rewrite Hc.
  rewrite (loop_update fuel2 m now2 n db1 r1 Hf Hle2).
  destruct (Updates [Key_Eq (nodeIdKey m); NodeID_Eq n] (renew now2 r1) db1)
    as [db'|e] eqn:Hu.
  - rewrite <- (Updates_found_rows m now2 n r1 db1 db' Hf Hu).
    apply Updates_Ok in Hu. destruct Hu as (_ & _ & Hre' & Hj).
    rewrite <- Hj, <- Hre'. destruct db'; reflexivity.
  - exfalso. apply First_Ok in Hf. destruct Hf as (Hre & _).
    unfold Updates in Hu. rewrite Hre in Hu. cbn [app] in Hu. discriminate.
Qed.
End AllocTwice.

(** ** The hash strategy *)

Section HashMore.
Import model dao gorm gorm.NodeIdAllocator.
Variable Sum64 : list Z -> Z.

Let hash := nodeid.HashNodeIdAllocator.strategy Sum64.

Lemma hash_migrate_range (m : t nodeid.HashNodeIdAllocator.t) (n : nat) :
  forall c0 c, 0 <= c0 < 1024 ->
    @migrate _ hash m n c0 = Ok c -> 0 <= c < 1024.
Proof.
  induction n as [|n IH]; intros c0 c Hc0; cbn [migrate].
  - intros [= <-]. exact Hc0.
  - cbn. apply IH. apply Z.mod_pos_bound. lia.
Qed.

(** X8. Node ids of the allocator.  Whatever the hash function, the key, the
    configuration, the time and the store, a node id returned by [Alloc] of
    an allocator built by [NewNodeIdAllocator] lies in [0, 1024): the
    candidate and every migrated candidate are reduced modulo 1024, and
    [Alloc] returns nothing but a candidate. *)
Theorem Alloc_node_id_in_range (key : string)
    (drift contention : time.Duration) (fuel : nat) (now : time.Time)
    (db db' : DB) (ret : Z) (ev : list Event) :
  @Alloc _ hash fuel (NewNodeIdAllocator key drift contention) now db
  = Some (Ok ret, db', ev) ->
  0 <= ret < 1024.
Proof.
  intros Hrun. unfold Alloc in Hrun.
  cbn [snowflake.Alloc hash nodeid.HashNodeIdAllocator.strategy] in Hrun.
  unfold nodeid.HashNodeIdAllocator.Alloc in Hrun.
  apply (@loop_returns_candidate _ hash) in Hrun. destruct Hrun as [Hm _].
  apply (hash_migrate_range _ _ _ _ (Z.mod_pos_bound _ 1024 ltac:(lia)) Hm).
Qed.
End HashMore.

Section PutUint64Facts.
Import nodeid.HashNodeIdAllocator.

Lemma decode_bytes (v : Z) (n : nat) :
  forall k : nat,
    Uint64 (map (fun i => Z.shiftr v (8 * Z.of_nat i) mod 256) (seq k n))
    = (v / 2 ^ (8 * Z.of_nat k)) mod 2 ^ (8 * Z.of_nat n).
Proof.
  induction n as [|n IH]; intros k.
  - cbn. rewrite Z.mod_1_r. reflexivity.
  - cbn [seq map Uint64 fold_right]. fold (Uint64
      (map (fun i => Z.shiftr v (8 * Z.of_nat i) mod 256) (seq (S k) n))).
    rewrite IH, Z.shiftr_div_pow2 by lia.
    replace (8 * Z.of_nat (S n)) with (8 + 8 * Z.of_nat n) by lia.
    replace (8 * Z.of_nat (S k)) with (8 * Z.of_nat k + 8) by lia.
    rewrite !Z.pow_add_r by lia. change (2 ^ 8) with 256.
    rewrite Z.rem_mul_r by lia.
    rewrite Z.div_div by lia. reflexivity.
Qed.

Lemma PutUint64_decode (v : Z) :
  0 <= v < 2 ^ 64 -> Uint64 (PutUint64 v) = v.
Proof.
  intros Hv. unfold PutUint64. rewrite decode_bytes.
  change (2 ^ (8 * Z.of_nat 0)) with 1. rewrite Z.div_1_r.
  change (2 ^ (8 * Z.of_nat 8)) with (2 ^ 64). apply Z.mod_small. exact Hv.
Qed.

Lemma int64_as_uint64_inj (a b : Z) :
  int64.InRange a -> int64.InRange b ->
  uint64.wrap a = uint64.wrap b -> a = b.
Proof.
  unfold int64.InRange, int64.min, int64.max, uint64.wrap.
  change (2 ^ 63) with 9223372036854775808.
  change (2 ^ 64) with 18446744073709551616.
  intros Ha Hb Heq. Z.div_mod_to_equations. lia.
Qed.

(** X9. The bytes that [Migration] hashes.  [PutUint64] writes eight bytes,
    each in [0, 256), from which the 64-bit value is read back; so two
    different int64 node ids (negative ones included, which are converted
    to uint64 first) are never hashed as the same byte string. *)
Theorem PutUint64_round_trip (a b : Z) :
  int64.InRange a -> int64.InRange b ->
  List.length (PutUint64 (uint64.wrap a)) = 8%nat
  /\ Forall (fun x => 0 <= x < 256) (PutUint64 (uint64.wrap a))
  /\ Uint64 (PutUint64 (uint64.wrap a)) = uint64.wrap a
  /\ (PutUint64 (uint64.wrap a) = PutUint64 (uint64.wrap b) -> a = b).
Proof.
  intros Ha Hb.
  assert (Hw : forall x, 0 <= uint64.wrap x < 2 ^ 64)
    by (intros x; apply Z.mod_pos_bound; lia).
  split; [reflexivity|]. split; [|split].
  - unfold PutUint64. apply Forall_map, Forall_forall.
    intros i _. apply Z.mod_pos_bound. lia.
  - apply PutUint64_decode, Hw.
  - intros Heq. apply (int64_as_uint64_inj a b Ha Hb).
    rewrite <- (PutUint64_decode (uint64.wrap a)), <- (PutUint64_decode (uint64.wrap b))
      by apply Hw.
    rewrite Heq. reflexivity.
Qed.
End PutUint64Facts.

(** ** The time synchronizer: edges and composition *)

Section SynchronizerMore.
Import model dao gorm gorm.TimeSynchronizer notions.

(** X10. The watermark near the top of int64.  When the watermark is within
    10 of the largest int64, [last+10] wraps around to the bottom of the
    range, and [Async] stores every timestamp above that: also one smaller
    than the watermark, which then goes back. *)
Theorem Async_wraps_near_max (m : t) (t' : Z) :
  int64.max - 10 < curr m <= int64.max ->
  (t' > curr m + 10 - 2 ^ 64 -> curr (Async t' m) = t')
  /\ (t' <= curr m + 10 - 2 ^ 64 -> curr (Async t' m) = curr m)
  /\ (int64.min + 10 <= t' -> curr (Async t' m) = t').
Proof.
  intros Hw.
  assert (Hadd : int64.add (curr m) 10 = curr m + 10 - 2 ^ 64).
  { unfold int64.add, int64.wrap, int64.max in *.
    change (2 ^ 63) with 9223372036854775808 in *.
    change (2 ^ 64) with 18446744073709551616.
    Z.div_mod_to_equations. lia. }
  unfold Async. rewrite Hadd.
  unfold int64.min, int64.max in *.
  change (2 ^ 63) with 9223372036854775808 in *.
  change (2 ^ 64) with 18446744073709551616.
  repeat split; intros Ht;
    destruct (Z.gtb_spec t' (curr m + 10 - 18446744073709551616));
    cbn [curr]; lia.
Qed.

Lemma updateDB_rows (m : t) (now : time.Time) (db : DB) :
  rows (fst (updateDB m now db))
  = (if (curr m =? 0) || negb (reachable db)
        || String.eqb (nodeIdKey m) EmptyString
     then rows db
     else map (fun r => if String.eqb (Key r) (nodeIdKey m)
                        then flushed m now r else r) (rows db))
  /\ reachable (fst (updateDB m now db)) = reachable db.
Proof.
  unfold updateDB. destruct (Z.eqb_spec (curr m) 0) as [Hz|Hnz]; [auto|].
  unfold Updates, pk_conds. cbn [Key app orb].
  destruct (reachable db) eqn:Hre; cbn [negb orb]; [|auto].
  destruct (String.eqb (nodeIdKey m) EmptyString); cbn [app fst rows reachable];
    [auto|].
  split; [|reflexivity]. apply map_ext. intros r.
  unfold matches; cbn [forallb holds]. rewrite andb_true_r.
  destruct (String.eqb (Key r) (nodeIdKey m)); [|reflexivity].
  unfold assign, flushed; cbn.
  destruct (Z.eqb_spec (curr m) 0); [contradiction | reflexivity].
Qed.

(** X11. The last flush wins.  A flush at a non-zero watermark erases what
    an earlier flush for the same key has written: the rows after both are
    the rows after the second alone, whatever the two watermarks are (the
    earlier one may be the larger).  In particular a flush repeated is a
    flush done once. *)
Theorem flush_overwrites (m1 m2 : t) (now1 now2 : time.Time) (db : DB) :
  nodeIdKey m1 = nodeIdKey m2 -> curr m2 <> 0 ->
  rows (fst (updateDB m2 now2 (fst (updateDB m1 now1 db))))
  = rows (fst (updateDB m2 now2 db)).
Proof.
  intros Hk Hnz.
  destruct (updateDB_rows m1 now1 db) as [Hr1 Hre1].
  destruct (updateDB_rows m2 now2 (fst (updateDB m1 now1 db))) as [Hr12 _].
  destruct (updateDB_rows m2 now2 db) as [Hr2 _].
  rewrite Hr12, Hr2, Hre1, Hr1, <- Hk.
  destruct (Z.eqb_spec (curr m2) 0) as [|_]; [contradiction|]. cbn [orb].
  destruct (reachable db); cbn [negb orb]; [|rewrite !orb_true_r; reflexivity].
  destruct (String.eqb (nodeIdKey m1) EmptyString); cbn [orb];
    [rewrite !orb_true_r; reflexivity|].
  destruct (curr m1 =? 0); cbn [orb]; [reflexivity|].
  rewrite map_map. apply map_ext. intros r.
  destruct (String.eqb (Key r) (nodeIdKey m1)) eqn:Hkr.
  - cbn [flushed Key]. rewrite Hkr. reflexivity.
  - rewrite Hkr. reflexivity.
Qed.

(** X12. The watermark of the background task does not depend on the store.
    After a run over any schedule the watermark is the one the pushes made
    before the first cancellation leave, whatever the store was and
    whether its updates succeeded: ticks and store failures never change
    it. *)
Theorem Run_watermark_ignores_store (sched : list Signal) (m : t) (db : DB) :
  fst (fst (Run sched m db)) = pushes (pushed sched) m.
Proof.
  revert m db. induction sched as [|sg sched IH]; intros m db; [reflexivity|].
  destruct sg as [now | t' |]; cbn [Run pushed].
  - destruct (updateDB m now db) as [db1 ev].
    specialize (IH m db1). destruct (Run sched m db1) as [[m' db2] ev'].
    exact IH.
  - apply IH.
  - reflexivity.
Qed.

Lemma written_app (j1 j2 : list Stmt) :
  written (j1 ++ j2) = written j1 ++ written j2.
Proof. apply flat_map_app. Qed.

(** X13. The watermarks the background task writes never go back.  Over a
    schedule whose pushes leave room for [last+10], the watermarks of the
    updates a run executes, in the order of execution, are non-decreasing
    and lie between the watermark at the start and the watermark at the
    end. *)
Theorem flushes_never_go_back (sched : list Signal) :
  forall (m : t) (db : DB) (m' : t) (db' : DB) (ev : list Event),
    int64.min <= curr m <= int64.max - 10 ->
    Forall in_range sched ->
    Run sched m db = (m', db', ev) ->
    curr m <= curr m'
    /\ exists ws,
         written (journal db') = written (journal db) ++ ws
         /\ StronglySorted Z.le ws
         /\ Forall (fun w => curr m <= w <= curr m') ws.
Proof.
  induction sched as [|sg sched IH]; intros m db m' db' ev Hm Hall Hrun.
  - injection Hrun as E1 E2 E3; subst m' db' ev. split; [lia|].
    exists []. rewrite app_nil_r. repeat split; constructor.
  - inversion Hall as [|x l Hsg Hrest]; subst x l.
    destruct sg as [now | t' |]; cbn [Run] in Hrun.
    + destruct (updateDB m now db) as [db1 ev1] eqn:Hu.
      destruct (Run sched m db1) as [[m2 db2] ev2] eqn:Hr.
      injection Hrun as E1 E2 E3; subst m2 db2 ev.
      destruct (IH m db1 m' db' ev2 Hm Hrest Hr) as (Hle & ws & Hw & Hs & Hb).
      split; [exact Hle|].
      destruct (updateDB_cases m now db)
        as [[_ Hc] | [[_ [e Hc]] | [_ [v [Hv Hc]]]]];
        rewrite Hu in Hc; injection Hc as E1 E2; subst db1 ev1.
      * exists ws. auto.
      * exists ws. auto.
      * exists (curr m :: ws). cbn [journal] in Hw.
        rewrite written_app in Hw. cbn in Hw. rewrite Hv in Hw.
        rewrite Hw, <- app_assoc. split; [reflexivity|]. split.
        -- constructor; [exact Hs|].
           eapply Forall_impl; [|exact Hb]. cbn. intros a Ha. lia.
        -- constructor; [lia | exact Hb].
    + cbn [in_range] in Hsg.
      assert (Hm2 : int64.min <= curr (Async t' m) <= int64.max - 10
                    /\ curr m <= curr (Async t' m)).
      { destruct (Async_cases t' m) as [[Hlt ->] | [_ ->]]; lia. }
      destruct Hm2 as [Hm2 Hup].
      destruct (IH (Async t' m) db m' db' ev Hm2 Hrest Hrun)
        as (Hle & ws & Hw & Hs & Hb).
      split; [lia|]. exists ws. repeat split; auto.
      eapply Forall_impl; [|exact Hb]. cbn. intros a Ha. lia.
    + injection Hrun as E1 E2 E3; subst m' db' ev. split; [lia|].
      exists []. rewrite app_nil_r. repeat split; constructor.
Qed.

(** X14. Cancellation ends the task at once.  A run stops at the first
    cancellation: it is the run over the signals before it, followed by the
    log line of the exit.  Nothing that follows is processed, and no flush
    is made on the way out, so a watermark pushed after the last tick stays
    unwritten. *)
Theorem Run_stops_at_Cancel (pre post : list Signal) (m : t) (db : DB) :
  ~ In Cancel pre ->
  Run (pre ++ Cancel :: post) m db
  = (let '(m', db', ev) := Run pre m db in (m', db', ev ++ [LogDone])).
Proof.
  revert m db. induction pre as [|sg pre IH]; intros m db Hno; [reflexivity|].
  assert (Hno' : ~ In Cancel pre) by (intros Hin; apply Hno; right; exact Hin).
  destruct sg as [now | t' |]; cbn [Run app].
  - destruct (updateDB m now db) as [db1 ev1].
    rewrite (IH m db1 Hno').
    destruct (Run pre m db1) as [[m2 db2] ev2].
    rewrite app_assoc. reflexivity.
  - apply IH. exact Hno'.
  - exfalso. apply Hno. left. reflexivity.
Qed.
End SynchronizerMore.

Section FlushAfterAlloc.
Import model dao gorm gorm.NodeIdAllocator notions.
Context {A : Type} `{snowflake.NodeIdAllocator A}.

(** After every successful call the record of the returned node id is in
    the table and the store is reachable. *)
Lemma Alloc_success_found (fuel : nat) (m : t A) (now : time.Time) (db db1 : DB)
    (n : Z) (ev : list Event) :
  Alloc fuel m now db = Some (Ok n, db1, ev) ->
  exists r1, First [Key_Eq (nodeIdKey m); NodeID_Eq n] db1 = Ok r1.
Proof.
  intros Hrun.
  destruct (Alloc_changes _ _ _ _ _ _ _ Hrun)
    as [[-> Hw] | [(n' & E & Hf & Hc) | (n' & saved & E & Hf & _ & Hu)]].
  - destruct (Hw n eq_refl) as (saved & Hf & _). exists saved. exact Hf.
  - injection E as <-. exists (fresh m now n). apply First_find.
    apply First_missing in Hf. destruct Hf as [Hre Hnone].
    unfold Create in Hc. rewrite Hre in Hc.
    destruct (violates _ _); [discriminate|]. injection Hc as <-.
    cbn [reachable rows]. split; [reflexivity|].
    rewrite (find_app_none _ _ _ Hnone). cbn [find].
    replace (matches [Key_Eq (nodeIdKey m); NodeID_Eq n] (fresh m now n))
      with true; [reflexivity|].
    symmetry. apply matches_key_node. split; reflexivity.
  - injection E as <-. exists (renewed now saved).
    pose proof (Updates_found_rows m now n saved db db1 Hf Hu) as Hrows.
    apply Updates_Ok in Hu. destruct Hu as (_ & _ & Hre1 & _).
    apply First_find. split; [exact Hre1|]. rewrite Hrows.
    rewrite find_map_same.
    + apply First_find in Hf as [_ Hfind]. rewrite Hfind. cbn [option_map].
      apply find_some in Hfind. destruct Hfind as [_ Hm]. rewrite Hm.
      reflexivity.
    + intros x.
      destruct (matches [Key_Eq (nodeIdKey m); NodeID_Eq n] x) eqn:Hm.
      * rewrite renewed_matches. exact Hm.
      * exact Hm.
Qed.

(** A flush under the key of a record sets its watermark and its update
    time. *)
Lemma flush_own_record (s : TimeSynchronizer.t) (now2 : time.Time) (db1 : DB)
    (k : string) (n : Z) (r1 : SnowflakeKv) :
  First [Key_Eq k; NodeID_Eq n] db1 = Ok r1 ->
  k <> EmptyString ->
  TimeSynchronizer.nodeIdKey s = k ->
  TimeSynchronizer.curr s <> 0 ->
  snd (TimeSynchronizer.updateDB s now2 db1) = []
  /\ First [Key_Eq k; NodeID_Eq n]
           (fst (TimeSynchronizer.updateDB s now2 db1))
     = Ok {| Key := k; NodeID := n;
             model.Time := TimeSynchronizer.curr s;
             Created := Created r1; Updated := now2 |}.
Proof.
  intros Hf Hk Hs Hnz.
  destruct (First_key_node _ _ _ _ Hf) as [Hk1 Hn1].
  apply First_find in Hf. destruct Hf as [Hre Hfind].
  unfold TimeSynchronizer.updateDB.
  destruct (Z.eqb_spec (TimeSynchronizer.curr s) 0) as [|_]; [contradiction|].
  unfold Updates, pk_conds. rewrite Hre. cbn [Key app]. rewrite Hs.
  destruct (String.eqb_spec k EmptyString) as [|_]; [contradiction|].
  cbn [app fst snd]. split; [reflexivity|].
  apply First_find. cbn [reachable rows]. split; [reflexivity|].
  rewrite find_map_same.
  - rewrite Hfind. cbn [option_map].
    unfold matches at 1; cbn [forallb holds]. rewrite Hk1, String.eqb_refl.
    cbn [andb]. unfold assign; cbn.
    destruct (Z.eqb_spec (TimeSynchronizer.curr s) 0) as [|_]; [contradiction|].
    rewrite Hn1, Hk1. reflexivity.
  - intros x. destruct (matches [Key_Eq k] x); [|reflexivity].
    unfold assign, matches; cbn. reflexivity.
Qed.

(** A flush under another key leaves the record as it is. *)
Lemma flush_other_record (s : TimeSynchronizer.t) (now2 : time.Time) (db1 : DB)
    (k : string) (n : Z) (r1 : SnowflakeKv) :
  First [Key_Eq k; NodeID_Eq n] db1 = Ok r1 ->
  TimeSynchronizer.nodeIdKey s <> k ->
  First [Key_Eq k; NodeID_Eq n] (fst (TimeSynchronizer.updateDB s now2 db1))
  = Ok r1.
Proof.
  intros Hf Hk.
  destruct (First_key_node _ _ _ _ Hf) as [Hk1 Hn1].
  apply First_find in Hf. destruct Hf as [Hre Hfind].
  apply First_find.
  destruct (updateDB_cases s now2 db1)
    as [[_ ->] | [[_ [e ->]] | [_ [v [_ ->]]]]]; cbn [fst rows reachable];
    auto.
  split; [exact Hre|]. rewrite find_map_same.
  - rewrite Hfind. cbn [option_map]. rewrite Hk1.
    destruct (String.eqb_spec k (TimeSynchronizer.nodeIdKey s)) as [E|_];
      [exfalso; apply Hk; symmetry; exact E | reflexivity].
  - intros x. destruct (String.eqb (Key x) (TimeSynchronizer.nodeIdKey s));
      reflexivity.
Qed.

(** X15. The first flush after an allocation.  After a successful [Alloc]
    for a non-empty key, a flush of a synchronizer of the same key at a
    non-zero watermark succeeds without a log line, and the record of the
    allocated node id then carries the watermark of the synchronizer and
    the time of the flush; it keeps its node id and its creation time. *)
Theorem flush_after_Alloc (fuel : nat) (m : t A) (now now2 : time.Time)
    (db db1 : DB) (n : Z) (ev : list Event) (s : TimeSynchronizer.t) :
  Alloc fuel m now db = Some (Ok n, db1, ev) ->
  nodeIdKey m <> EmptyString ->
  TimeSynchronizer.nodeIdKey s = nodeIdKey m ->
  TimeSynchronizer.curr s <> 0 ->
  exists r1,
    First [Key_Eq (nodeIdKey m); NodeID_Eq n] db1 = Ok r1
    /\ snd (TimeSynchronizer.updateDB s now2 db1) = []
    /\ First [Key_Eq (nodeIdKey m); NodeID_Eq n]
             (fst (TimeSynchronizer.updateDB s now2 db1))
       = Ok {| Key := nodeIdKey m; NodeID := n;
               model.Time := TimeSynchronizer.curr s;
               Created := Created r1; Updated := now2 |}.
Proof.
  intros Hrun Hk Hs Hnz.
  destruct (Alloc_success_found fuel m now db db1 n ev Hrun) as [r1 Hf].
  exists r1. split; [exact Hf|].
  exact (flush_own_record s now2 db1 (nodeIdKey m) n r1 Hf Hk Hs Hnz).
Qed.
End FlushAfterAlloc.

(** ** The key of a node: utils.go *)

Section TextFacts.

Lemma list_ascii_of_append (a b : string) :
  list_ascii_of_string (String.append a b)
  = list_ascii_of_string a ++ list_ascii_of_string b.
Proof.
  induction a as [|c a IH]; [reflexivity|]. cbn. rewrite IH. reflexivity.
Qed.

Lemma list_ascii_of_string_inj (a b : string) :
  list_ascii_of_string a = list_ascii_of_string b -> a = b.
Proof.
  intros E. rewrite <- (string_of_list_ascii_of_string a),
              <- (string_of_list_ascii_of_string b), E. reflexivity.
Qed.

(** A list is cut at the last occurrence of a separator in one way. *)
Lemma split_last {B : Type} (u : B) (a1 : list B) :
  forall a2 d1 d2,
    ~ In u d1 -> ~ In u d2 ->
    a1 ++ u :: d1 = a2 ++ u :: d2 -> a1 = a2 /\ d1 = d2.
Proof.
  induction a1 as [|x a1 IH]; intros a2 d1 d2 H1 H2 E.
  - destruct a2 as [|y a2]; cbn in E.
    + injection E as E. auto.
    + injection E as E1 E2. exfalso. apply H1. rewrite E2.
      apply in_or_app. right. left. reflexivity.
  - destruct a2 as [|y a2]; cbn in E.
    + injection E as E1 E2. exfalso. apply H2. rewrite <- E2.
      apply in_or_app. right. left. reflexivity.
    + injection E as E1 E2. destruct (IH a2 d1 d2 H1 H2 E2) as [-> ->].
      subst y. auto.
Qed.

(** And at the first occurrence. *)
Lemma split_first {B : Type} (u : B) (a1 : list B) :
  forall a2 r1 r2,
    ~ In u a1 -> ~ In u a2 ->
    a1 ++ u :: r1 = a2 ++ u :: r2 -> a1 = a2 /\ r1 = r2.
Proof.
  induction a1 as [|x a1 IH]; intros a2 r1 r2 H1 H2 E.
  - destruct a2 as [|y a2]; cbn in E.
    + injection E as E. auto.
    + injection E as E1 E2. exfalso. apply H2. left. symmetry. exact E1.
  - destruct a2 as [|y a2]; cbn in E.
    + injection E as E1 E2. exfalso. apply H1. left. exact E1.
    + injection E as E1 E2.
      destruct (IH a2 r1 r2) as [-> ->]; auto.
      * intros Hin. apply H1. right. exact Hin.
      * intros Hin. apply H2. right. exact Hin.
      * subst y. auto.
Qed.

(** The digits of a number contain neither separator. *)
Lemma digits_plain (d : Decimal.uint) (c : ascii) :
  In c (list_ascii_of_string (DecimalString.NilEmpty.string_of_uint d)) ->
  c <> "_"%char /\ c <> "."%char.
Proof.
  induction d as [|d IH|d IH|d IH|d IH|d IH|d IH|d IH|d IH|d IH|d IH];
    cbn; intros Hin; try contradiction;
    (destruct Hin as [<- | Hin]; [split; discriminate | exact (IH Hin)]).
Qed.

Lemma fmt_d_plain (z : Z) (c : ascii) :
  In c (list_ascii_of_string (fmt.d z)) -> c <> "_"%char /\ c <> "."%char.
Proof.
  unfold fmt.d, DecimalString.NilZero.string_of_int,
    DecimalString.NilZero.string_of_uint.
  assert (Hu : forall u, In c (list_ascii_of_string
                                 match u with
                                 | Decimal.Nil => "0"%string
                                 | _ => DecimalString.NilEmpty.string_of_uint u
                                 end) ->
                         c <> "_"%char /\ c <> "."%char).
  { intros u Hin. destruct u; try exact (digits_plain _ _ Hin).
    cbn in Hin. destruct Hin as [<- | []]. split; discriminate. }
  destruct (Z.to_int z) as [u|u]; [exact (Hu u)|].
  cbn [list_ascii_of_string]. intros [<- | Hin]; [split; discriminate|].
  exact (Hu u Hin).
Qed.

Lemma fmt_d_inj (a b : Z) : fmt.d a = fmt.d b -> a = b.
Proof.
  unfold fmt.d. intros E.
  assert (Hn : forall z, Z.to_int z <> Decimal.Pos Decimal.Nil
                         /\ Z.to_int z <> Decimal.Neg Decimal.Nil).
  { intros [|p|p]; cbn; split; try discriminate; intros [= Hp];
      exact (DecimalPos.Unsigned.to_uint_nonnil p Hp). }
  pose proof (DecimalString.NilZero.isi (Z.to_int a)
                (proj1 (Hn a)) (proj2 (Hn a))) as Ha.
  pose proof (DecimalString.NilZero.isi (Z.to_int b)
                (proj1 (Hn b)) (proj2 (Hn b))) as Hb.
  rewrite E, Hb in Ha. injection Ha as Ha.
  apply DecimalZ.to_int_inj. symmetry. exact Ha.
Qed.
End TextFacts.

Section KeyFacts.
Import net os utils.
Variable ParseIP : string -> option IP.t.
Variable String6 : IP.t -> string.

(** The key is cut into its parts in only one way. *)
Lemma GetNodeIdKey_cut (h : Host) (name1 name2 : string) (port1 port2 : Z) :
  GetNodeIdKey ParseIP String6 h name1 port1
  = GetNodeIdKey ParseIP String6 h name2 port2 ->
  name1 = name2 /\ port1 = port2.
Proof.
  unfold GetNodeIdKey. intros E.
  apply (f_equal list_ascii_of_string) in E.
  repeat (rewrite ?list_ascii_of_append in E; cbn [list_ascii_of_string] in E).
  set (ip := list_ascii_of_string (GetIP ParseIP String6 h)) in E.
  set (dt := list_ascii_of_string (GetDeployType h)) in E.
  set (u := "_"%char) in E.
  assert (E' : (list_ascii_of_string name1 ++ u :: ip)
               ++ u :: list_ascii_of_string (fmt.d port1)
               = (list_ascii_of_string name2 ++ u :: ip)
                 ++ u :: list_ascii_of_string (fmt.d port2)).
  { apply (app_inv_tail (u :: dt)).
    repeat (rewrite <- app_assoc; cbn [app]). exact E. }
  apply split_last in E'.
  - destruct E' as [En Ep]. split.
    + apply app_inv_tail in En. apply list_ascii_of_string_inj. exact En.
    + apply fmt_d_inj. apply list_ascii_of_string_inj. exact Ep.
  - intros Hin. apply fmt_d_plain in Hin. destruct Hin as [Hin _].
    apply Hin. reflexivity.
  - intros Hin. apply fmt_d_plain in Hin. destruct Hin as [Hin _].
    apply Hin. reflexivity.
Qed.

Lemma GetNodeIdKey_not_empty (h : Host) (name : string) (port : Z) :
  GetNodeIdKey ParseIP String6 h name port <> EmptyString.
Proof.
  unfold GetNodeIdKey. destruct name; discriminate.
Qed.

(** X16. Keys on one host.  On a host, [GetNodeIdKey] gives different keys
    to different pairs of a service name and a port: the name may itself
    contain underscores, the digits of the port do not, so the key is cut
    in only one way.  (The key is the primary key of the table.) *)
Theorem GetNodeIdKey_injective (h : Host) (name1 name2 : string)
    (port1 port2 : Z) :
  GetNodeIdKey ParseIP String6 h name1 port1
  = GetNodeIdKey ParseIP String6 h name2 port2 ->
  name1 = name2 /\ port1 = port2.
Proof. exact (GetNodeIdKey_cut h name1 name2 port1 port2). Qed.
End KeyFacts.

Section GetIPFacts.
Import net os utils.
Variable ParseIP : string -> option IP.t.
Variable String6 : IP.t -> string.

(** [To4] answers nil or four bytes. *)
Lemma To4_four (ip : IP.t) :
  IP.To4 ip = [] \/ exists b0 b1 b2 b3, IP.To4 ip = [b0; b1; b2; b3].
Proof.
  assert (H4 : forall l : IP.t, List.length l = 4%nat ->
                 exists b0 b1 b2 b3, l = [b0; b1; b2; b3]).
  { intros l Hl. destruct l as [|b0 [|b1 [|b2 [|b3 [|b4 l]]]]]; try discriminate.
    eauto. }
  unfold IP.To4. destruct (Nat.eqb_spec (List.length ip) 4) as [E4|_].
  - right. apply H4. exact E4.
  - destruct (Nat.eqb_spec (List.length ip) 16) as [E16|_]; cbn [andb]; [|auto].
    destruct (_ && _ && _); [|auto]. right. apply H4.
    unfold IP.slice. rewrite length_firstn, length_skipn, E16. reflexivity.
Qed.

(** An address that passes the test of either loop is an IPv4 address
    whose first byte is not 127, and its text is the dotted form. *)
Lemma ipv4_text (ip : IP.t) :
  ipv4 ip = true ->
  exists b0 b1 b2 b3,
    IP.To4 ip = [b0; b1; b2; b3] /\ b0 <> 127
    /\ IP.String String6 ip = IP.dotted [b0; b1; b2; b3].
Proof.
  unfold ipv4, IP.IsLoopback, IP.String. intros Hok.
  destruct (To4_four ip) as [E | (b0 & b1 & b2 & b3 & E)]; rewrite E in *.
  - cbn in Hok. rewrite andb_false_r in Hok. discriminate.
  - exists b0, b1, b2, b3. cbn in Hok |- *.
    split; [reflexivity|]. split; [|reflexivity].
    apply andb_prop in Hok. destruct Hok as [_ Hl].
    apply negb_true_iff in Hl. apply Z.eqb_neq. exact Hl.
Qed.

Lemma public_ipv4 (ip : IP.t) : public ip = true -> ipv4 ip = true.
Proof.
  unfold public, ipv4. intros Hp.
  apply andb_prop in Hp. destruct Hp as [Hp Hl].
  apply andb_prop in Hp. destruct Hp as [Hp _].
  rewrite Hp, Hl. reflexivity.
Qed.

(** What a loop of [GetIP] returns comes from an address that passes its
    test, on an interface that is not skipped. *)
Lemma scan_addrs_found (ok : IP.t -> bool) (addrs : list Addr) (s : string) :
  scan_addrs String6 ok addrs = Some s ->
  exists a, In a addrs /\ ok (addr_ip a) = true
            /\ s = IP.String String6 (addr_ip a).
Proof.
  induction addrs as [|a addrs IH]; [discriminate|]. cbn [scan_addrs].
  destruct (ok (addr_ip a)) eqn:Hok.
  - intros [= <-]. exists a. split; [left; reflexivity | auto].
  - intros Hs. destruct (IH Hs) as (a' & Hin & Ha). exists a'.
    split; [right; exact Hin | exact Ha].
Qed.

Lemma scan_found (ok : IP.t -> bool) (interfaces : list Interface) (s : string) :
  scan String6 ok interfaces = Some s ->
  exists iface addrs a,
    In iface interfaces /\ skipped iface = false
    /\ Addrs iface = Some addrs /\ In a addrs
    /\ ok (addr_ip a) = true /\ s = IP.String String6 (addr_ip a).
Proof.
  induction interfaces as [|iface interfaces IH]; [discriminate|].
  cbn [scan]. intros Hs.
  assert (Hrest : scan String6 ok interfaces = Some s ->
                  exists iface0 addrs a,
                    In iface0 (iface :: interfaces) /\ skipped iface0 = false
                    /\ Addrs iface0 = Some addrs /\ In a addrs
                    /\ ok (addr_ip a) = true
                    /\ s = IP.String String6 (addr_ip a)).
  { intros Hr. destruct (IH Hr) as (i0 & ad & a & Hin & Hrest).
    exists i0, ad, a. split; [right; exact Hin | exact Hrest]. }
  destruct (skipped iface) eqn:Hsk; [exact (Hrest Hs)|].
  destruct (Addrs iface) as [addrs|] eqn:Had; [|exact (Hrest Hs)].
  destruct (scan_addrs String6 ok addrs) as [s0|] eqn:Hsa; [|exact (Hrest Hs)].
  injection Hs as <-.
  destruct (scan_addrs_found ok addrs s0 Hsa) as (a & Hin & Hok & Ht).
  exists iface, addrs, a. split; [left; reflexivity | auto].
Qed.

(** A loop of [GetIP] finds an address when there is one to find. *)
Lemma scan_addrs_some (ok : IP.t -> bool) (addrs : list Addr) (a : Addr) :
  In a addrs -> ok (addr_ip a) = true ->
  scan_addrs String6 ok addrs <> None.
Proof.
  induction addrs as [|a0 addrs IH]; [contradiction|]. cbn [scan_addrs].
  intros [-> | Hin] Hok.
  - rewrite Hok. discriminate.
  - destruct (ok (addr_ip a0)); [discriminate | exact (IH Hin Hok)].
Qed.

Lemma scan_some (ok : IP.t -> bool) (interfaces : list Interface)
    (iface : Interface) (addrs : list Addr) (a : Addr) :
  In iface interfaces -> skipped iface = false ->
  Addrs iface = Some addrs -> In a addrs -> ok (addr_ip a) = true ->
  scan String6 ok interfaces <> None.
Proof.
  intros Hin Hsk Had Ha Hok.
  induction interfaces as [|i0 interfaces IH]; [contradiction|].
  cbn [scan]. destruct Hin as [-> | Hin].
  - rewrite Hsk, Had.
    destruct (scan_addrs String6 ok addrs) eqn:Hsa; [discriminate|].
    exfalso. exact (scan_addrs_some ok addrs a Ha Hok Hsa).
  - destruct (skipped i0); [exact (IH Hin)|].
    destruct (Addrs i0) as [ad|]; [|exact (IH Hin)].
    destruct (scan_addrs String6 ok ad); [discriminate | exact (IH Hin)].
Qed.

Lemma dotted_not_loopback (b0 b1 b2 b3 : Z) :
  b0 <> 127 -> IP.dotted [b0; b1; b2; b3] <> "127.0.0.1"%string.
Proof.
  intros Hb E. apply Hb. unfold IP.dotted in E. cbn [nth] in E.
  apply (f_equal list_ascii_of_string) in E.
  rewrite list_ascii_of_append in E. cbn [list_ascii_of_string] in E.
  apply (split_first "."%char _ (list_ascii_of_string (fmt.d 127)) _
           (list_ascii_of_string "0.0.1")) in E.
  - destruct E as [E _]. apply fmt_d_inj. apply list_ascii_of_string_inj.
    exact E.
  - intros Hin. apply fmt_d_plain in Hin. destruct Hin as [_ Hin].
    apply Hin. reflexivity.
  - intros Hin. apply fmt_d_plain in Hin. destruct Hin as [_ Hin].
    apply Hin. reflexivity.
Qed.

(** X17. Where the address of the host comes from.  [GetIP] returns the
    variable POD_IP as it is written when it is set and parses as an
    address, whatever the interfaces are.  Otherwise it returns the empty
    string, or the dotted form of an IPv4 address of an interface that is
    up and is not a loopback interface, and the first byte of that address
    is not 127: without POD_IP the answer is never 127.0.0.1. *)
Theorem GetIP_sources (h : Host) :
  let podIP := Getenv h "POD_IP" in
  (podIP <> EmptyString /\ ParseIP podIP <> None
   /\ GetIP ParseIP String6 h = podIP)
  \/ ((podIP = EmptyString \/ ParseIP podIP = None)
      /\ GetIP ParseIP String6 h <> "127.0.0.1"%string
      /\ (GetIP ParseIP String6 h = EmptyString
          \/ exists interfaces iface addrs a b0 b1 b2 b3,
               Interfaces h = Some interfaces
               /\ In iface interfaces
               /\ Z.land (Flags iface) FlagUp <> 0
               /\ Z.land (Flags iface) FlagLoopback = 0
               /\ Addrs iface = Some addrs /\ In a addrs
               /\ IP.To4 (addr_ip a) = [b0; b1; b2; b3] /\ b0 <> 127
               /\ GetIP ParseIP String6 h = IP.dotted [b0; b1; b2; b3])).
Proof.
  intros podIP. unfold GetIP. fold podIP.
  destruct (String.eqb_spec podIP EmptyString) as [Hempty|Hset]; cbn [negb andb].
  2: destruct (ParseIP podIP) as [ip|] eqn:Hparse.
  2: { left. split; [exact Hset|]. split; [discriminate | reflexivity]. }
  all: right; split; [auto|].
  all: assert (Hfrom : forall ok s,
           (forall ip, ok ip = true -> ipv4 ip = true) ->
           forall interfaces, Interfaces h = Some interfaces ->
           scan String6 ok interfaces = Some s ->
           s <> "127.0.0.1"%string
           /\ exists interfaces iface addrs a b0 b1 b2 b3,
               Interfaces h = Some interfaces
               /\ In iface interfaces
               /\ Z.land (Flags iface) FlagUp <> 0
               /\ Z.land (Flags iface) FlagLoopback = 0
               /\ Addrs iface = Some addrs /\ In a addrs
               /\ IP.To4 (addr_ip a) = [b0; b1; b2; b3] /\ b0 <> 127
               /\ s = IP.dotted [b0; b1; b2; b3]).
  1, 3: intros ok s Hok interfaces Hi Hs;
    destruct (scan_found ok interfaces s Hs)
      as (iface & addrs & a & Hin & Hsk & Had & Ha & Hoka & Ht);
    destruct (ipv4_text _ (Hok _ Hoka)) as (b0 & b1 & b2 & b3 & E4 & Hb & Hd);
    rewrite Hd in Ht; subst s; split; [apply dotted_not_loopback; exact Hb|];
    exists interfaces, iface, addrs, a, b0, b1, b2, b3;
    unfold skipped in Hsk; apply orb_false_iff in Hsk;
    destruct Hsk as [Hup Hlo]; apply Z.eqb_neq in Hup;
    apply negb_false_iff in Hlo; apply Z.eqb_eq in Hlo;
    repeat split; auto.
  all: destruct (Interfaces h) as [interfaces|] eqn:Hi;
    [|split; [discriminate | left; reflexivity]].
  all: destruct (scan String6 public interfaces) as [s|] eqn:Hp;
    [destruct (Hfrom public s public_ipv4 interfaces eq_refl Hp) as [Hn Hex];
     split; [exact Hn | right; exact Hex]|].
  all: destruct (scan String6 ipv4 interfaces) as [s|] eqn:Hv;
    [destruct (Hfrom ipv4 s (fun ip Hip => Hip) interfaces eq_refl Hv)
       as [Hn Hex];
     split; [exact Hn | right; exact Hex]|].
  all: split; [discriminate | left; reflexivity].
Qed.

(** X18. A public address is preferred.  Without a usable POD_IP, when
    some interface that is up and is not a loopback interface has a public
    IPv4 address (not private, not loopback), [GetIP] returns the text of
    such an address: a private address is returned only when there is no
    public one. *)
Theorem GetIP_prefers_public (h : Host) (interfaces : list Interface)
    (iface : Interface) (addrs : list Addr) (a : Addr) :
  Getenv h "POD_IP" = EmptyString \/ ParseIP (Getenv h "POD_IP") = None ->
  Interfaces h = Some interfaces ->
  In iface interfaces -> skipped iface = false ->
  Addrs iface = Some addrs -> In a addrs -> public (addr_ip a) = true ->
  exists iface' addrs' a',
    In iface' interfaces /\ skipped iface' = false
    /\ Addrs iface' = Some addrs' /\ In a' addrs'
    /\ public (addr_ip a') = true
    /\ IP.IsPrivate (addr_ip a') = false
    /\ GetIP ParseIP String6 h = IP.String String6 (addr_ip a').
Proof.
  intros Hpod Hi Hin Hsk Had Ha Hpub. unfold GetIP. rewrite Hi.
  assert (Hno : negb (String.eqb (Getenv h "POD_IP") EmptyString)
                && match ParseIP (Getenv h "POD_IP") with
                   | Some _ => true
                   | None => false
                   end = false).
  { destruct Hpod as [-> | ->]; [reflexivity | apply andb_false_r]. }
  rewrite Hno.
  destruct (scan String6 public interfaces) as [s|] eqn:Hs.
  - destruct (scan_found public interfaces s Hs)
      as (i' & ad' & a' & H1 & H2 & H3 & H4 & H5 & H6).
    exists i', ad', a'. repeat split; auto.
    unfold public in H5. apply andb_prop in H5. destruct H5 as [H5 _].
    apply andb_prop in H5. destruct H5 as [_ H5].
    apply negb_true_iff. exact H5.
  - exfalso. exact (scan_some public interfaces iface addrs a
                      Hin Hsk Had Ha Hpub Hs).
Qed.
End GetIPFacts.

(** ** Two services on one host *)

Section Services.
Import model dao gorm notions.
Variable Sum64 : list Z -> Z.
Variable ParseIP : string -> option net.IP.t.
Variable String6 : net.IP.t -> string.

Lemma pushes_key (ts : list Z) :
  forall s, TimeSynchronizer.nodeIdKey (pushes ts s) = TimeSynchronizer.nodeIdKey s.
Proof.
  induction ts as [|t' ts IH]; intros s; [reflexivity|].
  cbn [pushes fold_left]. fold (pushes ts (TimeSynchronizer.Async t' s)).
  rewrite IH. apply Async_key.
Qed.

(** X19. Services of one host keep to their own records.  Take the
    allocator that [NewNodeIdAllocator] builds for a name and a port on a
    host, and a call of its [Alloc] that succeeds with a node id.  The
    synchronizer that [NewTimeSynchronizer] builds for the same name and
    port has the same key, which is not empty: once it holds a watermark,
    its flush sets the watermark of the allocated record.  The
    synchronizer of another name or port on that host has another key: its
    flush leaves the record as it is, whatever was pushed to it. *)
Theorem services_keep_to_their_records (h : os.Host)
    (name1 name2 : string) (port1 port2 : Z)
    (drift contention : time.Duration) (fuel : nat) (now now2 : time.Time)
    (db db1 : DB) (n : Z) (ev : list Event) (ts1 ts2 : list Z) :
  let m := service.NewNodeIdAllocator ParseIP String6 h name1 port1
             drift contention in
  let s1 := pushes ts1 (service.NewTimeSynchronizer ParseIP String6 h name1 port1) in
  let s2 := pushes ts2 (service.NewTimeSynchronizer ParseIP String6 h name2 port2) in
  let k := NodeIdAllocator.nodeIdKey m in
  @NodeIdAllocator.Alloc _ (nodeid.HashNodeIdAllocator.strategy Sum64)
     fuel m now db = Some (Ok n, db1, ev) ->
  TimeSynchronizer.curr s1 <> 0 ->
  name1 <> name2 \/ port1 <> port2 ->
  exists r1,
    First [Key_Eq k; NodeID_Eq n] db1 = Ok r1
    /\ First [Key_Eq k; NodeID_Eq n]
             (fst (TimeSynchronizer.updateDB s1 now2 db1))
       = Ok {| Key := k; NodeID := n;
               model.Time := TimeSynchronizer.curr s1;
               Created := Created r1; Updated := now2 |}
    /\ First [Key_Eq k; NodeID_Eq n]
             (fst (TimeSynchronizer.updateDB s2 now2 db1))
       = Ok r1.
Proof.
  intros m s1 s2 k Hrun Hnz Hne.
  destruct (@Alloc_success_found _ (nodeid.HashNodeIdAllocator.strategy Sum64)
              fuel m now db db1 n ev Hrun) as [r1 Hf].
  fold k in Hf. exists r1. split; [exact Hf|]. split.
  - apply (flush_own_record s1 now2 db1 k n r1 Hf).
    + apply GetNodeIdKey_not_empty.
    + unfold s1. rewrite pushes_key. reflexivity.
    + exact Hnz.
  - apply (flush_other_record s2 now2 db1 k n r1 Hf).
    unfold s2. rewrite pushes_key. intros E.
    apply GetNodeIdKey_cut in E. destruct E as [En Ep].
    destruct Hne as [Hne | Hne]; apply Hne; auto.
Qed.
End Services.

(** ** The random strategy: what it consumes *)

Section RandMore.
Import nodeid.RandNodeIdAllocator.

(** X20. The random strategy reads the generator up to the first word it
    accepts: the words before it are rejected and dropped, the value is
    that of the accepted word, and the words after it are left for the
    next call.  On words that are all rejected it does not return. *)
Theorem rand_reads_to_first_accepted (n : t) (rej : Source) (x : Z)
    (rest : Source) :
  Forall (fun y => accepted y = false) rej ->
  accepted x = true ->
  Alloc n (rej ++ x :: rest) = Some (Ok (value x), rest)
  /\ Alloc n rej = None.
Proof.
  intros Hrej Hx. induction Hrej as [|y rej Hy Hrej IH].
  - split; [|reflexivity]. cbn [app]. rewrite Alloc_cons, Hx. reflexivity.
  - cbn [app]. rewrite !Alloc_cons, Hy. exact IH.
Qed.
End RandMore.

(** ** Two keys with one candidate *)

Section AllocCollision.
Import model dao gorm gorm.NodeIdAllocator notions.
Context {A : Type} `{snowflake.NodeIdAllocator A}.

(** X21. A collision of candidates is an error, not a migration.  After an
    allocator has obtained a node id, an allocator of another key that has
    no row yet and whose strategy proposes the same node id does not
    migrate: its insert is refused by the unique index on the node id, and
    [Alloc] returns that error, leaving the store as it is. *)
Theorem Alloc_collision_is_an_error (m1 m2 : t A) (fuel fuel2 : nat)
    (now now2 : time.Time) (db db1 : DB) (c : Z) (ev : list Event) :
  Alloc fuel m1 now db = Some (Ok c, db1, ev) ->
  snowflake.Alloc (allocator m2) = Ok c ->
  (forall r, In r (rows db1) -> Key r <> nodeIdKey m2) ->
  Alloc (S fuel2) m2 now2 db1 = Some (Err ErrDuplicatedKey, db1, []).
Proof.
  intros Hrun Hc Hno.
  destruct (Alloc_success_found fuel m1 now db db1 c ev Hrun) as [r1 Hf].
  destruct (First_key_node _ _ _ _ Hf) as [_ Hn1].
  apply First_Ok in Hf. destruct Hf as (Hre & Hin & _).
  unfold Alloc. rewrite Hc. cbn [loop].
  rewrite First_not_found; [|exact Hre|].
  2:{ intros r Hr [Hk _]. exact (Hno r Hr Hk). }
  cbn [is_ErrRecordNotFound]. fold (fresh m2 now2 c). unfold Create.
  rewrite Hre.
  replace (violates (fresh m2 now2 c) (rows db1)) with true; [reflexivity|].
  symmetry. apply violates_iff. exists r1. split; [exact Hin|].
  right. exact Hn1.
Qed.
End AllocCollision.

(** ** The further properties at work *)

Section Instances.
Import model dao gorm notions examples samples.
Import gorm.NodeIdAllocator.

Lemma Alloc_first_allocation_witness :
  let m := pinned_allocator key1 7 time.Second (5 * time.Second) in
  Alloc 1 m noon (store [row key2 3 noonMilli])
  = Some (Ok 7,
          {| rows := [row key2 3 noonMilli; fresh m noon 7];
             reachable := true;
             journal := [INSERT (fresh m noon 7)] |}, []).
Proof.
  intros m.
  apply (Alloc_first_allocation m noon (store [row key2 3 noonMilli]) 7 0).
  - reflexivity.
  - reflexivity.
  - intros r [<- | []]. split; intros E; vm_compute in E; discriminate E.
Defined.

Lemma Alloc_refused_insert_witness :
  let m := pinned_allocator key1 7 time.Second (5 * time.Second) in
  Alloc 1 m noon (store [row key2 7 noonMilli])
  = Some (Err ErrDuplicatedKey, store [row key2 7 noonMilli], []).
Proof.
  intros m.
  apply (Alloc_refused_insert m noon (store [row key2 7 noonMilli]) 7 0
           (row key2 7 noonMilli)).
  - reflexivity.
  - reflexivity.
  - intros r [<- | []] [E _]. vm_compute in E. discriminate E.
  - left. reflexivity.
  - right. reflexivity.
Defined.

Lemma Alloc_fails_fast_witness :
  Alloc 1 (broken_allocator key1) noon (store [])
  = Some (Err (ErrStrategy "no strategy"), store [], [])
  /\ Alloc 1 (pinned_allocator key1 7 time.Second time.Second) noon (offline [])
     = Some (Err ErrBadConn, offline [], []).
Proof.
  split.
  - apply (proj1 (Alloc_fails_fast (broken_allocator key1) noon (store []))).
    reflexivity.
  - apply (proj2 (Alloc_fails_fast
                    (pinned_allocator key1 7 time.Second time.Second)
                    noon (offline [])) 7 0%nat).
    + reflexivity.
    + reflexivity.
Defined.

Lemma Alloc_renews_witness :
  let m := pinned_allocator key1 7 time.Second (5 * time.Second) in
  exists v,
    Alloc 1 m noon (store [row key1 7 (noonMilli - 100)])
    = Some (Ok 7,
            {| rows := [renewed noon (row key1 7 (noonMilli - 100))];
               reachable := true;
               journal := [UPDATE [Key_Eq key1; NodeID_Eq 7] v] |}, []).
Proof.
  intros m. eexists.
  apply (Alloc_renews m noon (store [row key1 7 (noonMilli - 100)]) 7
           (row key1 7 (noonMilli - 100)) 0).
  - reflexivity.
  - reflexivity.
  - vm_compute. discriminate.
Defined.

Lemma Alloc_frame_witness :
  let m := pinned_allocator key1 7 time.Second (5 * time.Second) in
  let db := store [row key1 7 (noonMilli - 100); row key2 3 noonMilli] in
  exists r db' ev,
    Alloc 1 m noon db = Some (r, db', ev) /\ reachable db' = reachable db.
Proof.
  intros m db.
  assert (Hrun : exists r db' ev, Alloc 1 m noon db = Some (r, db', ev))
    by (do 3 eexists; vm_compute; reflexivity).
  destruct Hrun as (r & db' & ev & Hrun). exists r, db', ev.
  split; [exact Hrun|].
  exact (proj1 (Alloc_frame 1 m noon db r db' ev Hrun)).
Defined.

Lemma Alloc_keeps_watermarks_witness :
  let m := pinned_allocator key1 7 time.Second (5 * time.Second) in
  let db := store [row key1 7 (noonMilli - 100); row key2 3 noonMilli] in
  exists r db' ev row',
    Alloc 1 m noon db = Some (r, db', ev)
    /\ nth_error (rows db') 0%nat = Some row'
    /\ noonMilli - 100 <= model.Time row'.
Proof.
  intros m db.
  assert (Hrun : exists r db' ev row',
             Alloc 1 m noon db = Some (r, db', ev)
             /\ nth_error (rows db') 0%nat = Some row')
    by (do 4 eexists; vm_compute; split; reflexivity).
  destruct Hrun as (r & db' & ev & row' & Hrun & Hrow).
  exists r, db', ev, row'. split; [exact Hrun|]. split; [exact Hrow|].
  apply (Alloc_keeps_watermarks 1 m noon db r db' ev 0%nat
           (row key1 7 (noonMilli - 100)) row').
  - vm_compute. constructor.
    + intros [E | []]. discriminate E.
    + constructor; [intros [] | constructor].
  - exact Hrun.
  - reflexivity.
  - exact Hrow.
Defined.

Lemma Alloc_twice_same_node_id_witness :
  let m := pinned_allocator key1 7 time.Second (5 * time.Second) in
  exists db1 db2,
    Alloc 1 m noon (store []) = Some (Ok 7, db1, [])
    /\ Alloc 1 m (noon + time.Second) db1 = Some (Ok 7, db2, []).
Proof.
  intros m.
  assert (Hrun : exists db1, Alloc 1 m noon (store []) = Some (Ok 7, db1, []))
    by (eexists; vm_compute; reflexivity).
  destruct Hrun as [db1 Hrun].
  assert (Hle : time.UnixMilli noon <= time.UnixMilli (noon + time.Second))
    by (vm_compute; discriminate).
  destruct (Alloc_twice_same_node_id 1 0 m noon (noon + time.Second)
              (store []) db1 7 Hrun Hle) as (saved & _ & Hsecond).
  exists db1. eexists. split; [exact Hrun | exact Hsecond].
Defined.

Lemma Alloc_node_id_in_range_witness :
  exists ret db' ev,
    @Alloc _ (nodeid.HashNodeIdAllocator.strategy five) 1
       (NewNodeIdAllocator key1 time.Second time.Second) noon (store [])
    = Some (Ok ret, db', ev)
    /\ 0 <= ret < 1024.
Proof.
  assert (Hrun : exists ret db' ev,
             @Alloc _ (nodeid.HashNodeIdAllocator.strategy five) 1
                (NewNodeIdAllocator key1 time.Second time.Second) noon (store [])
             = Some (Ok ret, db', ev))
    by (do 3 eexists; vm_compute; reflexivity).
  destruct Hrun as (ret & db' & ev & Hrun). exists ret, db', ev.
  split; [exact Hrun|].
  exact (Alloc_node_id_in_range five key1 time.Second time.Second 1 noon
           (store []) db' ret ev Hrun).
Defined.

Lemma PutUint64_round_trip_witness :
  nodeid.HashNodeIdAllocator.Uint64
    (nodeid.HashNodeIdAllocator.PutUint64 (uint64.wrap (-1)))
  = uint64.wrap (-1).
Proof.
  assert (Ha : int64.InRange (-1)) by (vm_compute; split; discriminate).
  assert (Hb : int64.InRange 5) by (vm_compute; split; discriminate).
  exact (proj1 (proj2 (proj2 (PutUint64_round_trip (-1) 5 Ha Hb)))).
Defined.

Lemma Async_wraps_near_max_witness :
  let m := {| TimeSynchronizer.nodeIdKey := key1;
              TimeSynchronizer.curr := int64.max - 3 |} in
  TimeSynchronizer.curr (TimeSynchronizer.Async 5 m) = 5.
Proof.
  intros m.
  assert (Hw : int64.max - 10 < TimeSynchronizer.curr m <= int64.max)
    by (vm_compute; split; [reflexivity | discriminate]).
  apply (proj2 (proj2 (Async_wraps_near_max m 5 Hw))).
  vm_compute. discriminate.
Defined.

Lemma flush_overwrites_witness :
  let m1 := {| TimeSynchronizer.nodeIdKey := key1;
               TimeSynchronizer.curr := 300 |} in
  let m2 := {| TimeSynchronizer.nodeIdKey := key1;
               TimeSynchronizer.curr := 100 |} in
  let db := store [row key1 7 50; row key2 3 60] in
  rows (fst (TimeSynchronizer.updateDB m2 (noon + 1)
               (fst (TimeSynchronizer.updateDB m1 noon db))))
  = rows (fst (TimeSynchronizer.updateDB m2 (noon + 1) db)).
Proof.
  intros m1 m2 db.
  apply (flush_overwrites m1 m2 noon (noon + 1) db).
  - reflexivity.
  - vm_compute. discriminate.
Defined.

Lemma flushes_never_go_back_witness :
  let sched := [TimeSynchronizer.Push 100; TimeSynchronizer.Tick noon;
                TimeSynchronizer.Push 300; TimeSynchronizer.Tick (noon + 1);
                TimeSynchronizer.Cancel] in
  let m := TimeSynchronizer.NewTimeSynchronizer key1 in
  exists m' db' ev,
    TimeSynchronizer.Run sched m (store [row key1 7 50]) = (m', db', ev)
    /\ TimeSynchronizer.curr m <= TimeSynchronizer.curr m'
    /\ exists ws, written (journal db') = written [] ++ ws
                  /\ StronglySorted Z.le ws.
Proof.
  intros sched m.
  assert (Hrun : exists m' db' ev,
             TimeSynchronizer.Run sched m (store [row key1 7 50])
             = (m', db', ev))
    by (do 3 eexists; vm_compute; reflexivity).
  destruct Hrun as (m' & db' & ev & Hrun). exists m', db', ev.
  split; [exact Hrun|].
  assert (Hm : int64.min <= TimeSynchronizer.curr m <= int64.max - 10)
    by (vm_compute; split; discriminate).
  assert (Hall : Forall in_range sched).
  { repeat constructor; vm_compute; discriminate. }
  destruct (flushes_never_go_back sched m (store [row key1 7 50]) m' db' ev
              Hm Hall Hrun) as (Hle & ws & Hw & Hs & _).
  split; [exact Hle|]. exists ws. split; [exact Hw | exact Hs].
Defined.

Lemma Run_stops_at_Cancel_witness :
  let pre := [TimeSynchronizer.Push 100; TimeSynchronizer.Tick noon] in
  let post := [TimeSynchronizer.Push 300; TimeSynchronizer.Tick (noon + 1)] in
  let m := TimeSynchronizer.NewTimeSynchronizer key1 in
  let db := store [row key1 7 50] in
  TimeSynchronizer.Run (pre ++ TimeSynchronizer.Cancel :: post) m db
  = (let '(m', db', ev) := TimeSynchronizer.Run pre m db in
     (m', db', ev ++ [LogDone])).
Proof.
  intros pre post m db.
  apply (Run_stops_at_Cancel pre post m db).
  intros [E | [E | []]]; discriminate E.
Defined.

Lemma flush_after_Alloc_witness :
  let m := pinned_allocator key1 7 time.Second (5 * time.Second) in
  let s := {| TimeSynchronizer.nodeIdKey := key1;
              TimeSynchronizer.curr := noonMilli + 40 |} in
  exists db1 r1,
    Alloc 1 m noon (store []) = Some (Ok 7, db1, [])
    /\ First [Key_Eq key1; NodeID_Eq 7] db1 = Ok r1
    /\ First [Key_Eq key1; NodeID_Eq 7]
             (fst (TimeSynchronizer.updateDB s (noon + 1) db1))
       = Ok {| Key := key1; NodeID := 7; model.Time := noonMilli + 40;
               Created := Created r1; Updated := noon + 1 |}.
Proof.
  intros m s.
  assert (Hrun : exists db1, Alloc 1 m noon (store []) = Some (Ok 7, db1, []))
    by (eexists; vm_compute; reflexivity).
  destruct Hrun as [db1 Hrun].
  assert (Hk : nodeIdKey m <> EmptyString) by (vm_compute; discriminate).
  assert (Hnz : TimeSynchronizer.curr s <> 0) by (vm_compute; discriminate).
  destruct (flush_after_Alloc 1 m noon (noon + 1) (store []) db1 7 [] s
              Hrun Hk eq_refl Hnz) as (r1 & Hf & _ & Hflush).
  exists db1, r1. split; [exact Hrun|]. split; [exact Hf | exact Hflush].
Defined.

Lemma GetNodeIdKey_injective_witness :
  utils.GetNodeIdKey no_parse no_text lan_host "svc" 8080
  = utils.GetNodeIdKey no_parse no_text lan_host "svc" 8080
  /\ "svc"%string = "svc"%string /\ 8080 = 8080.
Proof.
  split; [reflexivity|].
  apply (GetNodeIdKey_injective no_parse no_text lan_host "svc" "svc" 8080 8080).
  reflexivity.
Defined.

Lemma GetIP_prefers_public_witness :
  exists a,
    utils.public (utils.addr_ip a) = true
    /\ utils.GetIP no_parse no_text lan_host
       = net.IP.String no_text (utils.addr_ip a).
Proof.
  destruct (GetIP_prefers_public no_parse no_text lan_host [lo; eth0] eth0
              [net.IPNet [192; 168; 1; 5]; net.IPNet [8; 8; 8; 8]]
              (net.IPNet [8; 8; 8; 8]))
    as (iface' & addrs' & a' & _ & _ & _ & _ & Hpub & _ & Hip).
  - left. reflexivity.
  - reflexivity.
  - right. left. reflexivity.
  - reflexivity.
  - reflexivity.
  - right. left. reflexivity.
  - reflexivity.
  - exists a'. split; [exact Hpub | exact Hip].
Defined.

Lemma services_keep_to_their_records_witness :
  let m := service.NewNodeIdAllocator no_parse no_text lan_host "svc" 8080
             time.Second time.Second in
  let s2 := pushes [noonMilli + 5]
              (service.NewTimeSynchronizer no_parse no_text lan_host "svc" 9090) in
  exists n db1 ev r1,
    @Alloc _ (nodeid.HashNodeIdAllocator.strategy five) 1 m noon (store [])
    = Some (Ok n, db1, ev)
    /\ First [Key_Eq (nodeIdKey m); NodeID_Eq n] db1 = Ok r1
    /\ First [Key_Eq (nodeIdKey m); NodeID_Eq n]
             (fst (TimeSynchronizer.updateDB s2 (noon + 1) db1))
       = Ok r1.
Proof.
  intros m s2.
  assert (Hrun : exists n db1 ev,
             @Alloc _ (nodeid.HashNodeIdAllocator.strategy five) 1 m noon
                (store [])
             = Some (Ok n, db1, ev))
    by (do 3 eexists; vm_compute; reflexivity).
  destruct Hrun as (n & db1 & ev & Hrun).
  assert (Hnz : TimeSynchronizer.curr
                  (pushes [noonMilli]
                     (service.NewTimeSynchronizer no_parse no_text lan_host
                        "svc" 8080)) <> 0)
    by (vm_compute; discriminate).
  assert (Hne : "svc"%string <> "svc"%string \/ 8080 <> 9090)
    by (right; discriminate).
  destruct (services_keep_to_their_records five no_parse no_text lan_host
              "svc" "svc" 8080 9090 time.Second time.Second 1 noon (noon + 1)
              (store []) db1 n ev [noonMilli] [noonMilli + 5] Hrun Hnz Hne)
    as (r1 & Hf & _ & Hother).
  exists n, db1, ev, r1. split; [exact Hrun|]. split; [exact Hf | exact Hother].
Defined.

Lemma rand_reads_to_first_accepted_witness :
  let x := nodeid.RandNodeIdAllocator.first_word 5 in
  nodeid.RandNodeIdAllocator.Alloc nodeid.RandNodeIdAllocator.NewRandNodeIdAllocator
    ([0] ++ x :: [9])
  = Some (Ok (nodeid.RandNodeIdAllocator.value x), [9])
  /\ nodeid.RandNodeIdAllocator.Alloc
       nodeid.RandNodeIdAllocator.NewRandNodeIdAllocator [0] = None.
Proof.
  intros x.
  apply (rand_reads_to_first_accepted
           nodeid.RandNodeIdAllocator.NewRandNodeIdAllocator [0] x [9]).
  - constructor; [vm_compute; reflexivity | constructor].
  - vm_compute. reflexivity.
Defined.

Lemma Alloc_collision_is_an_error_witness :
  let m1 := pinned_allocator key1 7 time.Second (5 * time.Second) in
  let m2 := pinned_allocator key2 7 time.Second (5 * time.Second) in
  let db1 := {| rows := [fresh m1 noon 7]; reachable := true;
                journal := [INSERT (fresh m1 noon 7)] |} in
  Alloc 1 m1 noon (store []) = Some (Ok 7, db1, [])
  /\ Alloc 1 m2 (noon + 1) db1 = Some (Err ErrDuplicatedKey, db1, []).
Proof.
  intros m1 m2 db1.
  assert (Hrun : Alloc 1 m1 noon (store []) = Some (Ok 7, db1, []))
    by (vm_compute; reflexivity).
  split; [exact Hrun|].
  apply (Alloc_collision_is_an_error m1 m2 1 0 noon (noon + 1) (store []) db1 7 []).
  - exact Hrun.
  - reflexivity.
  - intros r [<- | []] E. vm_compute in E. discriminate E.
Defined.
End Instances.

(** ** utils.go on the sample host *)

Section ReplayUtils.
Import net os utils samples.

(** The network card is preferred to the loopback interface, and its public
    address to its private one. *)
Example replay_GetIP :
  GetIP no_parse no_text lan_host = "8.8.8.8"%string.
Proof. vm_compute. reflexivity. Qed.

(** [TestGetNodeIdKey_Format]: name, address, port and deployment type. *)
Example replay_GetNodeIdKey :
  GetNodeIdKey no_parse no_text lan_host "test-service" 8080
  = "test-service_8.8.8.8_8080_physical"%string.
Proof. vm_compute. reflexivity. Qed.

(** An IPv4 address in its 16-byte form is the same IPv4 address. *)
Example replay_To4_mapped :
  IP.To4 [0; 0; 0; 0; 0; 0; 0; 0; 0; 0; 255; 255; 10; 1; 2; 3] = [10; 1; 2; 3]
  /\ IP.IsPrivate [0; 0; 0; 0; 0; 0; 0; 0; 0; 0; 255; 255; 10; 1; 2; 3] = true
  /\ IP.IsLoopback IP.IPv6loopback = true
  /\ IP.To4 IP.IPv6loopback = [].
Proof. vm_compute. repeat split; reflexivity. Qed.
End ReplayUtils.
